(** * AutoSpark: task store, task-list text format and batch-script compiler

    A shallow embedding of [task_manager.py] and [file_handler.py].

    Conventions of the embedding.
    - A Python [str] is a [string]; its characters stand for the code points
      0..255.  The [str] methods the program calls ([strip], [find], [split],
      [replace], [lower], [startswith], [endswith], slicing, [in]) are defined
      below with Python's behaviour on such strings.
    - A task dictionary [{"type": .., "details": .., "additional": ..}] is the
      record [Task] of its three entries, which the program reads with
      [task.get(key, default)].
    - An open text file is the string written so far; [f.write] appends.
      The file system is a finite map from paths to contents: a path
      stands for one file, and two paths for two files (links, the
      relative forms of a path and hosts that fold the case of names are
      left out).  Opening a file for writing always succeeds in this
      model, and a file holds the characters written, whatever its
      encoding.  Reading a file in text mode gives its
      characters with every [\r\n] and every other [\r] turned into [\n].
      (A host that stores [\n] as [\r\n] reads back the same text, but for
      one more empty line where the text written had [\r\n] itself.)
    - A raised exception is a value of [exn]; [str(e)] of a wrapped exception
      is kept structured instead of being flattened into one message, and
      [ValueError s] is the error that [int(s)] raises. *)

From Stdlib Require Import ZArith Ascii String List Lia Bool.
From stdpp Require Import base gmap strings list pretty.

Local Open Scope Z_scope.

(** ** Characters and Python string methods *)

Definition LF : ascii := "010".
Definition CR : ascii := "013".
Definition NL : string := String LF EmptyString.
Definition DQ : string := String "034" EmptyString.
Definition BSL : string := String "092" EmptyString.

(** [str.isspace] on one character (code points below 256). *)
Definition py_isspace (c : ascii) : bool :=
  let n := nat_of_ascii c in
  ((9 <=? n) && (n <=? 13) || (28 <=? n) && (n <=? 32) || (n =? 133) || (n =? 160))%nat.

Definition is_empty (s : string) : bool :=
  match s with EmptyString => true | String _ _ => false end.

Fixpoint lstrip (s : string) : string :=
  match s with
  | EmptyString => EmptyString
  | String c s' => if py_isspace c then lstrip s' else s
  end.

Fixpoint rstrip (s : string) : string :=
  match s with
  | EmptyString => EmptyString
  | String c s' =>
      match rstrip s' with
      | EmptyString => if py_isspace c then EmptyString else String c EmptyString
      | r => String c r
      end
  end.

(** [s.strip()] *)
Definition strip (s : string) : string := rstrip (lstrip s).

(** [s.startswith(p)] and [s.endswith(p)] *)
Definition startswith (p s : string) : bool := String.prefix p s.

Definition endswith (p s : string) : bool :=
  let n := String.length s in
  let k := String.length p in
  (k <=? n)%nat && String.eqb (substring (n - k) k s) p.

(** [c in s] for a one-character [c] *)
Fixpoint contains (c : ascii) (s : string) : bool :=
  match s with
  | EmptyString => false
  | String a s' => Ascii.eqb a c || contains c s'
  end.

(** [s.partition(c)] when [c] occurs: the text before and after its first
    occurrence.  [find] and [split] with [maxsplit=1] are read off it. *)
Fixpoint cut (c : ascii) (s : string) : option (string * string) :=
  match s with
  | EmptyString => None
  | String a s' =>
      if Ascii.eqb a c then Some (EmptyString, s')
      else match cut c s' with
           | Some (u, v) => Some (String a u, v)
           | None => None
           end
  end.

(** [s.find(c)]: index of the first occurrence, [-1] when there is none. *)
Definition find (c : ascii) (s : string) : Z :=
  match cut c s with
  | Some (u, _) => Z.of_nat (String.length u)
  | None => -1
  end.

(** [s.split(c, 1)] *)
Definition split1 (c : ascii) (s : string) : list string :=
  match cut c s with
  | Some (u, v) => [u; v]
  | None => [s]
  end.

(** [s.split(c)] *)
Fixpoint split (c : ascii) (s : string) : list string :=
  match s with
  | EmptyString => [EmptyString]
  | String a s' =>
      if Ascii.eqb a c then EmptyString :: split c s'
      else match split c s' with
           | x :: xs => String a x :: xs
           | [] => [String a EmptyString]
           end
  end.

(** Python slice bounds: a negative index counts from the end, and both
    ends are clamped to the string. *)
Definition clamp (len i : Z) : Z :=
  if i <? 0 then Z.max 0 (len + i) else Z.min i len.

(** [s[i:j]] *)
Definition slice (s : string) (i j : Z) : string :=
  let len := Z.of_nat (String.length s) in
  let a := clamp len i in
  let b := clamp len j in
  substring (Z.to_nat a) (Z.to_nat (b - a)) s.

(** [s[i:]] *)
Definition slice_from (s : string) (i : Z) : string :=
  slice s i (Z.of_nat (String.length s)).

Fixpoint map_chars (f : ascii -> ascii) (s : string) : string :=
  match s with
  | EmptyString => EmptyString
  | String a s' => String (f a) (map_chars f s')
  end.

(** [s.replace(a, b)] for one-character [a] and [b] *)
Definition replace (a b : ascii) (s : string) : string :=
  map_chars (fun c => if Ascii.eqb c a then b else c) s.

(** [s.lower()]: A-Z, and the upper-case letters of Latin-1. *)
Definition lower_char (c : ascii) : ascii :=
  let n := nat_of_ascii c in
  if ((65 <=? n) && (n <=? 90) || (192 <=? n) && (n <=? 222) && negb (n =? 215))%nat
  then ascii_of_nat (n + 32) else c.

Definition lower (s : string) : string := map_chars lower_char s.

(** [s * n] *)
Fixpoint repeat_str (s : string) (n : nat) : string :=
  match n with
  | O => EmptyString
  | S n' => s +:+ repeat_str s n'
  end.

(** What reading in text mode makes of the characters of a file: the
    line ends [\r\n] and [\r] become [\n]. *)
Fixpoint universal_newlines (s : string) : string :=
  match s with
  | EmptyString => EmptyString
  | String c s' =>
      if Ascii.eqb c CR then
        match s' with
        | String c' s'' =>
            if Ascii.eqb c' LF then String LF (universal_newlines s'')
            else String LF (universal_newlines s')
        | EmptyString => String LF EmptyString
        end
      else String c (universal_newlines s')
  end.

Fixpoint concat_str (l : list string) : string :=
  match l with
  | [] => EmptyString
  | s :: l' => s +:+ concat_str l'
  end.

(** ** Tasks *)

Record Task := mkTask { task_type : string; details : string; additional : string }.

(** ** Exceptions, and a file opened for writing *)

Inductive exn :=
| ValueError (literal : string)
| Exception (context : string) (cause : exn).

Inductive result (A : Type) :=
| Ok (a : A)
| Raise (e : exn).
Arguments Ok {A} a.
Arguments Raise {A} e.

(** Code running inside [with open(path, 'w') as f]: it takes the text
    written so far and gives the text written when it returns or raises. *)
Definition W (A : Type) : Type := string -> string * result A.

Definition w_ret {A} (a : A) : W A := fun f => (f, Ok a).

Definition w_bind {A B} (m : W A) (k : A -> W B) : W B :=
  fun f =>
    match m f with
    | (f', Ok a) => k a f'
    | (f', Raise e) => (f', Raise e)
    end.

Definition w_raise {A} (e : exn) : W A := fun f => (f, Raise e).

(** [f.write(s)] *)
Definition write (s : string) : W unit := fun f => (f +:+ s, Ok tt).

Notation "m1 ;; m2" := (w_bind m1 (fun _ => m2))
  (at level 100, m2 at level 200, right associativity).
Notation "'let*' x ':=' m1 'in' m2" := (w_bind m1 (fun x => m2))
  (at level 10, x name, m1 at level 100, m2 at level 200).

(** [for x in xs: body(x)] *)
Fixpoint for_each {A} (xs : list A) (body : A -> W unit) : W unit :=
  match xs with
  | [] => w_ret tt
  | x :: xs' => body x ;; for_each xs' body
  end.

(** [enumerate(xs, start)] *)
Fixpoint enumerate {A} (start : nat) (xs : list A) : list (nat * A) :=
  match xs with
  | [] => []
  | x :: xs' => (start, x) :: enumerate (S start) xs'
  end.

Abbreviation files := (gmap string string).

(** [with open(path, 'w') as f: body]: the file holds what was written, also
    when the body raises. *)
Definition with_open_w {A} (fs : files) (path : string) (body : W A)
  : files * result A :=
  let '(text, r) := body EmptyString in (<[path := text]> fs, r).

(** [try: ... except Exception as e: raise Exception(context + str(e))] *)
Definition reraise {A} (context : string) (r : result A) : result A :=
  match r with
  | Ok a => Ok a
  | Raise e => Raise (Exception context e)
  end.

(** What a piece of writing code appends to an empty file, and how it ends. *)
Definition text_of {A} (m : W A) : string := fst (m EmptyString).
Definition outcome {A} (m : W A) : result A := snd (m EmptyString).

(** Writing code only appends: what it adds does not depend on what the
    file already holds. *)
Definition appends {A} (m : W A) : Prop :=
  forall f, m f = (f +:+ text_of m, outcome m).

(** ** file_handler.py: the text format *)

Module FileHandler.

(** The writes of [save_tasks] inside its [with] block.  [now] is the value
    of [time.strftime("%Y-%m-%d %H:%M:%S")]. *)
Definition write_task_list (now : string) (tasks : list Task) : W unit :=
  write ("# AutoSpark Application - Task List" +:+ NL) ;;
  write ("# Generated on: " +:+ now +:+ NL) ;;
  write ("# Format: [Task Type] | [Details] | [Additional Info (optional)]" +:+ NL +:+ NL) ;;
  for_each tasks (fun task =>
    write ("[" +:+ task_type task +:+ "] | " +:+ details task) ;;
    (if negb (is_empty (additional task))
     then write (" | " +:+ additional task)
     else w_ret tt) ;;
    write NL).

(** The text [save_tasks] writes to the task-list file. *)
Definition serialize (now : string) (tasks : list Task) : string :=
  fst (write_task_list now tasks EmptyString).

(** The body of the loop of [parse_text_to_tasks] on one line, after
    [line = line.strip()]: the task it appends, if any. *)
Definition parse_line (line : string) : option Task :=
  if is_empty line || startswith "#" line then None
  else if startswith "[" line && contains "]" line && contains "|" line then
    let task_type_end := find "]" line in
    let task_type := strip (slice line 1 task_type_end) in
    let rest := strip (slice_from line (task_type_end + 1)) in
    let parts := map strip (split1 "|" rest) in
    let details := match parts with [] => EmptyString | p0 :: _ => p0 end in
    let additional :=
      if (1 <? length parts)%nat && contains "|" (nth 1 parts EmptyString)
      then
        let additional_parts := split1 "|" (nth 1 parts EmptyString) in
        strip (nth 0 additional_parts EmptyString)
      else if (1 <? length parts)%nat then strip (nth 1 parts EmptyString)
      else EmptyString in
    Some (mkTask task_type details additional)
  else None.

Definition parse_text_to_tasks (content : string) : list Task :=
  let lines := split LF (strip content) in
  fold_left
    (fun tasks line =>
       let line := strip line in
       match parse_line line with
       | Some t => tasks ++ [t]
       | None => tasks
       end)
    lines [].

(** *** The batch-script compiler *)

(** [int(s)] for a [str]: surrounding white space, an optional sign, then
    decimal digits, where one underscore may separate two digits.  The
    white space [int] skips is that of C ([\t\n\v\f\r] and the space)
    and the two Latin-1 spaces.  A literal of more than
    [int_max_str_digits] digits is refused, leading zeros counted: the
    interpreter limits the conversion (since 3.11, and in the security
    releases of the versions before it), and the program leaves the limit
    at its default. *)
Definition int_isspace (c : ascii) : bool :=
  let n := nat_of_ascii c in
  ((9 <=? n) && (n <=? 13) || (n =? 32) || (n =? 133) || (n =? 160))%nat.

Fixpoint int_lstrip (s : string) : string :=
  match s with
  | EmptyString => EmptyString
  | String c s' => if int_isspace c then int_lstrip s' else s
  end.

Definition is_digit (c : ascii) : bool :=
  let n := nat_of_ascii c in ((48 <=? n) && (n <=? 57))%nat.

Definition digit_value (c : ascii) : Z := Z.of_nat (nat_of_ascii c) - 48.

(** The digits of the literal; [after_digit] says whether the previous
    character was a digit.  White space may follow the last digit. *)
Fixpoint int_digits (acc : Z) (after_digit : bool) (s : string) : option Z :=
  match s with
  | EmptyString => if after_digit then Some acc else None
  | String c s' =>
      if is_digit c then int_digits (10 * acc + digit_value c) true s'
      else if Ascii.eqb c "_" then
        if after_digit then int_digits acc false s' else None
      else if after_digit && is_empty (int_lstrip s) then Some acc
      else None
  end.

(** The integer a literal denotes, by its syntax. *)
Definition int_value (s : string) : option Z :=
  match int_lstrip s with
  | String "+" r => int_digits 0 false r
  | String "-" r => Z.opp <$> int_digits 0 false r
  | r => int_digits 0 false r
  end.

(** [sys.get_int_max_str_digits()] *)
Definition int_max_str_digits : Z := 4300.

Fixpoint count_digits (s : string) : Z :=
  match s with
  | EmptyString => 0
  | String c s' => (if is_digit c then 1 else 0) + count_digits s'
  end.

(** What [int(s)] returns; [None] when it raises [ValueError].  An
    integer it returns has no more digits than the literal, so [str]
    writes it whatever the limit. *)
Definition int_literal (s : string) : option Z :=
  if int_max_str_digits <? count_digits s then None else int_value s.

(** [int(s)], raising [ValueError] *)
Definition int {A} (s : string) (k : Z -> W A) : W A :=
  match int_literal s with
  | Some n => k n
  | None => w_raise (ValueError s)
  end.

(** What the program reads from its host in the course of one call: the
    clock at that time, and [os.path].  A call made later has a host
    with another [now]. *)
Record Host := {
  now : string;                       (* time.strftime("%Y-%m-%d %H:%M:%S") *)
  os_sep : ascii;                     (* os.sep *)
  os_altsep : option ascii;           (* os.altsep *)
  os_basename : string -> string      (* os.path.basename *)
}.

(** [s.rfind(c)] *)
Fixpoint rfind_from (c : ascii) (s : string) (i last : Z) : Z :=
  match s with
  | EmptyString => last
  | String a s' => rfind_from c s' (i + 1) (if Ascii.eqb a c then i else last)
  end.

Definition rfind (c : ascii) (s : string) : Z := rfind_from c s 0 (-1).

Fixpoint all_chars (f : ascii -> bool) (s : string) : bool :=
  match s with
  | EmptyString => true
  | String a s' => f a && all_chars f s'
  end.

(** [os.path.splitext(p)]: the extension starts at the last dot of the
    last path component, unless only dots precede it there. *)
Definition splitext (h : Host) (p : string) : string * string :=
  let sepIndex := rfind (os_sep h) p in
  let sepIndex :=
    match os_altsep h with
    | Some altsep => Z.max sepIndex (rfind altsep p)
    | None => sepIndex
    end in
  let dotIndex := rfind "." p in
  if (sepIndex <? dotIndex)
     && negb (all_chars (Ascii.eqb ".") (slice p (sepIndex + 1) dotIndex))
  then (slice p 0 dotIndex, slice_from p dotIndex)
  else (p, EmptyString).

(** A host with the path conventions of Windows; its [basename] is the
    text after the last separator, which is what [os.path.basename]
    gives for a path without a drive prefix. *)
Definition windows_host : Host :=
  {| now := "2024-05-01 10:30:00";
     os_sep := "\";
     os_altsep := Some "/"%char;
     os_basename := fun p => slice_from p (Z.max (rfind "\" p) (rfind "/" p) + 1) |}.

Definition get_bat_path (h : Host) (txt_file_path : string) : string :=
  let '(base, ext) := splitext h txt_file_path in
  base +:+ ".bat".

Definition has_scheme (url : string) : bool :=
  startswith "http://" url || startswith "https://" url
  || startswith "ftp://" url || startswith "file://" url.

Definition _write_url_code (url : string) : W unit :=
  write ("echo Opening URL in default web browser..." +:+ NL) ;;
  let* url :=
    (if negb (has_scheme url) then
       write ("echo No protocol specified, using https:// by default" +:+ NL) ;;
       w_ret ("https://" +:+ url)
     else w_ret url) in
  write ("echo Using start command..." +:+ NL) ;;
  write ("start " +:+ DQ +:+ DQ +:+ " " +:+ DQ +:+ url +:+ DQ +:+ NL) ;;
  write ("if %ERRORLEVEL% NEQ 0 (" +:+ NL) ;;
  write ("    echo ERROR: Failed to open URL." +:+ NL) ;;
  write ("    echo URL: " +:+ url +:+ NL) ;;
  write (") else (" +:+ NL) ;;
  write ("    echo Successfully opened URL: " +:+ url +:+ NL) ;;
  write (")" +:+ NL +:+ NL) ;;
  write (":url_end" +:+ NL).

(** The em dash of one message, as its UTF-8 bytes. *)
Definition EM_DASH : string := String "226" (String "128" (String "148" EmptyString)).

(** The [if task_type == ...: ... elif ...: ... else: ...] chain of the
    loop body of [convert_to_bat]: the code written for one task. *)
Definition kind_code (task : Task) : W unit :=
  let task_type := task_type task in
  let details := details task in
  let additional := additional task in
  if String.eqb task_type "open_url" then
    _write_url_code details
  else if String.eqb task_type "open_app" then
    write ("start " +:+ DQ +:+ DQ +:+ " " +:+ DQ +:+ details +:+ DQ +:+ NL)
  else if String.eqb task_type "open_file" then
    write ("start " +:+ DQ +:+ DQ +:+ " " +:+ DQ +:+ details +:+ DQ +:+ NL)
  else if String.eqb task_type "close_app" then
    write ("taskkill /f /im " +:+ DQ +:+ details +:+ DQ +:+ " >nul 2>&1" +:+ NL) ;;
    write ("if %ERRORLEVEL% EQU 0 (echo Successfully closed {details}) else (echo Failed to close {details})" +:+ NL)
  else if String.eqb task_type "run_command" then
    write (details +:+ NL)
  else if String.eqb task_type "delay" then
    int details (fun seconds =>
    write ("echo Waiting for " +:+ pretty seconds +:+ " seconds..." +:+ NL) ;;
    write ("timeout /t " +:+ pretty seconds +:+ " /nobreak >nul" +:+ NL))
  else if String.eqb task_type "shutdown" then
    write ("echo System will shutdown in " +:+ details +:+ " seconds..." +:+ NL) ;;
    write ("shutdown /s /t " +:+ details +:+ NL)
  else if String.eqb task_type "restart" then
    write ("echo System will restart in " +:+ details +:+ " seconds..." +:+ NL) ;;
    write ("shutdown /r /t " +:+ details +:+ NL)
  else if String.eqb task_type "sleep" then
    write ("echo Putting system to sleep..." +:+ NL) ;;
    write ("rundll32.exe powrprof.dll,SetSuspendState 0,1,0" +:+ NL)
  else if String.eqb task_type "screenshot" then
    write ("echo Taking screenshot..." +:+ NL) ;;
    let safe_path := replace "/" "\" details in
    write ("if not exist " +:+ DQ +:+ safe_path +:+ DQ +:+ " mkdir " +:+ DQ +:+ safe_path +:+ DQ +:+ NL) ;;
    write ("powershell -NoProfile -ExecutionPolicy Bypass -Command " +:+ DQ
           +:+ "$ts=Get-Date -Format " +:+ BSL +:+ DQ +:+ "yyyy-MM-dd_HH-mm-ss" +:+ BSL +:+ DQ +:+ "; ") ;;
    write ("$path=" +:+ BSL +:+ DQ +:+ safe_path +:+ BSL +:+ "screenshot_$ts.png" +:+ BSL +:+ DQ +:+ "; ") ;;
    write ("[void][Reflection.Assembly]::LoadWithPartialName(" +:+ BSL +:+ DQ
           +:+ "System.Windows.Forms" +:+ BSL +:+ DQ +:+ "); ") ;;
    write ("[void][Reflection.Assembly]::LoadWithPartialName(" +:+ BSL +:+ DQ
           +:+ "System.Drawing" +:+ BSL +:+ DQ +:+ "); ") ;;
    write "$bounds = [System.Windows.Forms.Screen]::PrimaryScreen.Bounds; " ;;
    write "$bmp = New-Object System.Drawing.Bitmap $bounds.Width, $bounds.Height; " ;;
    write "$g = [System.Drawing.Graphics]::FromImage($bmp); " ;;
    write "$g.CopyFromScreen($bounds.X, $bounds.Y, 0, 0, $bounds.Size); " ;;
    write "$bmp.Save($path); " ;;
    write "$g.Dispose(); $bmp.Dispose(); " ;;
    write ("Write-Host " +:+ BSL +:+ DQ +:+ "Screenshot saved to: $path" +:+ BSL +:+ DQ +:+ DQ +:+ NL) ;;
    write ("if %ERRORLEVEL% NEQ 0 echo ERROR: Failed to take screenshot" +:+ NL +:+ NL)
  else if String.eqb task_type "clean_temp" then
    write ("echo Cleaning temporary files..." +:+ NL) ;;
    write ("del /q /f /s " +:+ DQ +:+ "%TEMP%" +:+ BSL +:+ "*" +:+ DQ +:+ " >nul 2>&1" +:+ NL) ;;
    write ("echo Temporary files cleaned." +:+ NL)
  else if String.eqb task_type "security_scan" then
    let scan_type := lower details in
    let ps_command :=
      if String.eqb scan_type "quick" then "Start-MpScan -ScanType QuickScan"
      else if String.eqb scan_type "full" then "Start-MpScan -ScanType FullScan"
      else "Start-MpScan -ScanType CustomScan" in
    write ("echo Running " +:+ scan_type +:+ " security scan..." +:+ NL) ;;
    write ("powershell -Command " +:+ DQ +:+ ps_command +:+ DQ +:+ NL)
  else if String.eqb task_type "delete_file" then
    let safe_path := replace "/" "\" details in
    write ("echo Deleting file: " +:+ safe_path +:+ NL) ;;
    write ("if exist " +:+ DQ +:+ safe_path +:+ DQ +:+ " (" +:+ NL) ;;
    write ("  del /F /Q " +:+ DQ +:+ safe_path +:+ DQ +:+ NL) ;;
    write ("  echo Return code: %ERRORLEVEL%" +:+ NL) ;;
    write ("  if %ERRORLEVEL% NEQ 0 (" +:+ NL) ;;
    write ("    echo ERROR: Failed to delete file with code %ERRORLEVEL%" +:+ NL) ;;
    write ("  ) else (" +:+ NL) ;;
    write ("    echo Successfully deleted file: " +:+ safe_path +:+ NL) ;;
    write ("  )" +:+ NL) ;;
    write (") else (" +:+ NL) ;;
    write ("  echo WARNING: File not found: " +:+ safe_path +:+ NL) ;;
    write (")" +:+ NL)
  else if String.eqb task_type "empty_folder" then
    let safe_path := replace "/" "\" details in
    write ("echo Emptying folder: " +:+ safe_path +:+ NL) ;;
    write ("if exist " +:+ DQ +:+ safe_path +:+ DQ +:+ " (" +:+ NL) ;;
    write ("  echo Deleting all subfolders in: " +:+ safe_path +:+ NL) ;;
    write ("  for /d %%i in (" +:+ DQ +:+ safe_path +:+ BSL +:+ "*" +:+ DQ +:+ ") do (" +:+ NL) ;;
    write ("    rmdir /s /q " +:+ DQ +:+ "%%i" +:+ DQ +:+ " >nul 2>&1" +:+ NL) ;;
    write ("  )" +:+ NL) ;;
    write ("  echo Deleting all files in: " +:+ safe_path +:+ NL) ;;
    write ("  del /f /q " +:+ DQ +:+ safe_path +:+ BSL +:+ "*" +:+ DQ +:+ " >nul 2>&1" +:+ NL) ;;
    write ("  echo Return code: %ERRORLEVEL%" +:+ NL) ;;
    write ("  if %ERRORLEVEL% NEQ 0 (" +:+ NL) ;;
    write ("    echo ERROR: Failed to empty folder with code %ERRORLEVEL%" +:+ NL) ;;
    write ("  ) else (" +:+ NL) ;;
    write ("    echo Successfully emptied folder: " +:+ safe_path +:+ NL) ;;
    write ("  )" +:+ NL) ;;
    write (") else (" +:+ NL) ;;
    write ("  echo WARNING: Folder not found: " +:+ safe_path +:+ NL) ;;
    write (")" +:+ NL)
  else if String.eqb task_type "delete_folder" then
    let safe_path := replace "/" "\" details in
    write ("echo Deleting folder: " +:+ safe_path +:+ NL) ;;
    write ("if exist " +:+ DQ +:+ safe_path +:+ DQ +:+ " (" +:+ NL) ;;
    write ("  rmdir /s /q " +:+ DQ +:+ safe_path +:+ DQ +:+ NL) ;;
    write ("  echo Return code: %ERRORLEVEL%" +:+ NL) ;;
    write ("  if %ERRORLEVEL% NEQ 0 (" +:+ NL) ;;
    write ("    echo ERROR: Failed to delete folder with code %ERRORLEVEL%" +:+ NL) ;;
    write ("  ) else (" +:+ NL) ;;
    write ("    echo Successfully deleted folder and its contents: " +:+ safe_path +:+ NL) ;;
    write ("  )" +:+ NL) ;;
    write (") else (" +:+ NL) ;;
    write ("  echo WARNING: Folder not found: " +:+ safe_path +:+ NL) ;;
    write (")" +:+ NL)
  else if String.eqb task_type "delete_folder_if_empty" then
    let safe_path := replace "/" "\" details in
    write ("echo Attempting to delete folder (only if empty): " +:+ safe_path +:+ NL) ;;
    write ("if exist " +:+ DQ +:+ safe_path +:+ DQ +:+ " (" +:+ NL) ;;
    write ("  rmdir /q " +:+ DQ +:+ safe_path +:+ DQ +:+ NL) ;;
    write ("  if exist " +:+ DQ +:+ safe_path +:+ DQ +:+ " (" +:+ NL) ;;
    write ("    echo WARNING: Could not delete folder " +:+ safe_path +:+ " " +:+ EM_DASH
           +:+ " it may not be empty or is locked" +:+ NL) ;;
    write ("  ) else (" +:+ NL) ;;
    write ("    echo Successfully deleted empty folder: " +:+ safe_path +:+ NL) ;;
    write ("  )" +:+ NL) ;;
    write (") else (" +:+ NL) ;;
    write ("  echo WARNING: Folder not found: " +:+ safe_path +:+ NL) ;;
    write (")" +:+ NL)
  else if String.eqb task_type "backup_folder" then
    let safe_source := replace "/" "\" details in
    let safe_dest := replace "/" "\" additional in
    write ("echo Backing up folder: " +:+ safe_source +:+ NL) ;;
    write ("echo to: " +:+ safe_dest +:+ NL) ;;
    write ("if not exist " +:+ DQ +:+ safe_source +:+ DQ +:+ " (" +:+ NL) ;;
    write ("  echo ERROR: Source folder not found: " +:+ safe_source +:+ NL) ;;
    write ("  goto :backup_error" +:+ NL) ;;
    write (")" +:+ NL) ;;
    write ("if not exist " +:+ DQ +:+ safe_dest +:+ DQ +:+ " (" +:+ NL) ;;
    write ("  mkdir " +:+ DQ +:+ safe_dest +:+ DQ +:+ NL) ;;
    write ("  if %ERRORLEVEL% NEQ 0 (" +:+ NL) ;;
    write ("    echo ERROR: Could not create destination folder: " +:+ safe_dest +:+ NL) ;;
    write ("    goto :backup_error" +:+ NL) ;;
    write ("  )" +:+ NL) ;;
    write (")" +:+ NL) ;;
    write ("for %%I in (" +:+ DQ +:+ safe_source +:+ DQ +:+ ") do set " +:+ DQ
           +:+ "source_name=%%~nxI" +:+ DQ +:+ NL) ;;
    write ("set " +:+ DQ +:+ "dest_path=" +:+ safe_dest +:+ BSL +:+ "%source_name%" +:+ DQ +:+ NL) ;;
    write ("if not exist " +:+ DQ +:+ "%dest_path%" +:+ DQ +:+ " (" +:+ NL) ;;
    write ("  mkdir " +:+ DQ +:+ "%dest_path%" +:+ DQ +:+ NL) ;;
    write ("  if %ERRORLEVEL% NEQ 0 (" +:+ NL) ;;
    write ("    echo ERROR: Could not create destination folder: %dest_path%" +:+ NL) ;;
    write ("    goto :backup_error" +:+ NL) ;;
    write ("  )" +:+ NL) ;;
    write (")" +:+ NL) ;;
    write ("xcopy " +:+ DQ +:+ safe_source +:+ BSL +:+ "*" +:+ DQ +:+ " " +:+ DQ +:+ "%dest_path%" +:+ DQ
           +:+ " /E /H /C /I /Y" +:+ NL) ;;
    write ("if %ERRORLEVEL% NEQ 0 (" +:+ NL) ;;
    write ("  echo ERROR: Backup operation failed" +:+ NL) ;;
    write ("  goto :backup_error" +:+ NL) ;;
    write (") else (" +:+ NL) ;;
    write ("  echo Successfully backed up " +:+ safe_source +:+ " to %dest_path%" +:+ NL) ;;
    write (")" +:+ NL) ;;
    write ("goto :backup_end" +:+ NL) ;;
    write (":backup_error" +:+ NL) ;;
    write ("echo Backup operation failed" +:+ NL) ;;
    write (":backup_end" +:+ NL)
  else
    write ("echo Unknown task type: " +:+ task_type +:+ NL).

(** The body of the [for i, task in enumerate(tasks, 1)] loop of
    [convert_to_bat]. *)
Definition write_task (i : nat) (task : Task) : W unit :=
  let task_type := task_type task in
  write ("REM Task " +:+ pretty i +:+ ": " +:+ task_type +:+ NL) ;;
  write ("echo Executing Task " +:+ pretty i +:+ ": " +:+ task_type +:+ NL) ;;
  kind_code task ;;
  write ("echo." +:+ NL +:+ NL).

(** The writes of [convert_to_bat] inside its [with] block. *)
Definition write_bat (h : Host) (tasks : list Task) (txt_file_path : string) : W unit :=
  write ("@echo off" +:+ NL) ;;
  write ("echo AutoSpark Application - Task Execution" +:+ NL) ;;
  write ("echo Generated from: " +:+ os_basename h txt_file_path +:+ NL) ;;
  write ("echo Run time: %DATE% %TIME%" +:+ NL) ;;
  write ("echo." +:+ NL +:+ NL) ;;
  for_each (enumerate 1 tasks) (fun '(i, task) => write_task i task) ;;
  write ("echo All tasks completed." +:+ NL) ;;
  write ("pause" +:+ NL).

Definition convert_to_bat (h : Host) (fs : files) (tasks : list Task)
    (txt_file_path : string) : files * result string :=
  let bat_file_path := get_bat_path h txt_file_path in
  let '(fs, r) := with_open_w fs bat_file_path (write_bat h tasks txt_file_path) in
  match r with
  | Ok _ => (fs, Ok bat_file_path)
  | Raise e => (fs, Raise (Exception "Error creating BAT file: " e))
  end.

Definition save_tasks (h : Host) (fs : files) (tasks : list Task)
    (file_path : string) : files * result string :=
  let file_path :=
    if negb (endswith ".txt" (lower file_path)) then file_path +:+ ".txt"
    else file_path in
  let '(fs, r) := with_open_w fs file_path (write_task_list (now h) tasks) in
  match r with
  | Raise e => (fs, Raise (Exception "Error saving tasks to file: " e))
  | Ok _ =>
      let '(fs, r) := convert_to_bat h fs tasks file_path in
      match r with
      | Ok _ => (fs, Ok file_path)
      | Raise e => (fs, Raise (Exception "Error saving tasks to file: " e))
      end
  end.

End FileHandler.

(** ** task_manager.py: the task store

    Python lists and dictionaries are objects with identity: a variable or
    a list cell holds a reference.  The store keeps its list object in
    [self._tasks]; the cells of that list refer to task dictionaries. *)

Module TaskManager.

Definition loc : Type := positive.

Inductive object :=
| PyList (items : list loc)
| PyDict (d : Task).

Record state := mkState {
  heap : gmap loc object;    (* the objects alive *)
  _tasks : loc               (* the attribute [self._tasks] *)
}.

(** A new object, at an address not in use. *)
Definition alloc (o : object) (st : state) : loc * state :=
  let l := fresh (dom (heap st)) in
  (l, mkState (<[l := o]> (heap st)) (_tasks st)).

(** In-place update of the object at [l]. *)
Definition store (l : loc) (o : object) (st : state) : state :=
  mkState (<[l := o]> (heap st)) (_tasks st).

(** The cells of the list object at [l]. *)
Definition items_at (st : state) (l : loc) : list loc :=
  match heap st !! l with
  | Some (PyList xs) => xs
  | _ => []
  end.

(** [xs[i], xs[j] = xs[j], xs[i]]: the right-hand side is read first. *)
Definition swap (xs : list loc) (i j : nat) : list loc :=
  match xs !! j, xs !! i with
  | Some a, Some b => <[j := b]> (<[i := a]> xs)
  | _, _ => xs
  end.

(** [__init__] *)
Definition init : state :=
  let '(l, st) := alloc (PyList []) (mkState ∅ 1%positive) in
  mkState (heap st) l.

Definition add_task (task_type details additional : string) (st : state) : state :=
  let '(d, st) := alloc (PyDict (mkTask task_type details additional)) st in
  store (_tasks st) (PyList (items_at st (_tasks st) ++ [d])) st.

(** [return self._tasks.copy()] *)
Definition get_tasks (st : state) : loc * state :=
  alloc (PyList (items_at st (_tasks st))) st.

(** [self._tasks = tasks.copy()] *)
Definition set_tasks (tasks : loc) (st : state) : state :=
  let '(l, st) := alloc (PyList (items_at st tasks)) st in
  mkState (heap st) l.

Definition delete_task (index : Z) (st : state) : bool * state :=
  let xs := items_at st (_tasks st) in
  if (0 <=? index) && (index <? Z.of_nat (length xs)) then
    (true, store (_tasks st) (PyList (delete (Z.to_nat index) xs)) st)
  else (false, st).

Definition move_task_up (index : Z) (st : state) : bool * state :=
  let xs := items_at st (_tasks st) in
  if (0 <? index) && (index <? Z.of_nat (length xs)) then
    (true, store (_tasks st)
             (PyList (swap xs (Z.to_nat index) (Z.to_nat (index - 1)))) st)
  else (false, st).

Definition move_task_down (index : Z) (st : state) : bool * state :=
  let xs := items_at st (_tasks st) in
  if (0 <=? index) && (index <? Z.of_nat (length xs) - 1) then
    (true, store (_tasks st)
             (PyList (swap xs (Z.to_nat index) (Z.to_nat (index + 1)))) st)
  else (false, st).

(** [self._tasks = []] *)
Definition clear_tasks (st : state) : state :=
  let '(l, st) := alloc (PyList []) st in
  mkState (heap st) l.

Definition has_tasks (st : state) : bool :=
  (0 <? length (items_at st (_tasks st)))%nat.

(** [return self._tasks[index].copy()], or [None] *)
Definition get_task_by_index (index : Z) (st : state) : option loc * state :=
  let xs := items_at st (_tasks st) in
  if (0 <=? index) && (index <? Z.of_nat (length xs)) then
    match xs !! Z.to_nat index with
    | Some d =>
        match heap st !! d with
        | Some (PyDict t) =>
            let '(l, st) := alloc (PyDict t) st in (Some l, st)
        | _ => (None, st)
        end
    | None => (None, st)
    end
  else (None, st).

(** *** What a caller can do with a reference it holds *)

(** Any mutation of the list object at [l] ([append], [del], [sort], item
    assignment, ...) leaves some list of cells [ys] in that same object. *)
Definition caller_mutates_list (l : loc) (ys : list loc) (st : state) : state :=
  match heap st !! l with
  | Some (PyList _) => store l (PyList ys) st
  | _ => st
  end.

(** Any mutation of the dictionary at [d] ([task[key] = value], [update],
    ...) leaves some entries [t] in that same object. *)
Definition caller_mutates_dict (d : loc) (t : Task) (st : state) : state :=
  match heap st !! d with
  | Some (PyDict _) => store d (PyDict t) st
  | _ => st
  end.

(** *** Observing the store *)

Definition task_at (st : state) (d : loc) : option Task :=
  match heap st !! d with
  | Some (PyDict t) => Some t
  | _ => None
  end.

(** The task sequence of the store, by value. *)
Definition tasks_of (st : state) : list Task :=
  omap (task_at st) (items_at st (_tasks st)).

(** The shape every reachable store has: [self._tasks] is a list object and
    each of its cells refers to a dictionary. *)
Definition well_formed (st : state) : Prop :=
  (exists xs, heap st !! _tasks st = Some (PyList xs)) /\
  (forall d, d ∈ items_at st (_tasks st) -> exists t, heap st !! d = Some (PyDict t)).

(** A caller that changes the list [get_tasks] returned does not change
    the task sequence of the store. *)
Definition isolated_from_list_mutation (st : state) : Prop :=
  forall r st1 ys,
    get_tasks st = (r, st1) ->
    tasks_of (caller_mutates_list r ys st1) = tasks_of st.

(** A caller that changes a task dictionary found in the list [get_tasks]
    returned does not change the task sequence of the store. *)
Definition isolated_from_record_mutation (st : state) : Prop :=
  forall r st1 d t,
    get_tasks st = (r, st1) -> d ∈ items_at st1 r ->
    tasks_of (caller_mutates_dict d t st1) = tasks_of st.

(** Two states in which the store is the same: the same list object with
    the same cells, referring to the same dictionaries. *)
Definition same_store (st st' : state) : Prop :=
  _tasks st' = _tasks st
  /\ items_at st' (_tasks st') = items_at st (_tasks st)
  /\ forall d, d ∈ items_at st (_tasks st) -> task_at st' d = task_at st d.

End TaskManager.

(** ** Statements of the text format, for comparison with the code *)

Module TextFormat.
Import FileHandler.

(** The three comment lines and the blank line that open a task-list file. *)
Definition header (now : string) : string :=
  "# AutoSpark Application - Task List" +:+ NL
  +:+ "# Generated on: " +:+ now +:+ NL
  +:+ "# Format: [Task Type] | [Details] | [Additional Info (optional)]" +:+ NL
  +:+ NL.

Definition header_lines (now : string) : list string :=
  [ "# AutoSpark Application - Task List";
    "# Generated on: " +:+ now;
    "# Format: [Task Type] | [Details] | [Additional Info (optional)]";
    EmptyString ].

(** The line of a task as the specification words it: [[kind] primary],
    followed by [ | secondary] when that is not empty. *)
Definition spec_line (t : Task) : string :=
  "[" +:+ task_type t +:+ "] " +:+ details t
  +:+ (if is_empty (additional t) then EmptyString else " | " +:+ additional t).

(** The line of a task as the file has it: a delimiter also follows the
    closing bracket, as the format line of the header announces. *)
Definition task_line (t : Task) : string :=
  "[" +:+ task_type t +:+ "] | " +:+ details t
  +:+ (if is_empty (additional t) then EmptyString else " | " +:+ additional t).

(** The text the specification describes for a task sequence. *)
Definition spec_serialize (now : string) (tasks : list Task) : string :=
  header now +:+ concat_str (map (fun t => spec_line t +:+ NL) tasks).

Definition no_line_break (s : string) : Prop := contains LF s = false.

Definition single_line_task (t : Task) : Prop :=
  no_line_break (task_type t) /\ no_line_break (details t)
  /\ no_line_break (additional t).

(** The shape the specification asks of an accepted line: an opening
    bracket, a first closing bracket, and a delimiter after it. *)
Definition spec_accepts (line : string) : bool :=
  startswith "[" line
  && match cut "]" line with
     | Some (_, r) => contains "|" r
     | None => false
     end.

(** The two fields read from the text [r] that follows the closing bracket. *)
Definition fields_after_bracket (r : string) : string * string :=
  match cut "|" r with
  | None => (strip r, EmptyString)
  | Some (p, x) =>
      (strip p, match cut "|" x with
                | None => strip x
                | Some (q, _) => strip q
                end)
  end.

(** The lines [parse_line] turns into a task, and that task: [k] is the text
    between the brackets, [p] the text up to the first delimiter after
    them, [q] the text between that delimiter and the next one. *)
Inductive accepted : string -> Task -> Prop :=
| accepted_inner_delimiter k r :
    contains "]" k = false -> contains "|" k = true -> contains "|" r = false ->
    accepted ("[" +:+ k +:+ "]" +:+ r)
             (mkTask (strip k) (strip r) EmptyString)
| accepted_one_delimiter k p q :
    contains "]" k = false -> contains "|" p = false -> contains "|" q = false ->
    accepted ("[" +:+ k +:+ "]" +:+ p +:+ "|" +:+ q)
             (mkTask (strip k) (strip p) (strip q))
| accepted_tail_discarded k p q tail :
    contains "]" k = false -> contains "|" p = false -> contains "|" q = false ->
    accepted ("[" +:+ k +:+ "]" +:+ p +:+ "|" +:+ q +:+ "|" +:+ tail)
             (mkTask (strip k) (strip p) (strip q)).

End TextFormat.

(** ** Statements about the compiled script, for comparison with the code *)

Module Script.
Import FileHandler.

(** Lines, each closed by a line break. *)
Definition unlines (ls : list string) : string :=
  concat_str (map (fun l => l +:+ NL) ls).

(** The text [convert_to_bat] writes to the script file, and the part of
    it written for task number [i]. *)
Definition script_of (h : Host) (tasks : list Task) (txt_file_path : string) : string :=
  text_of (write_bat h tasks txt_file_path).

Definition block_of (i : nat) (t : Task) : string := text_of (write_task i t).

Definition blocks_from (start : nat) (tasks : list Task) : list string :=
  map (fun '(i, t) => block_of i t) (enumerate start tasks).

Definition bat_header (h : Host) (txt_file_path : string) : string :=
  "@echo off" +:+ NL
  +:+ "echo AutoSpark Application - Task Execution" +:+ NL
  +:+ "echo Generated from: " +:+ os_basename h txt_file_path +:+ NL
  +:+ "echo Run time: %DATE% %TIME%" +:+ NL
  +:+ "echo." +:+ NL +:+ NL.

Definition bat_footer : string :=
  "echo All tasks completed." +:+ NL +:+ "pause" +:+ NL.

(** The two lines that announce task number [i], and the two that close
    its block. *)
Definition announcement (i : nat) (t : Task) : list string :=
  [ "REM Task " +:+ pretty i +:+ ": " +:+ task_type t;
    "echo Executing Task " +:+ pretty i +:+ ": " +:+ task_type t ].

Definition block_end : list string := [ "echo."; EmptyString ].

Definition known_kinds : list string :=
  [ "open_url"; "open_app"; "open_file"; "close_app"; "run_command"; "delay";
    "shutdown"; "restart"; "sleep"; "screenshot"; "clean_temp";
    "security_scan"; "delete_file"; "empty_folder"; "delete_folder";
    "delete_folder_if_empty"; "backup_folder" ].

Definition recognised (kind : string) : bool :=
  existsb (String.eqb kind) known_kinds.

(** The path of the task-list file [save_tasks] writes: the given path,
    with [.txt] appended unless it ends with it already, in either case
    of the letters. *)
Definition txt_path (file_path : string) : string :=
  if negb (endswith ".txt" (lower file_path)) then file_path +:+ ".txt"
  else file_path.

(** A task that [int] does not stop: any task that is not a delay, and a
    delay whose primary field is an integer literal. *)
Definition delay_ok (t : Task) : bool :=
  negb (String.eqb (task_type t) "delay")
  || match int_literal (details t) with Some _ => true | None => false end.






(** The lines of a [backup_folder] block from [src] to [dst]. *)
Definition source_test (src : string) : string :=
  "if not exist " +:+ DQ +:+ src +:+ DQ +:+ " (".

Definition copy_line (src : string) : string :=
  "xcopy " +:+ DQ +:+ src +:+ BSL +:+ "*" +:+ DQ +:+ " " +:+ DQ +:+ "%dest_path%" +:+ DQ
  +:+ " /E /H /C /I /Y".

Definition backup_lines (src dst : string) : list string :=
  [ "echo Backing up folder: " +:+ src;
    "echo to: " +:+ dst;
    source_test src;
    "  echo ERROR: Source folder not found: " +:+ src;
    "  goto :backup_error";
    ")";
    "if not exist " +:+ DQ +:+ dst +:+ DQ +:+ " (";
    "  mkdir " +:+ DQ +:+ dst +:+ DQ;
    "  if %ERRORLEVEL% NEQ 0 (";
    "    echo ERROR: Could not create destination folder: " +:+ dst;
    "    goto :backup_error";
    "  )";
    ")";
    "for %%I in (" +:+ DQ +:+ src +:+ DQ +:+ ") do set " +:+ DQ +:+ "source_name=%%~nxI" +:+ DQ;
    "set " +:+ DQ +:+ "dest_path=" +:+ dst +:+ BSL +:+ "%source_name%" +:+ DQ;
    "if not exist " +:+ DQ +:+ "%dest_path%" +:+ DQ +:+ " (";
    "  mkdir " +:+ DQ +:+ "%dest_path%" +:+ DQ;
    "  if %ERRORLEVEL% NEQ 0 (";
    "    echo ERROR: Could not create destination folder: %dest_path%";
    "    goto :backup_error";
    "  )";
    ")";
    copy_line src;
    "if %ERRORLEVEL% NEQ 0 (";
    "  echo ERROR: Backup operation failed";
    "  goto :backup_error";
    ") else (";
    "  echo Successfully backed up " +:+ src +:+ " to %dest_path%";
    ")";
    "goto :backup_end";
    ":backup_error";
    "echo Backup operation failed";
    ":backup_end" ].

(** *** Labels and GOTO in a batch script

    The command interpreter reads a script line by line.  A line whose
    first character after leading blanks is a colon is a label.  [goto
    :name] looks for the label from the line that follows the command
    holding the [goto] down to the end of the file and, when it is not
    there, from the top of the file. *)
Definition is_label (name line : string) : bool :=
  startswith (":" +:+ name) (lstrip line).

Fixpoint first_label (name : string) (lines : list string) : option nat :=
  match lines with
  | [] => None
  | l :: ls =>
      if is_label name l then Some 0%nat
      else S <$> first_label name ls
  end.

(** The line [goto :name] jumps to when the search starts at line [from]. *)
Definition goto_target (name : string) (script : list string) (from : nat)
  : option nat :=
  match first_label name (drop from script) with
  | Some k => Some (from + k)%nat
  | None => first_label name (take from script)
  end.

End Script.

(** ** file_handler.py: loading a task list *)

Module Loader.
Import FileHandler.

(** The exception [load_tasks] raises itself, with its message. *)
Inductive load_exn :=
| FileNotFoundError (message : string).

(** What [load_tasks] gives: the tasks, or its exception wrapped by the
    handler of its [try] with the context put before [str(e)]. *)
Inductive load_result :=
| Loaded (tasks : list Task)
| LoadRaise (context : string) (cause : load_exn).

(** [with open(file_path, 'r') as f: content = f.read()] *)
Definition read_text (characters : string) : string :=
  universal_newlines characters.

(** [os.path.exists] is read off the file system of the model, which has
    files only. *)
Definition load_tasks (fs : files) (file_path : string) : load_result :=
  match fs !! file_path with
  | None =>
      LoadRaise "Error loading tasks from file: "
                (FileNotFoundError ("File not found: " +:+ file_path))
  | Some characters => Loaded (parse_text_to_tasks (read_text characters))
  end.

End Loader.

(** ** Further statements, for comparison with the code *)

Module Extra.
Import FileHandler TaskManager.

(** What is left of a task after its line was written and read back. *)
Definition read_back (t : Task) : Task :=
  mkTask (strip (task_type t)) EmptyString (strip (details t)).

(** A line with the three fields in the places where the parser looks
    for them: the primary field follows the closing bracket. *)
Definition three_field_line (t : Task) : string :=
  "[" +:+ task_type t +:+ "] " +:+ details t +:+ " | " +:+ additional t.

(** A field as the parser returns it: trimmed, on one line. *)
Definition trimmed (s : string) : Prop := strip s = s.

(** The shape of a task as the parser returns it. *)
Definition parsed_shape (t : Task) : Prop :=
  (trimmed (task_type t) /\ trimmed (details t) /\ trimmed (additional t))
  /\ TextFormat.single_line_task t
  /\ contains "]" (task_type t) = false
  /\ contains "|" (details t) = false
  /\ contains "|" (additional t) = false.

(** The kinds whose code names a path of the file system. *)
Definition path_kinds : list string :=
  [ "screenshot"; "delete_file"; "empty_folder"; "delete_folder";
    "delete_folder_if_empty"; "backup_folder" ].

(** The path with the separators of the script's host. *)
Definition safe_path (p : string) : string := replace "/" "\" p.

Definition names_path (kind : string) : bool :=
  existsb (String.eqb kind) path_kinds.

(** What the code of a kind reads of the primary field: a path up to its
    separators, a scan type up to the case of its letters, a delay that
    [int] accepts up to the integer it denotes, nothing when the kind
    takes no argument or is not known, and the field itself otherwise. *)
Definition primary_as_read (kind d : string) : string :=
  if names_path kind then safe_path d
  else if String.eqb kind "security_scan" then lower d
  else if String.eqb kind "delay" then
    match int_literal d with Some n => pretty n | None => d end
  else if String.eqb kind "sleep" || String.eqb kind "clean_temp"
          || negb (Script.recognised kind) then EmptyString
  else d.

(** Two tasks that differ only in what the compiler does not read. *)
Definition compiled_alike (t t' : Task) : Prop :=
  task_type t = task_type t'
  /\ primary_as_read (task_type t) (details t)
     = primary_as_read (task_type t) (details t')
  /\ (task_type t = "backup_folder" ->
      safe_path (additional t) = safe_path (additional t')).

(** The separators of the host's paths, and a text without any. *)
Definition is_sep (h : Host) (c : ascii) : bool :=
  Ascii.eqb c (os_sep h)
  || match os_altsep h with Some a => Ascii.eqb c a | None => false end.

Definition no_sep (h : Host) (s : string) : Prop :=
  all_chars (fun c => negb (is_sep h c)) s = true.

(** The host at the time of another call. *)
Definition at_time (h : Host) (time : string) : Host :=
  {| now := time;
     os_sep := os_sep h;
     os_altsep := os_altsep h;
     os_basename := os_basename h |}.

(** A text without line end, whichever way lines are ended. *)
Definition plain (s : string) : Prop :=
  contains LF s = false /\ contains CR s = false.

Definition plain_task (t : Task) : Prop :=
  plain (task_type t) /\ plain (details t) /\ plain (additional t).

(** A list object whose cells refer to task dictionaries, as a caller
    hands it to [set_tasks]. *)
Definition task_list_at (st : state) (l : loc) : Prop :=
  (exists xs, heap st !! l = Some (PyList xs))
  /\ (forall d, d ∈ items_at st l -> exists t, heap st !! d = Some (PyDict t)).

(** The tasks a list object refers to, by value. *)
Definition tasks_at (st : state) (l : loc) : list Task :=
  omap (task_at st) (items_at st l).

End Extra.

(** * Proofs *)

(** ** Facts about strings *)

Section StringFacts.
Implicit Types (s u v : string) (c a : ascii).

Lemma app_empty_l s : EmptyString +:+ s = s.
Proof. reflexivity. Qed.

Lemma app_cons a s u : String a s +:+ u = String a (s +:+ u).
Proof. reflexivity. Qed.

Lemma app_empty_r s : s +:+ EmptyString = s.
Proof. induction s as [|a s IH]; [reflexivity | now rewrite app_cons, IH]. Qed.

Lemma app_assoc_str s u v : (s +:+ u) +:+ v = s +:+ u +:+ v.
Proof. induction s as [|a s IH]; [reflexivity | now rewrite !app_cons, IH]. Qed.

Lemma length_app_str s u :
  String.length (s +:+ u) = (String.length s + String.length u)%nat.
Proof.
  induction s as [|a s IH]; [reflexivity |].
  rewrite app_cons. simpl. now rewrite IH.
Qed.

Lemma contains_app c s u : contains c (s +:+ u) = contains c s || contains c u.
Proof.
  induction s as [|a s IH]; [reflexivity |].
  rewrite app_cons. simpl. rewrite IH. now rewrite orb_assoc.
Qed.

Lemma cut_app c s u :
  contains c s = false -> cut c (s +:+ String c u) = Some (s, u).
Proof.
  induction s as [|a s IH]; intros H.
  - rewrite app_empty_l. simpl. now rewrite Ascii.eqb_refl.
  - rewrite app_cons. simpl in *.
    apply orb_false_iff in H as [Ha Hs]. rewrite Ha, (IH Hs). reflexivity.
Qed.

Lemma cut_none c s : contains c s = false -> cut c s = None.
Proof.
  induction s as [|a s IH]; simpl; intros H; [reflexivity |].
  apply orb_false_iff in H as [Ha Hs]. now rewrite Ha, (IH Hs).
Qed.

Lemma cut_some c s u v :
  cut c s = Some (u, v) -> s = u +:+ String c v /\ contains c u = false.
Proof.
  revert u v. induction s as [|a s IH]; simpl; intros u v H; [discriminate |].
  destruct (Ascii.eqb a c) eqn:E.
  - apply Ascii.eqb_eq in E. injection H as <- <-. now subst.
  - destruct (cut c s) as [[u' v']|]; [|discriminate].
    injection H as <- <-. destruct (IH _ _ eq_refl) as [-> Hu].
    split; [reflexivity |]. simpl. now rewrite E.
Qed.

Lemma contains_cut c s : contains c s = true -> exists u v, cut c s = Some (u, v).
Proof.
  induction s as [|a s IH]; simpl; [discriminate |].
  destruct (Ascii.eqb a c); simpl; [eauto |].
  intros H. destruct (IH H) as (u & v & ->). eauto.
Qed.

Lemma split_cons c s : exists x xs, split c s = x :: xs.
Proof.
  induction s as [|a s (x & xs & IH)]; simpl; [eauto |].
  destruct (Ascii.eqb a c); [eauto |]. rewrite IH. eauto.
Qed.

Lemma split_app c s u :
  split c (s +:+ String c u) = split c s ++ split c u.
Proof.
  induction s as [|a s IH].
  - rewrite app_empty_l. simpl. now rewrite Ascii.eqb_refl.
  - rewrite app_cons. simpl. destruct (Ascii.eqb a c); [now rewrite IH |].
    rewrite IH. destruct (split_cons c s) as (x & xs & ->). reflexivity.
Qed.

Lemma split_single c s : contains c s = false -> split c s = [s].
Proof.
  induction s as [|a s IH]; simpl; [reflexivity |]. intros H.
  apply orb_false_iff in H as [-> Hs]. now rewrite (IH Hs).
Qed.

(** Slices at positions inside the string. *)
Lemma substring_all s : substring 0 (String.length s) s = s.
Proof. induction s as [|a s IH]; simpl; [reflexivity | now rewrite IH]. Qed.

Lemma substring_app_l s u : substring 0 (String.length s) (s +:+ u) = s.
Proof.
  induction s as [|a s IH]; [now destruct u |].
  rewrite app_cons. simpl. now rewrite IH.
Qed.

Lemma substring_app_r s u n :
  substring (String.length s) n (s +:+ u) = substring 0 n u.
Proof.
  induction s as [|a s IH]; [reflexivity |]. rewrite app_cons. simpl. apply IH.
Qed.

Lemma slice_prefix s u :
  slice (s +:+ u) 0 (Z.of_nat (String.length s)) = s.
Proof.
  unfold slice, clamp. rewrite length_app_str.
  replace (Z.of_nat (String.length s) <? 0) with false by (symmetry; apply Z.ltb_ge; lia).
  replace (0 <? 0) with false by reflexivity.
  rewrite !Z.min_l by lia. rewrite Z.sub_0_r, Nat2Z.id. apply substring_app_l.
Qed.

Lemma slice_from_suffix s u :
  slice_from (s +:+ u) (Z.of_nat (String.length s)) = u.
Proof.
  unfold slice_from, slice, clamp. rewrite length_app_str.
  replace (Z.of_nat (String.length s) <? 0) with false by (symmetry; apply Z.ltb_ge; lia).
  replace (Z.of_nat (String.length s + String.length u) <? 0) with false
    by (symmetry; apply Z.ltb_ge; lia).
  rewrite Z.min_l by lia. rewrite Z.min_id.
  rewrite Nat2Z.id.
  replace (Z.to_nat _) with (String.length u) by lia.
  rewrite substring_app_r. apply substring_all.
Qed.

End StringFacts.

Section StripFacts.
Implicit Types (s u v : string) (c a : ascii).

Lemma lstrip_app_nonspace c s u :
  py_isspace c = false -> lstrip (s +:+ String c u) = lstrip s +:+ String c u.
Proof.
  intros Hc. induction s as [|a s IH].
  - rewrite app_empty_l. simpl. now rewrite Hc.
  - rewrite app_cons. simpl. destruct (py_isspace a); [exact IH | reflexivity].
Qed.

Lemma rstrip_cons_nonspace c s :
  py_isspace c = false -> rstrip (String c s) = String c (rstrip s).
Proof. intros Hc. simpl. rewrite Hc. now destruct (rstrip s). Qed.

Lemma rstrip_app_nonspace c s u :
  py_isspace c = false -> rstrip (s +:+ String c u) = s +:+ String c (rstrip u).
Proof.
  intros Hc. induction s as [|a s IH].
  - rewrite !app_empty_l. now apply rstrip_cons_nonspace.
  - rewrite !app_cons. simpl. rewrite IH. now destruct s.
Qed.

Lemma strip_app_nonspace c s u :
  py_isspace c = false ->
  strip (s +:+ String c u) = lstrip s +:+ String c (rstrip u).
Proof.
  intros Hc. unfold strip.
  now rewrite lstrip_app_nonspace, rstrip_app_nonspace.
Qed.

Lemma lstrip_idem s : lstrip (lstrip s) = lstrip s.
Proof.
  induction s as [|a s IH]; [reflexivity |]. simpl.
  destruct (py_isspace a) eqn:E; [exact IH |]. simpl. now rewrite E.
Qed.

Lemma rstrip_idem s : rstrip (rstrip s) = rstrip s.
Proof.
  induction s as [|a s IH]; [reflexivity |]. simpl.
  destruct (rstrip s) as [|b r] eqn:E.
  - destruct (py_isspace a) eqn:Ea; [reflexivity |]. simpl. now rewrite Ea.
  - change (rstrip (String a (String b r)) = String a (String b r)).
    simpl. simpl in IH. destruct (rstrip r).
    + now rewrite IH.
    + now rewrite IH.
Qed.

Lemma lstrip_rstrip s : lstrip (rstrip s) = rstrip (lstrip s).
Proof.
  induction s as [|a s IH]; [reflexivity |].
  destruct (py_isspace a) eqn:Ea.
  - simpl. rewrite Ea. rewrite <- IH.
    destruct (rstrip s) as [|b r]; [reflexivity |]. simpl. now rewrite Ea.
  - rewrite rstrip_cons_nonspace by assumption. simpl. rewrite Ea.
    now rewrite rstrip_cons_nonspace by assumption.
Qed.

Lemma strip_idem s : strip (strip s) = strip s.
Proof.
  unfold strip. now rewrite lstrip_rstrip, lstrip_idem, rstrip_idem.
Qed.

Lemma strip_lstrip s : strip (lstrip s) = strip s.
Proof. unfold strip. now rewrite lstrip_idem. Qed.

Lemma strip_rstrip s : strip (rstrip s) = strip s.
Proof. unfold strip. now rewrite lstrip_rstrip, rstrip_idem. Qed.

Lemma contains_lstrip c s :
  py_isspace c = false -> contains c (lstrip s) = contains c s.
Proof.
  intros Hc. induction s as [|a s IH]; [reflexivity |]. simpl.
  destruct (py_isspace a) eqn:Ea; [|reflexivity].
  rewrite IH. destruct (Ascii.eqb a c) eqn:E; [|reflexivity].
  apply Ascii.eqb_eq in E. congruence.
Qed.

Lemma contains_rstrip c s :
  py_isspace c = false -> contains c (rstrip s) = contains c s.
Proof.
  intros Hc. induction s as [|a s IH]; [reflexivity |]. simpl.
  destruct (rstrip s) as [|b r] eqn:E.
  - rewrite <- IH. simpl. rewrite orb_false_r.
    destruct (py_isspace a) eqn:Ea; simpl; [|now rewrite orb_false_r].
    destruct (Ascii.eqb a c) eqn:Eac; [|reflexivity].
    apply Ascii.eqb_eq in Eac. congruence.
  - rewrite <- IH. reflexivity.
Qed.

Lemma contains_strip c s :
  py_isspace c = false -> contains c (strip s) = contains c s.
Proof.
  intros Hc. unfold strip. now rewrite contains_rstrip, contains_lstrip.
Qed.

End StripFacts.

(** ** The parser *)

Module ParserFacts.
Import FileHandler TextFormat.

Lemma bar_not_space : py_isspace "|" = false.
Proof. reflexivity. Qed.

Lemma startswith_hash (s : string) : startswith "#" (String "[" s) = false.
Proof. reflexivity. Qed.

Lemma startswith_bracket (s : string) : startswith "[" (String "[" s) = true.
Proof. unfold startswith. simpl. now destruct s. Qed.

Lemma slice_between (k r : string) :
  slice (String "[" (k +:+ String "]" r)) 1 (Z.of_nat (S (String.length k))) = k.
Proof.
  unfold slice, clamp. cbn [String.length].
  rewrite length_app_str. cbn [String.length].
  replace (1 <? 0) with false by reflexivity.
  replace (Z.of_nat (S (String.length k)) <? 0) with false
    by (symmetry; apply Z.ltb_ge; lia).
  rewrite !Z.min_l by lia.
  replace (Z.to_nat 1) with 1%nat by reflexivity.
  replace (Z.to_nat (Z.of_nat (S (String.length k)) - 1)) with (String.length k) by lia.
  cbn [substring]. apply substring_app_l.
Qed.

Lemma slice_after (k r : string) :
  slice_from (String "[" (k +:+ String "]" r)) (Z.of_nat (S (String.length k)) + 1) = r.
Proof.
  replace (Z.of_nat (S (String.length k)) + 1)
    with (Z.of_nat (String.length (String "[" (k +:+ "]")))).
  2:{ cbn [String.length]. rewrite length_app_str. cbn [String.length]. lia. }
  replace (String "[" (k +:+ String "]" r)) with (String "[" (k +:+ "]") +:+ r)
    by (rewrite app_cons, app_assoc_str; reflexivity).
  apply slice_from_suffix.
Qed.

Lemma parse_line_brackets (k r : string) :
  contains "]" k = false ->
  parse_line (String "[" (k +:+ String "]" r)) =
    if contains "|" k || contains "|" r
    then Some (mkTask (strip k) (fst (fields_after_bracket r))
                      (snd (fields_after_bracket r)))
    else None.
Proof.
  intros Hk. unfold parse_line.
  assert (Hcut : cut "]" (String "[" (k +:+ String "]" r)) = Some (String "[" k, r)).
  { change (String "[" (k +:+ String "]" r)) with (String "[" k +:+ String "]" r).
    apply cut_app. simpl. exact Hk. }
  assert (Hfind : find "]" (String "[" (k +:+ String "]" r))
                  = Z.of_nat (S (String.length k))).
  { unfold find. rewrite Hcut. reflexivity. }
  cbn [is_empty orb]. rewrite startswith_hash, startswith_bracket.
  replace (contains "]" (String "[" (k +:+ String "]" r))) with true.
  2:{ cbn [contains]. rewrite contains_app. cbn [contains].
      rewrite Ascii.eqb_refl. now rewrite !orb_true_r. }
  replace (contains "|" (String "[" (k +:+ String "]" r)))
    with (contains "|" k || contains "|" r).
  2:{ cbn [contains]. rewrite contains_app. cbn [contains]. reflexivity. }
  cbn [andb].
  destruct (contains "|" k || contains "|" r) eqn:Hbar; [|reflexivity].
  rewrite Hfind, slice_between, slice_after.
  f_equal. unfold fields_after_bracket.
  destruct (cut "|" r) as [[p x]|] eqn:Hr.
  - apply cut_some in Hr as [-> Hp].
    rewrite (strip_app_nonspace "|" p x bar_not_space).
    unfold split1. rewrite cut_app by (now rewrite contains_lstrip).
    cbn [map length nth Nat.ltb Nat.leb andb fst snd].
    rewrite strip_lstrip, strip_rstrip.
    rewrite (contains_strip "|" x bar_not_space).
    destruct (cut "|" x) as [[q tl]|] eqn:Hx.
    + apply cut_some in Hx as [-> Hq].
      rewrite contains_app. cbn [contains]. rewrite Ascii.eqb_refl.
      rewrite orb_true_r. cbn [orb].
      rewrite (strip_app_nonspace "|" q tl bar_not_space).
      rewrite cut_app by (now rewrite contains_lstrip).
      cbn [nth]. now rewrite strip_lstrip.
    + assert (Hxc : contains "|" x = false).
      { destruct (contains "|" x) eqn:E; [|reflexivity].
        apply contains_cut in E as (? & ? & E). congruence. }
      rewrite Hxc. now rewrite strip_idem.
  - assert (Hrc : contains "|" r = false).
    { destruct (contains "|" r) eqn:E; [|reflexivity].
      apply contains_cut in E as (? & ? & E). congruence. }
    unfold split1. rewrite cut_none by (now rewrite contains_strip).
    cbn [map length nth Nat.ltb Nat.leb andb fst snd].
    now rewrite strip_idem.
Qed.

(** A line that opens with a bracket and has a closing one splits at the
    first closing bracket. *)
Lemma bracket_decomposition (line : string) :
  startswith "[" line = true -> contains "]" line = true ->
  exists k r, line = String "[" (k +:+ String "]" r) /\ contains "]" k = false.
Proof.
  intros Hs Hc. destruct line as [|a line]; [discriminate Hc |].
  unfold startswith in Hs. cbn [String.prefix] in Hs.
  destruct (ascii_dec "[" a) as [<-|]; [|discriminate].
  cbn [contains] in Hc. change (Ascii.eqb "[" "]") with false in Hc.
  cbn [orb] in Hc. apply contains_cut in Hc as (k & r & Hc).
  apply cut_some in Hc as [-> Hk]. eauto.
Qed.

Lemma parse_line_accepted (line : string) (t : Task) :
  parse_line line = Some t <-> accepted line t.
Proof.
  split.
  - intros H.
    assert (Hs : startswith "[" line = true /\ contains "]" line = true).
    { unfold parse_line in H.
      destruct (is_empty line || startswith "#" line); [discriminate |].
      destruct (startswith "[" line); [|discriminate].
      destruct (contains "]" line); [|discriminate]. now split. }
    destruct Hs as [Hs Hc].
    destruct (bracket_decomposition line Hs Hc) as (k & r & -> & Hk).
    rewrite (parse_line_brackets k r Hk) in H.
    destruct (contains "|" k || contains "|" r) eqn:Hbar; [|discriminate].
    injection H as <-. unfold fields_after_bracket.
    destruct (cut "|" r) as [[p x]|] eqn:Hr.
    + apply cut_some in Hr as [-> Hp].
      destruct (cut "|" x) as [[q tl]|] eqn:Hx.
      * apply cut_some in Hx as [-> Hq]. cbn [fst snd].
        apply (accepted_tail_discarded k p q tl); assumption.
      * cbn [fst snd]. apply (accepted_one_delimiter k p x); try assumption.
        destruct (contains "|" x) eqn:E; [|reflexivity].
        apply contains_cut in E as (? & ? & E). congruence.
    + assert (Hrc : contains "|" r = false).
      { destruct (contains "|" r) eqn:E; [|reflexivity].
        apply contains_cut in E as (? & ? & E). congruence. }
      rewrite Hrc, orb_false_r in Hbar. cbn [fst snd].
      apply (accepted_inner_delimiter k r); assumption.
  - intros H. destruct H as [k r Hk Hkb Hr | k p q Hk Hp Hq | k p q tl Hk Hp Hq].
    + change ("[" +:+ k +:+ "]" +:+ r) with (String "[" (k +:+ String "]" r)).
      rewrite (parse_line_brackets k r Hk), Hkb. cbn [orb].
      unfold fields_after_bracket. now rewrite (cut_none _ _ Hr).
    + change ("[" +:+ k +:+ "]" +:+ p +:+ "|" +:+ q)
        with (String "[" (k +:+ String "]" (p +:+ String "|" q))).
      rewrite (parse_line_brackets k _ Hk).
      rewrite (contains_app "|" p). cbn [contains]. rewrite Ascii.eqb_refl.
      rewrite !orb_true_r. unfold fields_after_bracket.
      rewrite (cut_app _ _ _ Hp), (cut_none _ _ Hq). reflexivity.
    + change ("[" +:+ k +:+ "]" +:+ p +:+ "|" +:+ q +:+ "|" +:+ tl)
        with (String "[" (k +:+ String "]" (p +:+ String "|" (q +:+ String "|" tl)))).
      rewrite (parse_line_brackets k _ Hk).
      rewrite (contains_app "|" p). cbn [contains]. rewrite Ascii.eqb_refl.
      rewrite !orb_true_r. unfold fields_after_bracket.
      rewrite (cut_app _ _ _ Hp), (cut_app _ _ _ Hq). reflexivity.
Qed.

End ParserFacts.

(** ** Writing code *)

Section WriterFacts.
Context {A B : Type}.

Lemma appends_write (s : string) : appends (write s).
Proof. intros f. reflexivity. Qed.

Lemma appends_ret (a : A) : appends (w_ret a).
Proof. intros f. unfold w_ret, text_of, outcome. simpl. now rewrite app_empty_r. Qed.

Lemma appends_raise (e : exn) : appends (@w_raise A e).
Proof. intros f. unfold w_raise, text_of, outcome. simpl. now rewrite app_empty_r. Qed.

Lemma bind_run (m : W A) (k : A -> W B) :
  appends m -> (forall a, appends (k a)) ->
  forall f, w_bind m k f
            = match outcome m with
              | Ok a => (f +:+ text_of m +:+ text_of (k a), outcome (k a))
              | Raise e => (f +:+ text_of m, Raise e)
              end.
Proof.
  intros Hm Hk f. unfold w_bind. rewrite (Hm f).
  destruct (outcome m) as [a|e]; [|reflexivity].
  rewrite (Hk a). now rewrite app_assoc_str.
Qed.

Lemma text_of_bind (m : W A) (k : A -> W B) :
  appends m -> (forall a, appends (k a)) ->
  text_of (w_bind m k)
  = text_of m +:+ match outcome m with
                  | Ok a => text_of (k a)
                  | Raise _ => EmptyString
                  end.
Proof.
  intros Hm Hk. unfold text_of at 1. rewrite (bind_run m k Hm Hk).
  destruct (outcome m) as [a|e]; simpl; now rewrite ?app_empty_l, ?app_empty_r.
Qed.

Lemma outcome_bind (m : W A) (k : A -> W B) :
  appends m -> (forall a, appends (k a)) ->
  outcome (w_bind m k)
  = match outcome m with
    | Ok a => outcome (k a)
    | Raise e => Raise e
    end.
Proof.
  intros Hm Hk. unfold outcome at 1. rewrite (bind_run m k Hm Hk).
  now destruct (outcome m).
Qed.

Lemma appends_bind (m : W A) (k : A -> W B) :
  appends m -> (forall a, appends (k a)) -> appends (w_bind m k).
Proof.
  intros Hm Hk f.
  rewrite (text_of_bind m k Hm Hk), (outcome_bind m k Hm Hk).
  rewrite (bind_run m k Hm Hk).
  destruct (outcome m); [reflexivity | now rewrite app_empty_r].
Qed.

End WriterFacts.

Lemma appends_for_each {A} (xs : list A) (body : A -> W unit) :
  (forall x, appends (body x)) -> appends (for_each xs body).
Proof.
  intros Hb. induction xs as [|x xs IH]; simpl.
  - apply appends_ret.
  - apply appends_bind; [apply Hb | intros _; exact IH].
Qed.

(** A loop whose body writes [line x] and returns writes the lines in order. *)
Lemma for_each_writes {A} (xs : list A) (body : A -> W unit) (line : A -> string) :
  (forall x f, body x f = (f +:+ line x, Ok tt)) ->
  forall f, for_each xs body f = (f +:+ concat_str (map line xs), Ok tt).
Proof.
  intros Hb. induction xs as [|x xs IH]; intros f; simpl.
  - unfold w_ret. now rewrite app_empty_r.
  - unfold w_bind. rewrite Hb, IH. now rewrite app_assoc_str.
Qed.

(** ** The serializer *)

Module SerializerFacts.
Import FileHandler TextFormat.

Lemma write_entry (task : Task) (f : string) :
  (write ("[" +:+ task_type task +:+ "] | " +:+ details task) ;;
   (if negb (is_empty (additional task))
    then write (" | " +:+ additional task)
    else w_ret tt) ;;
   write NL) f
  = (f +:+ task_line task +:+ NL, Ok tt).
Proof.
  unfold w_bind, write, w_ret, task_line.
  destruct (is_empty (additional task)); simpl;
    now rewrite ?app_assoc_str, ?app_empty_l.
Qed.

Lemma serialize_text (now : string) (tasks : list Task) :
  serialize now tasks
  = header now +:+ concat_str (map (fun t => task_line t +:+ NL) tasks).
Proof.
  unfold serialize, write_task_list.
  unfold w_bind at 1 2 3. unfold write at 1 2 3.
  rewrite (for_each_writes tasks _ (fun t => task_line t +:+ NL) write_entry).
  simpl. unfold header. now rewrite ?app_assoc_str, ?app_empty_l.
Qed.

End SerializerFacts.

(** ** The text format: claims C1, C3 and C4 *)

Module TextFormatTheorems.
Import FileHandler TextFormat ParserFacts SerializerFacts.

Lemma split_line (s u : string) :
  no_line_break s -> split LF (s +:+ NL +:+ u) = s :: split LF u.
Proof.
  intros Hs. change (NL +:+ u) with (String LF u).
  rewrite split_app, (split_single _ _ Hs). reflexivity.
Qed.

Lemma split_lines (ls : list string) :
  Forall no_line_break ls ->
  split LF (concat_str (map (fun l => l +:+ NL) ls)) = ls ++ [EmptyString].
Proof.
  induction 1 as [|l ls Hl _ IH]; [reflexivity |].
  cbn [map concat_str]. rewrite app_assoc_str, (split_line _ _ Hl), IH.
  reflexivity.
Qed.

Lemma task_line_single (t : Task) : single_line_task t -> no_line_break (task_line t).
Proof.
  intros (Hk & Hd & Ha). unfold no_line_break, task_line in *.
  rewrite !contains_app, Hk, Hd.
  destruct (is_empty (additional t)); [reflexivity |].
  rewrite contains_app, Ha. reflexivity.
Qed.

(** C3, as amended: the text written for a task sequence is the header,
    then for each task in order its line [[kind] | primary], continued by
    [ | secondary] when the secondary field is not empty, and a line break;
    when no field holds a line break these are exactly the lines of the
    text, one per task. *)
Theorem serialize_format (now : string) (tasks : list Task) :
  serialize now tasks
    = header now +:+ concat_str (map (fun t => task_line t +:+ NL) tasks)
  /\ (no_line_break now -> Forall single_line_task tasks ->
      split LF (serialize now tasks)
        = header_lines now ++ map task_line tasks ++ [EmptyString]).
Proof.
  split; [apply serialize_text |].
  intros Hnow Htasks. rewrite serialize_text. unfold header, header_lines.
  rewrite !app_assoc_str.
  rewrite split_line by reflexivity.
  rewrite <- (app_assoc_str "# Generated on: " now).
  rewrite split_line.
  2:{ unfold no_line_break. rewrite contains_app, Hnow. reflexivity. }
  rewrite split_line by reflexivity.
  change (NL +:+ ?x) with (EmptyString +:+ NL +:+ x).
  rewrite split_line by reflexivity.
  replace (map (fun t => task_line t +:+ NL) tasks)
    with (map (fun l => l +:+ NL) (map task_line tasks))
    by (now rewrite map_map).
  rewrite split_lines; [reflexivity |].
  apply Forall_map. eapply Forall_impl; [exact Htasks |].
  intros t Ht. now apply task_line_single.
Qed.

Lemma serialize_format_witness :
  split LF (serialize "2024-05-01 10:30:00"
              [mkTask "open_url" "example.com" EmptyString;
               mkTask "backup_folder" "C:/data" "D:/backup"])
  = header_lines "2024-05-01 10:30:00"
      ++ ["[open_url] | example.com"; "[backup_folder] | C:/data | D:/backup"]
      ++ [EmptyString].
Proof.
  apply (proj2 (serialize_format "2024-05-01 10:30:00"
                  [mkTask "open_url" "example.com" EmptyString;
                   mkTask "backup_folder" "C:/data" "D:/backup"])).
  - reflexivity.
  - repeat constructor.
Defined.

(** C3 as the specification words it fails: the line of a task has a
    delimiter between the closing bracket and the primary field. *)
Lemma serialize_not_spec_format :
  serialize "2024-05-01 10:30:00" [mkTask "delay" "3" EmptyString]
  <> spec_serialize "2024-05-01 10:30:00" [mkTask "delay" "3" EmptyString].
Proof. vm_compute. discriminate. Qed.

Lemma parse_loop (ls : list string) (acc : list Task) :
  fold_left
    (fun tasks line =>
       let line := strip line in
       match parse_line line with
       | Some t => tasks ++ [t]
       | None => tasks
       end) ls acc
  = acc ++ omap (fun l => parse_line (strip l)) ls.
Proof.
  revert acc. induction ls as [|l ls IH]; intros acc; simpl.
  - now rewrite app_nil_r.
  - rewrite IH. destruct (parse_line (strip l)); [|reflexivity].
    now rewrite <- app_assoc.
Qed.

(** C4, as amended: the parser reads the text line by line, trims each
    line, and keeps a line exactly when it opens with a bracket, has a
    closing bracket and has a delimiter anywhere, also before the closing
    bracket; blank lines, comment lines and all other lines are dropped.
    The kind is the trimmed text between the opening and the first closing
    bracket, the primary field the trimmed text up to the first delimiter
    after it (all of the remainder when there is none, the secondary field
    being empty then), the secondary field the trimmed text after that
    delimiter up to the next one, whose tail is discarded. *)
Theorem parse_text_to_tasks_spec :
  (forall content,
     parse_text_to_tasks content
     = omap (fun l => parse_line (strip l)) (split LF (strip content)))
  /\ parse_line EmptyString = None
  /\ (forall s, parse_line (String "#" s) = None)
  /\ (forall line t, parse_line line = Some t <-> accepted line t).
Proof.
  split; [|split; [|split]].
  - intros content. unfold parse_text_to_tasks. now rewrite parse_loop.
  - reflexivity.
  - intros s. unfold parse_line. cbn [is_empty orb].
    replace (startswith "#" (String "#" s)) with true; [reflexivity |].
    unfold startswith. cbn [String.prefix]. now destruct s.
  - apply parse_line_accepted.
Qed.

(** C4 as the specification words it fails: a line whose only delimiter
    stands between the brackets is kept, although no delimiter follows
    its closing bracket. *)
Lemma parse_accepts_inner_delimiter :
  parse_text_to_tasks "[a|b] c" = [mkTask "a|b" "c" EmptyString]
  /\ spec_accepts "[a|b] c" = false.
Proof. split; reflexivity. Qed.

Lemma rstrip_app_space (s : string) : rstrip (s +:+ " ") = rstrip s.
Proof.
  induction s as [|a s IH]; [reflexivity |].
  rewrite app_cons. cbn [rstrip]. now rewrite IH.
Qed.

(** The line written for a task is read back with its primary field in
    the place of the secondary one: the parser takes the empty text
    between the closing bracket and the delimiter that follows it as the
    primary field. *)
Lemma written_line_read_back (t : Task) :
  contains "]" (task_type t) = false ->
  contains "|" (details t) = false ->
  parse_line (task_line t)
  = Some (mkTask (strip (task_type t)) EmptyString (strip (details t))).
Proof.
  intros Hk Hd. destruct t as [k d a]. cbn [task_type details additional] in *.
  unfold task_line. cbn [task_type details additional].
  change ("[" +:+ k +:+ "] | " +:+ d +:+ ?x)
    with (String "[" (k +:+ String "]" (" " +:+ String "|" (" " +:+ d +:+ x)))).
  rewrite (parse_line_brackets k _ Hk).
  rewrite (contains_app "|" " "). cbn [contains]. rewrite Ascii.eqb_refl.
  rewrite !orb_true_r. f_equal. unfold fields_after_bracket.
  rewrite cut_app by reflexivity.
  replace (strip " ") with EmptyString by reflexivity.
  destruct (is_empty a) eqn:Ha.
  - rewrite app_empty_r. rewrite cut_none.
    2:{ rewrite contains_app. now rewrite Hd. }
    reflexivity.
  - change (" " +:+ d +:+ " | " +:+ a)
      with (String " " (d +:+ String " " (String "|" (" " +:+ a)))).
    replace (String " " (d +:+ String " " (String "|" (" " +:+ a))))
      with ((" " +:+ d +:+ " ") +:+ String "|" (" " +:+ a))
      by (now rewrite !app_assoc_str).
    rewrite cut_app.
    2:{ rewrite !contains_app. now rewrite Hd. }
    f_equal. f_equal. unfold strip.
    change (lstrip (" " +:+ d +:+ " ")) with (lstrip (d +:+ " ")).
    now rewrite <- lstrip_rstrip, rstrip_app_space, lstrip_rstrip.
Qed.

(** C1 fails on the code: the text written for the single task
    [delay 3] is read back with an empty primary field and with [3] as
    secondary field, and the text written for a backup from [C:/data] to
    [D:/backup] is read back with an empty primary field, with [C:/data]
    as secondary field and without the destination. *)
Theorem round_trip_moves_primary :
  parse_text_to_tasks
    (serialize "2024-05-01 10:30:00" [mkTask "delay" "3" EmptyString])
  = [mkTask "delay" EmptyString "3"]
  /\ parse_text_to_tasks
       (serialize "2024-05-01 10:30:00" [mkTask "backup_folder" "C:/data" "D:/backup"])
     = [mkTask "backup_folder" EmptyString "C:/data"].
Proof. split; reflexivity. Qed.

End TextFormatTheorems.

(** ** The task store: claims C8 and C9 *)

Module TaskManagerTheorems.
Import TaskManager.

Lemma swap_adjacent (xs : list loc) (i : nat) (a b : loc) :
  xs !! i = Some a -> xs !! S i = Some b ->
  swap xs (S i) i = <[i := b]> (<[S i := a]> xs)
  /\ swap xs i (S i) = <[S i := a]> (<[i := b]> xs).
Proof. intros Ha Hb. unfold swap. now rewrite Ha, Hb. Qed.

Lemma swap_length (xs : list loc) (i j : nat) : length (swap xs i j) = length xs.
Proof.
  unfold swap. destruct (xs !! j), (xs !! i); try reflexivity.
  now rewrite !length_insert.
Qed.

(** Swapping two neighbours twice gives the list back. *)
Lemma swap_swap (xs : list loc) (i : nat) :
  (S i < length xs)%nat -> swap (swap xs (S i) i) i (S i) = xs.
Proof.
  intros Hlen.
  destruct (lookup_lt_is_Some_2 xs i) as [a Ha]; [lia |].
  destruct (lookup_lt_is_Some_2 xs (S i)) as [b Hb]; [lia |].
  destruct (swap_adjacent xs i a b Ha Hb) as [-> _].
  set (ys := <[i := b]> (<[S i := a]> xs)).
  assert (Hyi : ys !! i = Some b).
  { unfold ys. apply list_lookup_insert_eq. rewrite length_insert. lia. }
  assert (Hys : ys !! S i = Some a).
  { unfold ys. rewrite list_lookup_insert_ne by lia.
    apply list_lookup_insert_eq. lia. }
  destruct (swap_adjacent ys i b a Hyi Hys) as [_ ->].
  unfold ys. apply list_eq. intros j.
  destruct (decide (j = S i)) as [->|Hj1].
  - rewrite list_lookup_insert_eq by (rewrite !length_insert; lia). now rewrite Hb.
  - rewrite list_lookup_insert_ne by lia.
    destruct (decide (j = i)) as [->|Hj2].
    + rewrite list_lookup_insert_eq by (rewrite !length_insert; lia). now rewrite Ha.
    + rewrite !list_lookup_insert_ne by lia. reflexivity.
Qed.

Lemma items_at_store (st : state) (l : loc) (xs : list loc) :
  items_at (store l (PyList xs) st) l = xs.
Proof. unfold items_at, store. simpl. now rewrite lookup_insert_eq. Qed.

Lemma store_store_back (st : state) (xs ys : list loc) :
  heap st !! _tasks st = Some (PyList xs) ->
  store (_tasks st) (PyList xs) (store (_tasks st) (PyList ys) st) = st.
Proof.
  intros H. destruct st as [h l]. unfold store. simpl in *. f_equal.
  rewrite insert_insert_eq. now apply insert_id.
Qed.

Lemma tasks_of_length (st : state) :
  well_formed st -> length (tasks_of st) = length (items_at st (_tasks st)).
Proof.
  intros [_ Hd]. unfold tasks_of.
  induction (items_at st (_tasks st)) as [|d ds IH]; [reflexivity |].
  simpl. destruct (Hd d) as [t Ht]; [left |].
  unfold task_at at 1. rewrite Ht. simpl. f_equal. apply IH.
  intros d' Hd'. apply Hd. now right.
Qed.

(** C8: in a store of [n] tasks, moving the task at an index [i] with
    [0 < i < n] up and then the task at [i - 1] down both succeed and give
    the store back; moving the first task up and moving the last task down
    fail and leave the store as it is. *)
Theorem move_up_then_down (st : state) :
  well_formed st ->
  let n := Z.of_nat (length (tasks_of st)) in
  (forall i, 0 < i < n ->
     exists st1, move_task_up i st = (true, st1)
                 /\ move_task_down (i - 1) st1 = (true, st))
  /\ move_task_up 0 st = (false, st)
  /\ move_task_down (n - 1) st = (false, st).
Proof.
  intros Hwf n. pose proof (tasks_of_length st Hwf) as Hlen.
  destruct Hwf as [[xs Hxs] _].
  assert (Hitems : items_at st (_tasks st) = xs).
  { unfold items_at. now rewrite Hxs. }
  subst n. rewrite Hlen, Hitems. split; [|split].
  - intros i Hi. eexists. split.
    + unfold move_task_up. rewrite Hitems.
      replace (0 <? i) with true by (symmetry; apply Z.ltb_lt; lia).
      replace (i <? Z.of_nat (length xs)) with true by (symmetry; apply Z.ltb_lt; lia).
      reflexivity.
    + unfold move_task_down.
      change (_tasks (store _ _ st)) with (_tasks st).
      rewrite items_at_store, swap_length.
      replace (0 <=? i - 1) with true by (symmetry; apply Z.leb_le; lia).
      replace (i - 1 <? Z.of_nat (length xs) - 1) with true
        by (symmetry; apply Z.ltb_lt; lia).
      cbn [andb]. f_equal.
      replace (i - 1 + 1) with i by lia.
      replace (Z.to_nat i) with (S (Z.to_nat (i - 1))) by lia.
      rewrite swap_swap by lia.
      now apply store_store_back.
  - unfold move_task_up. reflexivity.
  - unfold move_task_down. rewrite Hitems.
    replace (Z.of_nat (length xs) - 1 <? Z.of_nat (length xs) - 1) with false
      by (symmetry; apply Z.ltb_ge; lia).
    now rewrite andb_false_r.
Qed.

Lemma move_up_then_down_witness :
  let st := add_task "delay" "3" EmptyString
              (add_task "open_url" "example.com" EmptyString init) in
  exists st1, move_task_up 1 st = (true, st1)
              /\ move_task_down (1 - 1) st1 = (true, st).
Proof.
  intros st.
  assert (Hwf : well_formed st).
  { split.
    - eexists. vm_compute. reflexivity.
    - intros d Hd. vm_compute in Hd.
      repeat (apply elem_of_cons in Hd as [->|Hd];
              [eexists; vm_compute; reflexivity |]).
      now apply elem_of_nil in Hd. }
  apply (proj1 (move_up_then_down st Hwf) 1). vm_compute. split; reflexivity.
Defined.

(** *** Stores that read the same *)

Lemma omap_task_at_ext (s1 s2 : state) (ys : list loc) :
  (forall d, d ∈ ys -> task_at s1 d = task_at s2 d) ->
  omap (task_at s1) ys = omap (task_at s2) ys.
Proof.
  induction ys as [|d ds IH]; intros H; [reflexivity |].
  csimpl. rewrite (H d) by left. rewrite IH; [reflexivity |].
  intros d' Hd'. apply H. now right.
Qed.

Lemma tasks_of_same (st st' : state) :
  same_store st st' -> tasks_of st' = tasks_of st.
Proof.
  intros (_ & Hitems & Hd). unfold tasks_of. rewrite Hitems.
  now apply omap_task_at_ext.
Qed.

Lemma same_store_refl (st : state) : same_store st st.
Proof. repeat split. Qed.

(** Replacing the cells of the store's list by cells it already had gives
    the same tasks in both states. *)
Lemma tasks_of_store_same (st st' : state) (ys : list loc) :
  well_formed st -> same_store st st' ->
  (forall d, d ∈ ys -> d ∈ items_at st (_tasks st)) ->
  tasks_of (store (_tasks st') (PyList ys) st')
  = tasks_of (store (_tasks st) (PyList ys) st).
Proof.
  intros [[xs Hxs] Hdict] (Ht & Hitems & Hd) Hsub.
  unfold tasks_of.
  change (_tasks (store (_tasks st') (PyList ys) st')) with (_tasks st').
  change (_tasks (store (_tasks st) (PyList ys) st)) with (_tasks st).
  rewrite !items_at_store.
  apply omap_task_at_ext. intros d Hin.
  assert (Hne : _tasks st <> d).
  { intros <-. destruct (Hdict _ (Hsub _ Hin)) as [t Ht']. congruence. }
  unfold task_at, store. simpl. rewrite Ht.
  rewrite !lookup_insert_ne by exact Hne.
  apply (Hd d). now apply Hsub.
Qed.

Lemma swap_elem_of (xs : list loc) (i j : nat) (d : loc) :
  d ∈ swap xs i j -> d ∈ xs.
Proof.
  unfold swap. destruct (xs !! j) as [a|] eqn:Ha; [|trivial].
  destruct (xs !! i) as [b|] eqn:Hb; [|trivial].
  intros H. apply list_elem_of_lookup_1 in H as [k Hk].
  apply list_lookup_insert_Some in Hk as [(_ & <- & _)|[_ Hk]].
  - eapply list_elem_of_lookup_2; eassumption.
  - apply list_lookup_insert_Some in Hk as [(_ & <- & _)|[_ Hk]].
    + eapply list_elem_of_lookup_2; eassumption.
    + eapply list_elem_of_lookup_2; eassumption.
Qed.

(** The three operations that change the order or the number of tasks
    behave alike in two states with the same store. *)
Lemma delete_task_same (st st' : state) (i : Z) :
  well_formed st -> same_store st st' ->
  fst (delete_task i st') = fst (delete_task i st)
  /\ tasks_of (snd (delete_task i st')) = tasks_of (snd (delete_task i st)).
Proof.
  intros Hwf Hs. pose proof Hs as (Ht & Hitems & Hd).
  unfold delete_task. rewrite Hitems.
  destruct ((0 <=? i) && (i <? Z.of_nat (length (items_at st (_tasks st))))).
  - split; [reflexivity |]. cbn [snd].
    apply tasks_of_store_same; try assumption.
    intros d. apply list_elem_of_delete_inv.
  - split; [reflexivity |]. now apply tasks_of_same.
Qed.

Lemma move_task_up_same (st st' : state) (i : Z) :
  well_formed st -> same_store st st' ->
  fst (move_task_up i st') = fst (move_task_up i st)
  /\ tasks_of (snd (move_task_up i st')) = tasks_of (snd (move_task_up i st)).
Proof.
  intros Hwf Hs. pose proof Hs as (Ht & Hitems & Hd).
  unfold move_task_up. rewrite Hitems.
  destruct ((0 <? i) && (i <? Z.of_nat (length (items_at st (_tasks st))))).
  - split; [reflexivity |]. cbn [snd].
    apply tasks_of_store_same; try assumption.
    intros d. apply swap_elem_of.
  - split; [reflexivity |]. now apply tasks_of_same.
Qed.

Lemma move_task_down_same (st st' : state) (i : Z) :
  well_formed st -> same_store st st' ->
  fst (move_task_down i st') = fst (move_task_down i st)
  /\ tasks_of (snd (move_task_down i st')) = tasks_of (snd (move_task_down i st)).
Proof.
  intros Hwf Hs. pose proof Hs as (Ht & Hitems & Hd).
  unfold move_task_down. rewrite Hitems.
  destruct ((0 <=? i) && (i <? Z.of_nat (length (items_at st (_tasks st))) - 1)).
  - split; [reflexivity |]. cbn [snd].
    apply tasks_of_store_same; try assumption.
    intros d. apply swap_elem_of.
  - split; [reflexivity |]. now apply tasks_of_same.
Qed.

Lemma has_tasks_same (st st' : state) :
  same_store st st' -> has_tasks st' = has_tasks st.
Proof. intros (_ & Hitems & _). unfold has_tasks. now rewrite Hitems. Qed.

(** The address [get_tasks] returns is new. *)
Lemma get_tasks_fresh (st : state) (r : loc) (st1 : state) :
  get_tasks st = (r, st1) ->
  heap st !! r = None
  /\ st1 = mkState (<[r := PyList (items_at st (_tasks st))]> (heap st)) (_tasks st).
Proof.
  unfold get_tasks, alloc. intros H. injection H as <- <-.
  split; [|reflexivity].
  apply not_elem_of_dom. apply is_fresh.
Qed.

(** Whatever the caller does to the returned list, the store is the same. *)
Lemma list_mutation_same_store (st : state) (r : loc) (st1 : state) (ys : list loc) :
  well_formed st -> get_tasks st = (r, st1) ->
  same_store st (caller_mutates_list r ys st1).
Proof.
  intros [[xs Hxs] Hdict] H.
  destruct (get_tasks_fresh st r st1 H) as [Hr ->].
  assert (Hne : r <> _tasks st) by congruence.
  unfold caller_mutates_list. cbn [heap]. rewrite lookup_insert_eq.
  unfold same_store, store, items_at, task_at. cbn [heap _tasks].
  rewrite insert_insert_eq.
  split; [reflexivity |]. split.
  - now rewrite lookup_insert_ne.
  - intros d Hd. rewrite lookup_insert_ne; [reflexivity |].
    intros <-. rewrite Hxs in Hd. destruct (Hdict r) as [t Ht].
    + unfold items_at. now rewrite Hxs.
    + congruence.
Qed.

Lemma list_mutation_isolated (st : state) :
  well_formed st -> isolated_from_list_mutation st.
Proof.
  intros Hwf r st1 ys H. apply tasks_of_same.
  now apply list_mutation_same_store.
Qed.

(** C9, as amended: [get_tasks] returns a new list with the cells of the
    store's list.  Whatever the caller does to that list (adding, removing,
    reordering or replacing cells), the store keeps its task sequence, as
    read directly and as seen by [has_tasks], [delete_task], [move_task_up]
    and [move_task_down] afterwards. *)
Theorem get_tasks_copies_the_list (st : state) (r : loc) (st1 : state) :
  well_formed st -> get_tasks st = (r, st1) ->
  r <> _tasks st
  /\ items_at st1 r = items_at st (_tasks st)
  /\ forall ys,
       let st2 := caller_mutates_list r ys st1 in
       tasks_of st2 = tasks_of st
       /\ has_tasks st2 = has_tasks st
       /\ forall i,
            (fst (delete_task i st2) = fst (delete_task i st)
             /\ tasks_of (snd (delete_task i st2)) = tasks_of (snd (delete_task i st)))
            /\ (fst (move_task_up i st2) = fst (move_task_up i st)
                /\ tasks_of (snd (move_task_up i st2))
                   = tasks_of (snd (move_task_up i st)))
            /\ (fst (move_task_down i st2) = fst (move_task_down i st)
                /\ tasks_of (snd (move_task_down i st2))
                   = tasks_of (snd (move_task_down i st))).
Proof.
  intros Hwf H. split; [|split].
  - destruct (get_tasks_fresh st r st1 H) as [Hr _].
    destruct Hwf as [[xs Hxs] _]. congruence.
  - destruct (get_tasks_fresh st r st1 H) as [_ ->].
    unfold items_at at 1. cbn [heap]. now rewrite lookup_insert_eq.
  - intros ys st2.
    pose proof (list_mutation_same_store st r st1 ys Hwf H) as Hs.
    fold st2 in Hs.
    split; [now apply tasks_of_same |].
    split; [now apply has_tasks_same |].
    intros i. split; [|split].
    + now apply delete_task_same.
    + now apply move_task_up_same.
    + now apply move_task_down_same.
Qed.

Lemma get_tasks_copies_the_list_witness :
  let st := add_task "delay" "3" EmptyString
              (add_task "open_url" "example.com" EmptyString init) in
  tasks_of (caller_mutates_list (fst (get_tasks st)) [] (snd (get_tasks st)))
  = tasks_of st.
Proof.
  intros st.
  assert (Hwf : well_formed st).
  { split.
    - eexists. vm_compute. reflexivity.
    - intros d Hd. vm_compute in Hd.
      repeat (apply elem_of_cons in Hd as [->|Hd];
              [eexists; vm_compute; reflexivity |]).
      now apply elem_of_nil in Hd. }
  assert (Hget : get_tasks st = (fst (get_tasks st), snd (get_tasks st)))
    by (vm_compute; reflexivity).
  apply (proj1 (proj2 (proj2
           (get_tasks_copies_the_list st (fst (get_tasks st)) (snd (get_tasks st))
              Hwf Hget)) [])).
Defined.

(** C9 as the specification words it fails: the dictionaries in the
    returned list are the store's own, so a caller that changes one of them
    changes the task the store holds. *)
Lemma get_tasks_shares_the_records :
  ~ isolated_from_record_mutation (add_task "delay" "3" EmptyString init).
Proof.
  intros H.
  specialize (H _ _ 2%positive (mkTask "delay" "9999" EmptyString) eq_refl).
  assert (Hin : 2%positive ∈ items_at
            (snd (get_tasks (add_task "delay" "3" EmptyString init)))
            (fst (get_tasks (add_task "delay" "3" EmptyString init)))).
  { vm_compute. left. }
  specialize (H Hin). vm_compute in H. discriminate H.
Qed.

End TaskManagerTheorems.

Module StoreInvariant.
Import TaskManager TaskManagerTheorems.

(** The stores the program builds are well formed. *)
Lemma well_formed_init : well_formed init.
Proof.
  split.
  - eexists. vm_compute. reflexivity.
  - intros d Hd. vm_compute in Hd. now apply elem_of_nil in Hd.
Qed.

Lemma well_formed_add_task (ty d a : string) (st : state) :
  well_formed st -> well_formed (add_task ty d a st).
Proof.
  intros [[xs Hxs] Hdict]. unfold add_task, alloc.
  set (l := fresh (dom (heap st))).
  assert (Hl : heap st !! l = None) by (apply not_elem_of_dom, is_fresh).
  assert (Hne : l <> _tasks st) by congruence.
  assert (Hitems : items_at (mkState (<[l := PyDict (mkTask ty d a)]> (heap st)) (_tasks st))
                     (_tasks st) = xs).
  { unfold items_at. cbn [heap _tasks]. now rewrite lookup_insert_ne, Hxs. }
  cbn [_tasks]. rewrite Hitems. unfold well_formed, store. cbn [heap _tasks].
  split.
  - eexists. apply lookup_insert_eq.
  - unfold items_at. cbn [heap _tasks]. rewrite lookup_insert_eq.
    intros x Hx. apply elem_of_app in Hx as [Hx|Hx].
    + destruct (Hdict x) as [t Ht]; [unfold items_at; now rewrite Hxs |].
      exists t. rewrite !lookup_insert_ne by congruence. exact Ht.
    + apply list_elem_of_singleton in Hx as ->.
      eexists. rewrite lookup_insert_ne by congruence. apply lookup_insert_eq.
Qed.

End StoreInvariant.

(** ** The compiler *)

Module CompilerFacts.
Import FileHandler Script.

Lemma appends_int {A} (s : string) (k : Z -> W A) :
  (forall n, appends (k n)) -> appends (int s k).
Proof. intros Hk. unfold int. destruct (int_literal s); [apply Hk | apply appends_raise]. Qed.

(** Code made of writes, sequencing and branches only appends. *)
Ltac solve_appends :=
  repeat lazymatch goal with
    | |- appends (write _) => apply appends_write
    | |- appends (w_ret _) => apply appends_ret
    | |- appends (w_raise _) => apply appends_raise
    | |- appends (w_bind _ _) => apply appends_bind; [|intros ?]
    | |- appends (int _ _) => apply appends_int; intros ?
    | |- appends (if ?c then _ else _) => destruct c
    | |- appends (let _ := _ in _) => cbv zeta
    end.

Lemma appends_url_code (url : string) : appends (_write_url_code url).
Proof. unfold _write_url_code. solve_appends. Qed.

Lemma appends_kind_code (t : Task) : appends (kind_code t).
Proof.
  unfold kind_code. cbv zeta.
  repeat lazymatch goal with
         | |- appends (if ?c then _ else _) => destruct c
         end;
  try apply appends_url_code; solve_appends.
Qed.

Ltac solve_appends_task :=
  intros;
  repeat lazymatch goal with
    | |- appends (kind_code _) => apply appends_kind_code
    | |- appends (write _) => apply appends_write
    | |- appends (w_bind _ _) => apply appends_bind; [|intros ?]
    end.

Lemma appends_write_task (i : nat) (t : Task) : appends (write_task i t).
Proof. unfold write_task. cbv zeta. solve_appends_task. Qed.

Ltac next_kind E :=
  lazymatch goal with
  | |- outcome (if String.eqb ?k ?l then _ else _) = _ =>
      destruct (String.eqb k l) eqn:E;
      [ apply String.eqb_eq in E; subst k |]
  end.

(** The only code that can raise is the conversion of a delay. *)
Lemma outcome_kind_code (t : Task) :
  outcome (kind_code t)
  = if delay_ok t then Ok tt else Raise (ValueError (details t)).
Proof.
  destruct t as [k d a]. unfold kind_code, delay_ok.
  cbn [task_type details additional].
  next_kind E1. { unfold _write_url_code. now destruct (has_scheme d). }
  next_kind E2. { reflexivity. }
  next_kind E3. { reflexivity. }
  next_kind E4. { reflexivity. }
  next_kind E5. { reflexivity. }
  next_kind E6.
  { unfold int. cbn [String.eqb Ascii.eqb Bool.eqb negb orb].
    now destruct (int_literal d). }
  cbn [negb orb].
  repeat (let E := fresh "E" in next_kind E; [reflexivity |]).
  reflexivity.
Qed.

Lemma outcome_write_task (i : nat) (t : Task) :
  outcome (write_task i t)
  = if delay_ok t then Ok tt else Raise (ValueError (details t)).
Proof.
  unfold write_task. cbv zeta.
  rewrite outcome_bind by solve_appends_task.
  cbn [outcome write snd].
  rewrite outcome_bind by solve_appends_task.
  cbn [outcome write snd].
  rewrite outcome_bind by solve_appends_task.
  rewrite outcome_kind_code. now destruct (delay_ok t).
Qed.

(** Running a sequence of writes, and comparing texts up to the way their
    pieces are grouped. *)
Ltac run_writes :=
  unfold text_of, w_bind, write, w_ret; cbn [fst snd].

Ltac same_text :=
  unfold unlines, announcement, block_end; cbn [concat_str map app];
  rewrite ?app_assoc_str, ?app_empty_l, ?app_empty_r;
  reflexivity.

Ltac at_kind t H :=
  let k := fresh "k" in let d := fresh "d" in let a := fresh "a" in
  destruct t as [k d a]; cbn [task_type details additional] in *; subst k;
  unfold kind_code;
  cbn [task_type details additional String.eqb Ascii.eqb Bool.eqb andb].

Lemma block_text (i : nat) (t : Task) :
  delay_ok t = true ->
  block_of i t
  = unlines (announcement i t) +:+ text_of (kind_code t) +:+ unlines block_end.
Proof.
  intros Hok. unfold block_of, write_task. cbv zeta.
  rewrite text_of_bind by solve_appends_task.
  cbn [outcome write snd].
  rewrite text_of_bind by solve_appends_task.
  cbn [outcome write snd].
  rewrite text_of_bind by solve_appends_task.
  rewrite outcome_kind_code, Hok.
  unfold text_of at 1 2 4, write. cbn [fst].
  same_text.
Qed.


Lemma backup_folder_text (t : Task) :
  task_type t = "backup_folder" ->
  text_of (kind_code t)
  = unlines (backup_lines (replace "/" "\" (details t))
                          (replace "/" "\" (additional t))).
Proof.
  intros H. at_kind t H. run_writes.
  unfold backup_lines, source_test, copy_line. same_text.
Qed.


Lemma unknown_kind_text (t : Task) :
  recognised (task_type t) = false ->
  text_of (kind_code t) = unlines [ "echo Unknown task type: " +:+ task_type t ].
Proof.
  intros H. unfold recognised, known_kinds in H. cbn [existsb] in H.
  repeat (apply orb_false_iff in H as [?E H]).
  unfold kind_code. cbv zeta.
  repeat match goal with
         | E : String.eqb _ _ = false |- _ => rewrite E; clear E
         end.
  run_writes. same_text.
Qed.

Lemma write_task_run (i : nat) (t : Task) (f : string) :
  write_task i t f
  = (f +:+ block_of i t,
     if delay_ok t then Ok tt else Raise (ValueError (details t))).
Proof.
  rewrite (appends_write_task i t f). now rewrite outcome_write_task.
Qed.

Lemma delay_not_ok (t : Task) :
  delay_ok t = false ->
  task_type t = "delay" /\ int_literal (details t) = None.
Proof.
  unfold delay_ok. intros H. apply orb_false_iff in H as [H1 H2].
  apply negb_false_iff, String.eqb_eq in H1.
  split; [exact H1 |]. now destruct (int_literal (details t)).
Qed.

(** The loop over the tasks: every block is written when no task stops
    the compiler, and the first task that does stops the loop. *)
Lemma tasks_loop_ok (tasks : list Task) :
  forallb delay_ok tasks = true ->
  forall k f,
    for_each (enumerate k tasks) (fun '(i, t) => write_task i t) f
    = (f +:+ concat_str (blocks_from k tasks), Ok tt).
Proof.
  induction tasks as [|t tasks IH]; intros Hok k f.
  - unfold blocks_from. simpl. unfold w_ret. now rewrite app_empty_r.
  - cbn [forallb] in Hok. apply andb_true_iff in Hok as [Ht Hrest].
    cbn [enumerate for_each]. unfold w_bind at 1.
    rewrite write_task_run, Ht, (IH Hrest).
    unfold blocks_from. cbn [enumerate map concat_str].
    now rewrite app_assoc_str.
Qed.

Lemma tasks_loop_raise (tasks : list Task) :
  forallb delay_ok tasks = false ->
  forall k f,
    exists f' t,
      for_each (enumerate k tasks) (fun '(i, t) => write_task i t) f
      = (f', Raise (ValueError (details t)))
      /\ t ∈ tasks /\ task_type t = "delay" /\ int_literal (details t) = None.
Proof.
  induction tasks as [|t tasks IH]; intros Hbad k f; [discriminate |].
  cbn [forallb] in Hbad. cbn [enumerate for_each]. unfold w_bind at 1.
  rewrite write_task_run.
  destruct (delay_ok t) eqn:Ht.
  - cbn [andb] in Hbad.
    destruct (IH Hbad (S k) (f +:+ block_of k t)) as (f' & t' & E & Hin & Hk & Hd).
    exists f', t'. split; [exact E |]. split; [now right | now split].
  - destruct (delay_not_ok t Ht) as [Hk Hd].
    exists (f +:+ block_of k t), t. split; [reflexivity |].
    split; [left | now split].
Qed.

Lemma write_bat_ok (h : Host) (tasks : list Task) (path : string) :
  forallb delay_ok tasks = true ->
  write_bat h tasks path EmptyString
  = (bat_header h path +:+ concat_str (blocks_from 1 tasks) +:+ bat_footer, Ok tt).
Proof.
  intros Hok. unfold write_bat.
  unfold w_bind at 1 2 3 4 5. unfold write at 1 2 3 4 5.
  unfold w_bind at 1. rewrite (tasks_loop_ok tasks Hok).
  unfold w_bind, write, bat_header, bat_footer.
  now rewrite ?app_assoc_str, ?app_empty_l.
Qed.

Lemma write_bat_raise (h : Host) (tasks : list Task) (path : string) :
  forallb delay_ok tasks = false ->
  exists partial t,
    write_bat h tasks path EmptyString = (partial, Raise (ValueError (details t)))
    /\ t ∈ tasks /\ task_type t = "delay" /\ int_literal (details t) = None.
Proof.
  intros Hbad. unfold write_bat.
  unfold w_bind at 1 2 3 4 5. unfold write at 1 2 3 4 5.
  unfold w_bind at 1.
  edestruct (tasks_loop_raise tasks Hbad 1%nat) as (f' & t & E & Hin & Hk & Hd).
  rewrite E. exists f', t. now repeat split.
Qed.

Lemma blocks_from_length (k : nat) (tasks : list Task) :
  length (blocks_from k tasks) = length tasks.
Proof.
  unfold blocks_from. rewrite length_map. revert k.
  induction tasks as [|t tasks IH]; intros k; [reflexivity |].
  simpl. now rewrite IH.
Qed.

Lemma blocks_from_lookup (k i : nat) (tasks : list Task) (t : Task) :
  tasks !! i = Some t -> blocks_from k tasks !! i = Some (block_of (k + i) t).
Proof.
  revert k i. induction tasks as [|t' tasks IH]; intros k i H; [discriminate |].
  destruct i as [|i].
  - injection H as ->. unfold blocks_from. simpl. now rewrite Nat.add_0_r.
  - simpl in H. unfold blocks_from. cbn [enumerate map]. simpl.
    fold (blocks_from (S k) tasks). rewrite (IH (S k) i H).
    f_equal. f_equal. lia.
Qed.

Lemma text_nonempty (s u : string) : s <> EmptyString -> s +:+ u <> EmptyString.
Proof. destruct s; [congruence | discriminate]. Qed.

(** Every kind writes something. *)
Lemma kind_code_nonempty (t : Task) :
  delay_ok t = true -> text_of (kind_code t) <> EmptyString.
Proof.
  intros Hok. destruct t as [k d a]. unfold kind_code, delay_ok in *.
  cbn [task_type details additional] in *.
  repeat lazymatch goal with
         | |- text_of (if String.eqb ?k ?l then _ else _) <> _ =>
             destruct (String.eqb k l)
         end;
  try (unfold _write_url_code; destruct (has_scheme d));
  try (unfold int; destruct (int_literal d); [|discriminate Hok]);
  try (run_writes; unfold text_of; rewrite ?app_assoc_str, ?app_empty_l; discriminate).
  all: try (run_writes; rewrite app_empty_l; destruct d; discriminate).
Qed.

Lemma all_delays_ok (tasks : list Task) :
  (forall t, t ∈ tasks -> task_type t = "delay" -> int_literal (details t) <> None) ->
  forallb delay_ok tasks = true.
Proof.
  intros H. apply forallb_forall. intros t Hin. apply list_elem_of_In in Hin.
  destruct (delay_ok t) eqn:E; [reflexivity |].
  destruct (delay_not_ok t E) as [Hk Hd]. now destruct (H t Hin Hk).
Qed.

Lemma some_delay_bad (tasks : list Task) (t : Task) :
  t ∈ tasks -> task_type t = "delay" -> int_literal (details t) = None ->
  forallb delay_ok tasks = false.
Proof.
  intros Hin Hk Hd. destruct (forallb delay_ok tasks) eqn:E; [|reflexivity].
  rewrite forallb_forall in E. apply list_elem_of_In in Hin.
  specialize (E t Hin). unfold delay_ok in E. rewrite Hk, Hd in E. discriminate E.
Qed.

Lemma convert_to_bat_ok (h : Host) (fs : files) (tasks : list Task) (path : string) :
  forallb delay_ok tasks = true ->
  convert_to_bat h fs tasks path
  = (<[get_bat_path h path := script_of h tasks path]> fs, Ok (get_bat_path h path)).
Proof.
  intros Hok. unfold convert_to_bat, with_open_w, script_of, text_of.
  now rewrite (write_bat_ok h tasks path Hok).
Qed.

Lemma convert_to_bat_raise (h : Host) (fs : files) (tasks : list Task) (path : string) :
  forallb delay_ok tasks = false ->
  exists partial t,
    convert_to_bat h fs tasks path
    = (<[get_bat_path h path := partial]> fs,
       Raise (Exception "Error creating BAT file: " (ValueError (details t))))
    /\ t ∈ tasks /\ task_type t = "delay" /\ int_literal (details t) = None.
Proof.
  intros Hbad. unfold convert_to_bat, with_open_w.
  destruct (write_bat_raise h tasks path Hbad) as (partial & t & E & Hin & Hk & Hd).
  rewrite E. exists partial, t. now repeat split.
Qed.

End CompilerFacts.

(** ** Compilation as a whole: claim C2 *)

Module CompilerTheorems.
Import FileHandler Script CompilerFacts.

(** C2, as amended: compiling a task sequence in which [int] accepts the
    primary field of every delay succeeds: the script file holds a
    non-empty script made of the header, one block per task in order, and
    the footer, where the block of a task is its announcement, some code,
    and the closing lines, and the code of a task of unrecognised kind is
    the notice of an unknown task type.  Compiling a sequence that holds a
    delay whose primary field [int] refuses, be it no integer literal or
    a literal of more than [int_max_str_digits] digits, raises. *)
Theorem convert_to_bat_total (h : Host) (fs : files) (tasks : list Task) (path : string) :
  let bat := get_bat_path h path in
  let script := script_of h tasks path in
  ((forall t, t ∈ tasks -> task_type t = "delay" -> int_literal (details t) <> None) ->
   convert_to_bat h fs tasks path = (<[bat := script]> fs, Ok bat)
   /\ script <> EmptyString
   /\ script = bat_header h path +:+ concat_str (blocks_from 1 tasks) +:+ bat_footer
   /\ length (blocks_from 1 tasks) = length tasks
   /\ forall i t,
        tasks !! i = Some t ->
        exists code,
          blocks_from 1 tasks !! i
          = Some (unlines (announcement (S i) t) +:+ code +:+ unlines block_end)
          /\ code <> EmptyString
          /\ (recognised (task_type t) = false ->
              code = unlines [ "echo Unknown task type: " +:+ task_type t ]))
  /\ (forall t, t ∈ tasks -> task_type t = "delay" -> int_literal (details t) = None ->
      exists fs' t',
        convert_to_bat h fs tasks path
        = (fs', Raise (Exception "Error creating BAT file: " (ValueError (details t'))))
        /\ t' ∈ tasks /\ task_type t' = "delay" /\ int_literal (details t') = None).
Proof.
  intros bat script. split.
  - intros Hall. pose proof (all_delays_ok tasks Hall) as Hok.
    assert (Hscript : script
              = bat_header h path +:+ concat_str (blocks_from 1 tasks) +:+ bat_footer).
    { unfold script, script_of, text_of. now rewrite (write_bat_ok h tasks path Hok). }
    split; [now apply convert_to_bat_ok |].
    split; [rewrite Hscript; discriminate |].
    split; [exact Hscript |].
    split; [apply blocks_from_length |].
    intros i t Hi. exists (text_of (kind_code t)).
    assert (Ht : delay_ok t = true).
    { rewrite forallb_forall in Hok. apply Hok, list_elem_of_In.
      eapply list_elem_of_lookup_2; eassumption. }
    split; [|split].
    + rewrite (blocks_from_lookup 1 i tasks t Hi). f_equal.
      now apply block_text.
    + now apply kind_code_nonempty.
    + apply unknown_kind_text.
  - intros t Hin Hk Hd.
    destruct (convert_to_bat_raise h fs tasks path (some_delay_bad tasks t Hin Hk Hd))
      as (partial & t' & E & H').
    eauto.
Qed.

Lemma convert_to_bat_total_witness :
  convert_to_bat windows_host ∅
    [ mkTask "sleep" EmptyString EmptyString; mkTask "delay" "5" EmptyString ]
    "tasks.txt"
  = (<["tasks.bat" :=
         script_of windows_host
           [ mkTask "sleep" EmptyString EmptyString; mkTask "delay" "5" EmptyString ]
           "tasks.txt"]> ∅,
     Ok "tasks.bat")
  /\ exists fs' t',
       convert_to_bat windows_host ∅ [ mkTask "delay" "five" EmptyString ] "tasks.txt"
       = (fs', Raise (Exception "Error creating BAT file: " (ValueError (details t'))))
       /\ t' ∈ [ mkTask "delay" "five" EmptyString ]
       /\ task_type t' = "delay" /\ int_literal (details t') = None.
Proof.
  split.
  - apply (proj1 (convert_to_bat_total windows_host ∅
                    [ mkTask "sleep" EmptyString EmptyString;
                      mkTask "delay" "5" EmptyString ] "tasks.txt")).
    intros t Hin Hk.
    repeat (apply elem_of_cons in Hin as [->|Hin]; [vm_compute; discriminate |]).
    now apply elem_of_nil in Hin.
  - apply (proj2 (convert_to_bat_total windows_host ∅
                    [ mkTask "delay" "five" EmptyString ] "tasks.txt")
                 (mkTask "delay" "five" EmptyString)).
    + left.
    + reflexivity.
    + reflexivity.
Defined.

(** C2 as the specification words it fails: a delay whose primary field
    is a numeral of 4301 digits has a numeric integer string as primary
    field, and compiling it raises. *)
Lemma convert_to_bat_refuses_long_numeral :
  all_chars is_digit (repeat_str "5" 4301) = true
  /\ snd (convert_to_bat windows_host ∅
            [ mkTask "delay" (repeat_str "5" 4301) EmptyString ] "tasks.txt")
     = Raise (Exception "Error creating BAT file: "
                (ValueError (repeat_str "5" 4301))).
Proof. split; vm_compute; reflexivity. Qed.

End CompilerTheorems.

(** ** The blocks of single kinds: claims C6 and C7 *)

Module BlockTheorems.
Import FileHandler Script TextFormat CompilerFacts TextFormatTheorems.

Lemma unlines_app (l1 l2 : list string) : unlines (l1 ++ l2) = unlines l1 +:+ unlines l2.
Proof.
  unfold unlines. induction l1 as [|l l1 IH]; [reflexivity |].
  cbn [app map concat_str]. now rewrite IH, !app_assoc_str.
Qed.




Lemma delay_three_text :
  text_of (kind_code (mkTask "delay" "3" EmptyString))
  = unlines [ "echo Waiting for 3 seconds..."; "timeout /t 3 /nobreak >nul" ].
Proof. vm_compute. reflexivity. Qed.



End BlockTheorems.

(** ** The backup block in the script: claim C5 *)

Module BackupTheorems.
Import FileHandler Script TextFormat CompilerFacts TextFormatTheorems BlockTheorems.

Lemma contains_replace_other (c a b : ascii) (s : string) :
  c <> a -> c <> b -> contains c (replace a b s) = contains c s.
Proof.
  intros Ha Hb. unfold replace. induction s as [|x s IH]; [reflexivity |].
  cbn [map_chars contains]. rewrite IH. f_equal.
  destruct (Ascii.eqb x a) eqn:E; [|reflexivity].
  apply Ascii.eqb_eq in E. subst x.
  transitivity false; [|symmetry]; apply Ascii.eqb_neq; congruence.
Qed.

(** Decimal numerals have no line break. *)
Lemma pretty_N_go_line (x : N) (s : string) :
  contains LF (pretty_N_go x s) = contains LF s.
Proof.
  revert s. induction (N.lt_wf_0 x) as [x _ IH]; intros s.
  destruct (decide (x = 0)%N) as [->|Hx]; [now rewrite pretty_N_go_0 |].
  rewrite pretty_N_go_step by lia.
  rewrite IH by (apply N.div_lt; lia).
  cbn [contains]. unfold pretty_N_char.
  repeat case_match; reflexivity.
Qed.

Lemma pretty_nat_line (n : nat) : contains LF (pretty n) = false.
Proof.
  unfold pretty, pretty_nat, pretty, pretty_N.
  case_decide; [reflexivity |]. now rewrite pretty_N_go_line.
Qed.

Lemma concat_str_app (l1 l2 : list string) :
  concat_str (l1 ++ l2) = concat_str l1 +:+ concat_str l2.
Proof.
  induction l1 as [|l l1 IH]; [reflexivity |].
  cbn [app concat_str]. now rewrite IH, app_assoc_str.
Qed.

Lemma enumerate_app {A} (k : nat) (l1 l2 : list A) :
  enumerate k (l1 ++ l2) = enumerate k l1 ++ enumerate (k + length l1) l2.
Proof.
  revert k. induction l1 as [|x l1 IH]; intros k.
  - cbn. now rewrite Nat.add_0_r.
  - cbn [app enumerate length]. rewrite IH. do 3 f_equal. lia.
Qed.

Lemma blocks_from_app (k : nat) (l1 l2 : list Task) :
  blocks_from k (l1 ++ l2) = blocks_from k l1 ++ blocks_from (k + length l1) l2.
Proof. unfold blocks_from. now rewrite enumerate_app, map_app. Qed.

(** The lines of a text that holds whole lines in its middle. *)
Lemma split_unlines (ls : list string) (rest : string) :
  Forall no_line_break ls ->
  split LF (unlines ls +:+ rest) = ls ++ split LF rest.
Proof.
  unfold unlines. induction 1 as [|l ls Hl _ IH]; [reflexivity |].
  cbn [map concat_str app]. rewrite !app_assoc_str.
  rewrite (split_line _ _ Hl). now rewrite IH.
Qed.

Lemma split_around (above : string) (ls : list string) (below : string) :
  Forall no_line_break ls ->
  split LF ((above +:+ NL) +:+ unlines ls +:+ below)
  = split LF above ++ ls ++ split LF below.
Proof.
  intros Hls. rewrite app_assoc_str. change (NL +:+ ?x) with (String LF x).
  rewrite split_app. now rewrite split_unlines.
Qed.

(** Every block ends a line, and so does the header. *)
Lemma block_ends_line (i : nat) (t : Task) :
  delay_ok t = true -> exists s, block_of i t = s +:+ NL.
Proof.
  intros Hok. rewrite (block_text i t Hok).
  exists (unlines (announcement i t) +:+ text_of (kind_code t) +:+ "echo." +:+ NL).
  unfold unlines, block_end. cbn [map concat_str].
  now rewrite ?app_assoc_str, ?app_empty_l, ?app_empty_r.
Qed.

Lemma blocks_end_line (k : nat) (tasks : list Task) (head : string) :
  forallb delay_ok tasks = true ->
  exists s, (head +:+ NL) +:+ concat_str (blocks_from k tasks) = s +:+ NL.
Proof.
  revert k head. induction tasks as [|t tasks IH]; intros k head Hok.
  - exists head. unfold blocks_from. cbn. now rewrite app_empty_r.
  - cbn [forallb] in Hok. apply andb_true_iff in Hok as [Ht Hrest].
    unfold blocks_from. cbn [enumerate map concat_str].
    fold (blocks_from (S k) tasks).
    destruct (block_ends_line k t Ht) as [b Hb]. rewrite Hb.
    destruct (IH (S k) ((head +:+ NL) +:+ b) Hrest) as [s Hs].
    exists s. rewrite <- Hs. now rewrite !app_assoc_str.
Qed.

(** *** GOTO inside a block *)

Lemma first_label_app (name : string) (l1 l2 : list string) (k : nat) :
  first_label name l1 = Some k -> first_label name (l1 ++ l2) = Some k.
Proof.
  revert k. induction l1 as [|l l1 IH]; intros k H; [discriminate |].
  cbn [app first_label] in *. destruct (is_label name l); [exact H |].
  destruct (first_label name l1) as [j|]; [|discriminate].
  now rewrite (IH j eq_refl).
Qed.

Lemma goto_in_block (name : string) (above block below : list string)
    (from k : nat) :
  (from <= length block)%nat ->
  first_label name (drop from block) = Some k ->
  goto_target name (above ++ block ++ below) (length above + from)
  = Some (length above + from + k)%nat.
Proof.
  intros Hfrom Hk. unfold goto_target.
  rewrite drop_app_add, drop_app_le by exact Hfrom.
  now rewrite (first_label_app _ _ _ _ Hk).
Qed.

Lemma backup_error_label (i : nat) (t : Task) (src dst : string) (from : nat) :
  (4 < from <= 32)%nat ->
  first_label "backup_error"
    (drop from (announcement i t ++ backup_lines src dst ++ block_end))
  = Some (32 - from)%nat.
Proof.
  intros H.
  do 33 (destruct from as [|from]; [first [lia | reflexivity] |]).
  lia.
Qed.

Lemma backup_lines_single (i : nat) (t : Task) (src dst : string) :
  task_type t = "backup_folder" ->
  no_line_break src -> no_line_break dst ->
  Forall no_line_break (announcement i t ++ backup_lines src dst ++ block_end).
Proof.
  intros Hk Hs Hd. unfold announcement, backup_lines, block_end, source_test, copy_line.
  rewrite Hk. cbn [app].
  repeat constructor;
    unfold no_line_break in *;
    rewrite ?contains_app, ?Hs, ?Hd, ?pretty_nat_line; reflexivity.
Qed.

Lemma backup_end_label (i : nat) (t : Task) (src dst : string) (from : nat) :
  (31 < from <= 34)%nat ->
  first_label "backup_end"
    (drop from (announcement i t ++ backup_lines src dst ++ block_end))
  = Some (34 - from)%nat.
Proof.
  intros H.
  do 35 (destruct from as [|from]; [first [lia | reflexivity] |]).
  lia.
Qed.

(** C5, as amended: the block of a [backup_folder] task is its
    announcement, the lines of [backup_lines] and the closing lines: the
    test of the source folder and the test after the creation of the
    destination folder, each with its [goto :backup_error], come before
    the copy line, and the error label and its failure message come after
    it.  In the script compiled for a task sequence, when the two fields
    of the task hold no line break and the compiler does not stop at a
    delay, these are lines of the script, and a [goto :backup_error]
    whose search starts at any line of the block after the source test
    and up to the error label ends at the error label of this same block,
    whatever tasks come before and after, other backups included; the
    [goto :backup_end] of the block ends at its own end label likewise. *)
Theorem backup_folder_block :
  (forall i t,
     task_type t = "backup_folder" ->
     let src := replace "/" "\" (details t) in
     let dst := replace "/" "\" (additional t) in
     let block := announcement i t ++ backup_lines src dst ++ block_end in
     block_of i t = unlines block
     /\ block !! 4%nat = Some (source_test src)
     /\ block !! 6%nat = Some "  goto :backup_error"
     /\ block !! 9%nat = Some ("  mkdir " +:+ DQ +:+ dst +:+ DQ)
     /\ block !! 10%nat = Some "  if %ERRORLEVEL% NEQ 0 ("
     /\ block !! 12%nat = Some "    goto :backup_error"
     /\ block !! 24%nat = Some (copy_line src)
     /\ block !! 31%nat = Some "goto :backup_end"
     /\ block !! 32%nat = Some ":backup_error"
     /\ block !! 33%nat = Some "echo Backup operation failed"
     /\ block !! 34%nat = Some ":backup_end")
  /\ (forall h path earlier t later,
        task_type t = "backup_folder" ->
        no_line_break (details t) -> no_line_break (additional t) ->
        (forall t', t' ∈ earlier ++ t :: later ->
                    task_type t' = "delay" -> int_literal (details t') <> None) ->
        let src := replace "/" "\" (details t) in
        let dst := replace "/" "\" (additional t) in
        let block := announcement (S (length earlier)) t
                     ++ backup_lines src dst ++ block_end in
        exists above below,
          split LF (script_of h (earlier ++ t :: later) path) = above ++ block ++ below
          /\ (forall from,
                (4 < from <= 32)%nat ->
                goto_target "backup_error" (above ++ block ++ below) (length above + from)
                = Some (length above + 32)%nat)
          /\ (forall from,
                (31 < from <= 34)%nat ->
                goto_target "backup_end" (above ++ block ++ below) (length above + from)
                = Some (length above + 34)%nat)).
Proof.
  split.
  - intros i t Hk src dst block. split; [|repeat split].
    rewrite block_text by (unfold delay_ok; now rewrite Hk).
    rewrite (backup_folder_text t Hk). unfold block. now rewrite !unlines_app.
  - intros h path earlier t later Hk Hsrc Hdst Hall src dst block.
    pose proof (all_delays_ok _ Hall) as Hok.
    assert (Hok' := Hok). rewrite forallb_app in Hok'. cbn [forallb] in Hok'.
    apply andb_true_iff in Hok' as [Hearlier Hrest].
    apply andb_true_iff in Hrest as [Ht Hlater].
    assert (Hs : no_line_break src).
    { unfold no_line_break, src. now rewrite contains_replace_other by discriminate. }
    assert (Hd : no_line_break dst).
    { unfold no_line_break, dst. now rewrite contains_replace_other by discriminate. }
    assert (Hblock : block_of (S (length earlier)) t = unlines block).
    { rewrite (block_text _ t Ht), (backup_folder_text t Hk).
      unfold block. now rewrite !unlines_app. }
    assert (Hlen : length block = 37%nat) by reflexivity.
    destruct (blocks_end_line 1 earlier
                ("@echo off" +:+ NL
                 +:+ "echo AutoSpark Application - Task Execution" +:+ NL
                 +:+ "echo Generated from: " +:+ os_basename h path +:+ NL
                 +:+ "echo Run time: %DATE% %TIME%" +:+ NL
                 +:+ "echo." +:+ NL) Hearlier) as [top Htop].
    exists (split LF top),
           (split LF (concat_str (blocks_from (S (S (length earlier))) later)
                      +:+ bat_footer)).
    split; [|split].
    + unfold script_of, text_of. rewrite (write_bat_ok h _ path Hok). cbn [fst].
      rewrite blocks_from_app. cbn [Nat.add].
      unfold blocks_from at 2. cbn [enumerate map].
      fold (blocks_from (S (S (length earlier))) later).
      rewrite concat_str_app. cbn [concat_str]. rewrite Hblock.
      rewrite <- (split_around top block _ (backup_lines_single _ t src dst Hk Hs Hd)).
      rewrite <- Htop. f_equal. unfold bat_header.
      now rewrite !app_assoc_str.
    + intros from Hfrom.
      rewrite (goto_in_block "backup_error" _ block _ from (32 - from)).
      * f_equal. lia.
      * lia.
      * now apply backup_error_label.
    + intros from Hfrom.
      rewrite (goto_in_block "backup_end" _ block _ from (34 - from)).
      * f_equal. lia.
      * lia.
      * now apply backup_end_label.
Qed.

Lemma backup_folder_block_witness :
  let earlier := [ mkTask "backup_folder" "C:/a" "D:/b" ] in
  let t := mkTask "backup_folder" "C:/photos" "E:/safe" in
  let later := [ mkTask "delay" "3" EmptyString ] in
  let block := announcement 2 t ++ backup_lines "C:\photos" "E:\safe" ++ block_end in
  block_of 2 t = unlines block
  /\ exists above below,
       split LF (script_of windows_host (earlier ++ t :: later) "tasks.txt")
       = above ++ block ++ below
       /\ (forall from,
             (4 < from <= 32)%nat ->
             goto_target "backup_error" (above ++ block ++ below) (length above + from)
             = Some (length above + 32)%nat)
       /\ (forall from,
             (31 < from <= 34)%nat ->
             goto_target "backup_end" (above ++ block ++ below) (length above + from)
             = Some (length above + 34)%nat).
Proof.
  split.
  - apply (proj1 (proj1 backup_folder_block 2%nat
                    (mkTask "backup_folder" "C:/photos" "E:/safe") eq_refl)).
  - apply (proj2 backup_folder_block windows_host "tasks.txt"
             [ mkTask "backup_folder" "C:/a" "D:/b" ]
             (mkTask "backup_folder" "C:/photos" "E:/safe")
             [ mkTask "delay" "3" EmptyString ]).
    + reflexivity.
    + reflexivity.
    + reflexivity.
    + intros t' Hin Hk.
      repeat (apply elem_of_cons in Hin as [->|Hin]; [vm_compute; discriminate |]).
      now apply elem_of_nil in Hin.
Defined.

(** Two backups in one script: the search from the second block finds the
    second error label, the search from the first block the first. *)
Example two_backups :
  let script := split LF (script_of windows_host
                  [ mkTask "backup_folder" "C:/a" "D:/b";
                    mkTask "backup_folder" "C:/photos" "E:/safe" ] "tasks.txt") in
  script !! 12%nat = Some "  goto :backup_error"
  /\ goto_target "backup_error" script 13 = Some 38%nat
  /\ script !! 49%nat = Some "  goto :backup_error"
  /\ goto_target "backup_error" script 50 = Some 75%nat.
Proof. vm_compute. repeat split. Qed.

(** C5 as the specification words it fails: when the destination holds a
    line break followed by the name of the error label, the search of
    the first [goto :backup_error] of the block ends on a line written
    for the destination test, which is not the error label of the block
    and stands before the copy line, so the lines down to the copy line
    come next. *)
Lemma backup_goto_misled :
  let t := mkTask "backup_folder" "C:/data"
             ("D" +:+ NL +:+ ":backup_error " +:+ NL +:+ "x") in
  let script := split LF (script_of windows_host [ t ] "tasks.txt") in
  script !! 14%nat = Some "  goto :backup_error"
  /\ goto_target "backup_error" script 15 = Some 17%nat
  /\ script !! 17%nat = Some ":backup_error "
  /\ script !! 40%nat = Some (copy_line "C:\data")
  /\ script !! 48%nat = Some ":backup_error".
Proof. vm_compute. repeat split. Qed.

End BackupTheorems.

(** ** Saving: claim C10 *)

Module SaveTheorems.
Import FileHandler Script TextFormat CompilerFacts SerializerFacts.

Lemma write_task_list_run (now : string) (tasks : list Task) :
  write_task_list now tasks EmptyString = (serialize now tasks, Ok tt).
Proof.
  unfold serialize.
  assert (E : snd (write_task_list now tasks EmptyString) = Ok tt).
  { unfold write_task_list. unfold w_bind at 1 2 3. unfold write at 1 2 3.
    now rewrite (for_each_writes tasks _ (fun t => task_line t +:+ NL) write_entry). }
  destruct (write_task_list now tasks EmptyString) as [text r].
  cbn [fst snd] in *. now subst r.
Qed.

Lemma map_chars_app (f : ascii -> ascii) (s u : string) :
  map_chars f (s +:+ u) = map_chars f s +:+ map_chars f u.
Proof.
  induction s as [|a s IH]; [reflexivity |].
  rewrite app_cons. cbn [map_chars]. now rewrite IH.
Qed.

Lemma endswith_app (p s u : string) :
  String.length u = String.length p -> endswith p (s +:+ u) = String.eqb u p.
Proof.
  intros Hlen. unfold endswith. rewrite length_app_str, Hlen.
  replace (String.length p <=? String.length s + String.length p)%nat with true
    by (symmetry; apply Nat.leb_le; lia).
  replace (String.length s + String.length p - String.length p)%nat
    with (String.length s) by lia.
  rewrite substring_app_r, <- Hlen, substring_all. reflexivity.
Qed.

Lemma txt_path_ends (file_path : string) :
  endswith ".txt" (lower (txt_path file_path)) = true.
Proof.
  unfold txt_path. destruct (endswith ".txt" (lower file_path)) eqn:E; cbn [negb].
  - exact E.
  - unfold lower. rewrite map_chars_app. now rewrite endswith_app.
Qed.

Lemma bat_path_differs (h : Host) (p : string) :
  endswith ".txt" (lower p) = true -> get_bat_path h p <> p.
Proof.
  intros Hp Heq. unfold get_bat_path in Heq.
  destruct (splitext h p) as [base ext]. rewrite <- Heq in Hp.
  unfold lower in Hp. rewrite map_chars_app in Hp.
  rewrite endswith_app in Hp by reflexivity. discriminate Hp.
Qed.

Lemma substring_split (s : string) (n : nat) :
  (n <= String.length s)%nat ->
  substring 0 n s +:+ substring n (String.length s - n) s = s.
Proof.
  revert n. induction s as [|a s IH]; intros n Hn.
  - destruct n; [reflexivity | simpl in Hn; lia].
  - destruct n as [|n].
    + cbn [substring String.length Nat.sub]. rewrite app_empty_l.
      now rewrite substring_all.
    + cbn [String.length] in *. cbn [substring Nat.sub].
      rewrite app_cons. f_equal. apply IH. lia.
Qed.

Lemma clamp_range (len i : Z) : 0 <= len -> 0 <= clamp len i <= len.
Proof. unfold clamp. destruct (i <? 0) eqn:E; lia. Qed.

(** [p[:d] + p[d:] == p] *)
Lemma slice_join (p : string) (d : Z) : slice p 0 d +:+ slice_from p d = p.
Proof.
  unfold slice_from, slice.
  set (len := Z.of_nat (String.length p)).
  pose proof (clamp_range len d ltac:(lia)) as Hd.
  replace (clamp len 0) with 0 by (unfold clamp; cbn; lia).
  replace (clamp len len) with len by (unfold clamp; destruct (len <? 0) eqn:E; lia).
  rewrite Z.sub_0_r. change (Z.to_nat 0) with 0%nat.
  replace (Z.to_nat (len - clamp len d))
    with (String.length p - Z.to_nat (clamp len d))%nat by lia.
  apply substring_split. lia.
Qed.

(** The two parts [os.path.splitext] gives make up the path. *)
Lemma splitext_join (h : Host) (p : string) :
  fst (splitext h p) +:+ snd (splitext h p) = p.
Proof.
  unfold splitext.
  match goal with |- context [if ?c then _ else _] => destruct c end;
    cbn [fst snd]; [apply slice_join | apply app_empty_r].
Qed.

(** C10: saving writes the task list to the given path, with [.txt]
    appended unless the path ends with it already in either case of the
    letters, and then compiles the same tasks into the script file, whose
    path is that of the task-list file with its extension replaced by
    [.bat] and is never the path of the task-list file.  When every delay
    has an integer literal as primary field both files are written and the
    path of the task-list file is returned.  When some delay has not,
    saving raises the compiler's error, wrapped; the task-list file has
    been written all the same and holds the whole task list. *)
Theorem save_tasks_also_compiles (h : Host) (fs : files) (tasks : list Task)
    (file_path : string) :
  let txt := txt_path file_path in
  let bat := get_bat_path h txt in
  let text := serialize (now h) tasks in
  bat = fst (splitext h txt) +:+ ".bat"
  /\ fst (splitext h txt) +:+ snd (splitext h txt) = txt
  /\ bat <> txt
  /\ ((forall t, t ∈ tasks -> task_type t = "delay" -> int_literal (details t) <> None) ->
      save_tasks h fs tasks file_path
      = (<[bat := script_of h tasks txt]> (<[txt := text]> fs), Ok txt))
  /\ (forall t, t ∈ tasks -> task_type t = "delay" -> int_literal (details t) = None ->
      exists partial t',
        save_tasks h fs tasks file_path
        = (<[bat := partial]> (<[txt := text]> fs),
           Raise (Exception "Error saving tasks to file: "
                    (Exception "Error creating BAT file: " (ValueError (details t')))))
        /\ t' ∈ tasks /\ task_type t' = "delay" /\ int_literal (details t') = None
        /\ fst (save_tasks h fs tasks file_path) !! txt = Some text).
Proof.
  intros txt bat text.
  assert (Hne : bat <> txt) by (apply bat_path_differs, txt_path_ends).
  assert (Hsave : save_tasks h fs tasks file_path
                  = let '(fs', r) := convert_to_bat h (<[txt := text]> fs) tasks txt in
                    match r with
                    | Ok _ => (fs', Ok txt)
                    | Raise e => (fs', Raise (Exception "Error saving tasks to file: " e))
                    end).
  { unfold save_tasks, with_open_w. fold (txt_path file_path). fold txt.
    rewrite write_task_list_run. reflexivity. }
  split; [|split; [|split; [|split]]].
  - unfold bat, get_bat_path. now destruct (splitext h txt).
  - apply splitext_join.
  - exact Hne.
  - intros Hall. rewrite Hsave.
    now rewrite (convert_to_bat_ok h _ tasks txt (all_delays_ok tasks Hall)).
  - intros t Hin Hk Hd. rewrite Hsave.
    destruct (convert_to_bat_raise h (<[txt := text]> fs) tasks txt
                (some_delay_bad tasks t Hin Hk Hd))
      as (partial & t' & E & Hin' & Hk' & Hd').
    rewrite E. exists partial, t'. cbn [fst].
    repeat (split; [assumption || reflexivity |]).
    fold bat. rewrite lookup_insert_ne by exact Hne.
    apply lookup_insert_eq.
Qed.

Lemma save_tasks_also_compiles_witness :
  (exists partial t',
     save_tasks windows_host ∅ [ mkTask "delay" "soon" EmptyString ] "C:\jobs\Morning"
     = (<["C:\jobs\Morning.bat" := partial]>
          (<["C:\jobs\Morning.txt" :=
               serialize (now windows_host) [ mkTask "delay" "soon" EmptyString ]]> ∅),
        Raise (Exception "Error saving tasks to file: "
                 (Exception "Error creating BAT file: " (ValueError (details t')))))
     /\ t' ∈ [ mkTask "delay" "soon" EmptyString ]
     /\ task_type t' = "delay" /\ int_literal (details t') = None
     /\ fst (save_tasks windows_host ∅ [ mkTask "delay" "soon" EmptyString ]
               "C:\jobs\Morning") !! "C:\jobs\Morning.txt"
        = Some (serialize (now windows_host) [ mkTask "delay" "soon" EmptyString ]))
  /\ save_tasks windows_host ∅ [ mkTask "delay" "3" EmptyString ] "plan.TXT"
     = (<["plan.bat" := script_of windows_host [ mkTask "delay" "3" EmptyString ] "plan.TXT"]>
          (<["plan.TXT" := serialize (now windows_host) [ mkTask "delay" "3" EmptyString ]]> ∅),
        Ok "plan.TXT").
Proof.
  split.
  - apply (proj2 (proj2 (proj2 (proj2
             (save_tasks_also_compiles windows_host ∅
                [ mkTask "delay" "soon" EmptyString ] "C:\jobs\Morning"))))
             (mkTask "delay" "soon" EmptyString)).
    + left.
    + reflexivity.
    + reflexivity.
  - apply (proj1 (proj2 (proj2 (proj2
             (save_tasks_also_compiles windows_host ∅
                [ mkTask "delay" "3" EmptyString ] "plan.TXT"))))).
    intros t Hin Hk.
    apply elem_of_cons in Hin as [->|Hin]; [vm_compute; discriminate |].
    now apply elem_of_nil in Hin.
Defined.

End SaveTheorems.

(** * Further properties of the code *)

(** ** The task store: every operation *)

Module StoreFacts.
Import TaskManager TaskManagerTheorems StoreInvariant Extra.

Lemma task_at_store_other (st : state) (l d : loc) (o : object) :
  l <> d -> task_at (store l o st) d = task_at st d.
Proof. intros H. unfold task_at, store. cbn [heap]. now rewrite lookup_insert_ne. Qed.

Lemma fresh_unused (st : state) : heap st !! fresh (dom (heap st)) = None.
Proof. apply not_elem_of_dom, is_fresh. Qed.

(** A new object leaves the objects already there as they are. *)
Lemma alloc_keeps (o : object) (st : state) (d : loc) :
  is_Some (heap st !! d) ->
  heap (snd (alloc o st)) !! d = heap st !! d.
Proof.
  intros [x Hx]. unfold alloc. cbn [snd heap].
  rewrite lookup_insert_ne; [reflexivity |].
  intros E. rewrite <- E, fresh_unused in Hx. discriminate.
Qed.

Lemma alloc_new (o : object) (st : state) :
  heap (snd (alloc o st)) !! fst (alloc o st) = Some o
  /\ heap st !! fst (alloc o st) = None
  /\ _tasks (snd (alloc o st)) = _tasks st.
Proof.
  unfold alloc. cbn [fst snd heap _tasks].
  split; [apply lookup_insert_eq | split; [apply fresh_unused | reflexivity]].
Qed.

(** The cells of a well-formed store and the tasks they refer to. *)
Lemma well_formed_cells (st : state) :
  well_formed st ->
  Forall2 (fun d t => task_at st d = Some t) (items_at st (_tasks st)) (tasks_of st).
Proof.
  intros [_ Hd]. unfold tasks_of.
  induction (items_at st (_tasks st)) as [|d ds IH]; [constructor |].
  destruct (Hd d) as [t Ht]; [left |].
  assert (E : task_at st d = Some t) by (unfold task_at; now rewrite Ht).
  csimpl. rewrite E. constructor; [exact E |].
  apply IH. intros d' Hd'. apply Hd. now right.
Qed.

Lemma cells_tasks (st : state) (ds : list loc) (ts : list Task) :
  Forall2 (fun d t => task_at st d = Some t) ds ts -> omap (task_at st) ds = ts.
Proof.
  induction 1 as [|d t ds ts E _ IH]; [reflexivity |].
  csimpl. rewrite E. now rewrite IH.
Qed.

Lemma cell_not_list (st : state) (d : loc) :
  well_formed st -> d ∈ items_at st (_tasks st) -> _tasks st <> d.
Proof.
  intros [[xs Hxs] Hd] Hin <-. destruct (Hd _ Hin) as [t Ht]. congruence.
Qed.

Lemma cells_ext (s1 s2 : state) (ds : list loc) (ts : list Task) :
  (forall d, d ∈ ds -> task_at s2 d = task_at s1 d) ->
  Forall2 (fun d t => task_at s1 d = Some t) ds ts ->
  Forall2 (fun d t => task_at s2 d = Some t) ds ts.
Proof.
  intros Hext H. induction H as [|d t ds ts E _ IH]; [constructor |].
  constructor.
  - rewrite Hext by left. exact E.
  - apply IH. intros d' Hd'. apply Hext. now right.
Qed.

(** Storing cells of the store back into its list keeps it well formed
    and gives the tasks of these cells. *)
Lemma store_cells (st : state) (ds : list loc) (ts : list Task) :
  well_formed st ->
  (forall d, d ∈ ds -> d ∈ items_at st (_tasks st)) ->
  Forall2 (fun d t => task_at st d = Some t) ds ts ->
  well_formed (store (_tasks st) (PyList ds) st)
  /\ tasks_of (store (_tasks st) (PyList ds) st) = ts.
Proof.
  intros Hwf Hsub Hcells. split.
  - split.
    + eexists. unfold store. cbn [heap _tasks]. apply lookup_insert_eq.
    + change (_tasks (store (_tasks st) (PyList ds) st)) with (_tasks st).
      rewrite items_at_store. intros d Hd.
      destruct Hwf as [Hl Hdict]. destruct (Hdict d (Hsub d Hd)) as [t Ht].
      exists t. unfold store. cbn [heap].
      rewrite lookup_insert_ne; [exact Ht |].
      apply cell_not_list; [now split | now apply Hsub].
  - unfold tasks_of.
    change (_tasks (store (_tasks st) (PyList ds) st)) with (_tasks st).
    rewrite items_at_store. apply cells_tasks.
    apply (cells_ext st); [|exact Hcells].
    intros d Hd. apply task_at_store_other.
    apply cell_not_list; [exact Hwf | now apply Hsub].
Qed.

Lemma items_length (st : state) :
  well_formed st -> length (items_at st (_tasks st)) = length (tasks_of st).
Proof. intros H. symmetry. now apply tasks_of_length. Qed.

(** X1: [add_task] puts the new task at the end and keeps the others. *)
Theorem add_task_appends (ty d a : string) (st : state) :
  well_formed st ->
  well_formed (add_task ty d a st)
  /\ tasks_of (add_task ty d a st) = tasks_of st ++ [mkTask ty d a].
Proof.
  intros Hwf. split; [now apply well_formed_add_task |].
  pose proof (well_formed_cells st Hwf) as Hcells.
  destruct Hwf as [[xs Hxs] Hdict].
  assert (Hitems : items_at st (_tasks st) = xs) by (unfold items_at; now rewrite Hxs).
  rewrite Hitems in Hcells.
  unfold add_task, alloc.
  set (l := fresh (dom (heap st))).
  assert (Hl : heap st !! l = None) by apply fresh_unused.
  assert (Hne : l <> _tasks st) by congruence.
  set (st' := mkState (<[l := PyDict (mkTask ty d a)]> (heap st)) (_tasks st)).
  assert (Hitems' : items_at st' (_tasks st') = xs).
  { unfold items_at, st'. cbn [heap _tasks]. now rewrite lookup_insert_ne, Hxs. }
  rewrite Hitems'. unfold tasks_of.
  change (_tasks (store (_tasks st') (PyList (xs ++ [l])) st')) with (_tasks st').
  rewrite items_at_store. apply cells_tasks.
  apply Forall2_app.
  - apply (cells_ext st); [|exact Hcells].
    intros x Hx. unfold task_at, store, st'. cbn [heap _tasks].
    destruct (Hdict x) as [t Ht]; [now rewrite Hitems |].
    rewrite !lookup_insert_ne by congruence. reflexivity.
  - constructor; [|constructor].
    unfold task_at, store, st'. cbn [heap _tasks].
    rewrite lookup_insert_ne by congruence. now rewrite lookup_insert_eq.
Qed.

Lemma add_task_appends_witness :
  tasks_of (add_task "delay" "3" EmptyString
              (add_task "open_url" "example.com" EmptyString init))
  = tasks_of (add_task "open_url" "example.com" EmptyString init)
    ++ [mkTask "delay" "3" EmptyString].
Proof.
  apply (proj2 (add_task_appends "delay" "3" EmptyString
                  (add_task "open_url" "example.com" EmptyString init)
                  (well_formed_add_task _ _ _ _ well_formed_init))).
Defined.

(** X2: [delete_task] at an index of the list removes the task at that index
    and keeps the others in order; at any other index, negative ones
    included, it returns [False] and changes nothing. *)
Theorem delete_task_removes (st : state) (i : Z) :
  well_formed st ->
  let n := Z.of_nat (length (tasks_of st)) in
  (0 <= i < n ->
   fst (delete_task i st) = true
   /\ well_formed (snd (delete_task i st))
   /\ tasks_of (snd (delete_task i st)) = delete (Z.to_nat i) (tasks_of st))
  /\ (i < 0 \/ n <= i -> delete_task i st = (false, st)).
Proof.
  intros Hwf n. pose proof (items_length st Hwf) as Hlen.
  pose proof (well_formed_cells st Hwf) as Hcells.
  unfold delete_task. rewrite Hlen. fold n. split.
  - intros Hi.
    replace (0 <=? i) with true by (symmetry; apply Z.leb_le; lia).
    replace (i <? n) with true by (symmetry; apply Z.ltb_lt; lia).
    cbn [andb fst snd]. split; [reflexivity |].
    apply store_cells; [exact Hwf | |].
    + intros d. apply list_elem_of_delete_inv.
    + now apply Forall2_delete.
  - intros Hi.
    replace ((0 <=? i) && (i <? n)) with false; [reflexivity |].
    symmetry. apply andb_false_iff.
    destruct Hi; [left; apply Z.leb_gt | right; apply Z.ltb_ge]; lia.
Qed.

Lemma example_store_well_formed :
  well_formed (add_task "delay" "3" EmptyString
                 (add_task "open_url" "example.com" EmptyString init)).
Proof. apply well_formed_add_task, well_formed_add_task, well_formed_init. Qed.

Lemma delete_task_removes_witness :
  let st := add_task "delay" "3" EmptyString
              (add_task "open_url" "example.com" EmptyString init) in
  (fst (delete_task 0 st) = true
   /\ well_formed (snd (delete_task 0 st))
   /\ tasks_of (snd (delete_task 0 st)) = delete (Z.to_nat 0) (tasks_of st))
  /\ delete_task (-1) st = (false, st).
Proof.
  intros st. split.
  - apply (proj1 (delete_task_removes st 0 example_store_well_formed)).
    vm_compute. split; [discriminate | reflexivity].
  - apply (proj2 (delete_task_removes st (-1) example_store_well_formed)).
    left. reflexivity.
Defined.

Lemma store_cells_wf (st : state) (ds : list loc) :
  well_formed st ->
  (forall d, d ∈ ds -> d ∈ items_at st (_tasks st)) ->
  well_formed (store (_tasks st) (PyList ds) st).
Proof.
  intros Hwf Hsub. split.
  - eexists. unfold store. cbn [heap _tasks]. apply lookup_insert_eq.
  - change (_tasks (store (_tasks st) (PyList ds) st)) with (_tasks st).
    rewrite items_at_store. intros d Hd.
    destruct Hwf as [Hl Hdict]. destruct (Hdict d (Hsub d Hd)) as [t Ht].
    exists t. unfold store. cbn [heap].
    rewrite lookup_insert_ne; [exact Ht |].
    apply cell_not_list; [now split | now apply Hsub].
Qed.

(** A new object next to a well-formed store leaves it well formed, with
    the same tasks. *)
Lemma alloc_well_formed (o : object) (st : state) :
  well_formed st ->
  well_formed (snd (alloc o st)) /\ tasks_of (snd (alloc o st)) = tasks_of st.
Proof.
  intros [[xs Hxs] Hdict].
  assert (Hkeep := alloc_keeps o st).
  assert (Hitems : items_at (snd (alloc o st)) (_tasks st) = items_at st (_tasks st)).
  { unfold items_at. now rewrite Hkeep by (rewrite Hxs; eauto). }
  split.
  - split.
    + exists xs. change (_tasks (snd (alloc o st))) with (_tasks st).
      now rewrite Hkeep by (rewrite Hxs; eauto).
    + change (_tasks (snd (alloc o st))) with (_tasks st). rewrite Hitems.
      intros d Hd. destruct (Hdict d Hd) as [t Ht]. exists t.
      now rewrite Hkeep by (rewrite Ht; eauto).
  - unfold tasks_of. change (_tasks (snd (alloc o st))) with (_tasks st).
    rewrite Hitems. apply omap_task_at_ext. intros d Hd. unfold task_at.
    destruct (Hdict d Hd) as [t Ht]. now rewrite Hkeep by (rewrite Ht; eauto).
Qed.

Lemma clear_tasks_well_formed (st : state) : well_formed (clear_tasks st).
Proof.
  split.
  - eexists. unfold clear_tasks, alloc. cbn [heap _tasks]. apply lookup_insert_eq.
  - unfold clear_tasks, items_at, alloc. cbn [heap _tasks].
    rewrite lookup_insert_eq. intros d Hd. now apply elem_of_nil in Hd.
Qed.

Lemma set_tasks_well_formed (st : state) (l : loc) :
  task_list_at st l -> well_formed (set_tasks l st).
Proof.
  intros [[xs Hxs] Hdict].
  assert (Hitems : items_at st l = xs) by (unfold items_at; now rewrite Hxs).
  rewrite Hitems in Hdict.
  unfold set_tasks, alloc. rewrite Hitems. split; cbn [heap _tasks].
  - exists xs. apply lookup_insert_eq.
  - unfold items_at. cbn [heap _tasks]. rewrite lookup_insert_eq.
    intros d Hd. destruct (Hdict d Hd) as [t Ht]. exists t.
    rewrite lookup_insert_ne; [exact Ht |].
    intros E. rewrite <- E, fresh_unused in Ht. discriminate.
Qed.

Lemma move_task_up_well_formed (st : state) (i : Z) :
  well_formed st -> well_formed (snd (move_task_up i st)).
Proof.
  intros Hwf. unfold move_task_up.
  destruct ((0 <? i) && (i <? Z.of_nat (length (items_at st (_tasks st)))));
    [|exact Hwf].
  cbn [snd]. apply store_cells_wf; [exact Hwf |]. intros d. apply swap_elem_of.
Qed.

Lemma move_task_down_well_formed (st : state) (i : Z) :
  well_formed st -> well_formed (snd (move_task_down i st)).
Proof.
  intros Hwf. unfold move_task_down.
  destruct ((0 <=? i) && (i <? Z.of_nat (length (items_at st (_tasks st))) - 1));
    [|exact Hwf].
  cbn [snd]. apply store_cells_wf; [exact Hwf |]. intros d. apply swap_elem_of.
Qed.

Lemma swap_comm (xs : list loc) (i j : nat) :
  i <> j -> swap xs i j = swap xs j i.
Proof.
  intros Hij. unfold swap.
  destruct (xs !! j) as [a|], (xs !! i) as [b|]; try reflexivity.
  now apply list_insert_insert_ne.
Qed.

(** X3: Moving a task down is moving the next one up. *)
Theorem move_task_down_is_up (st : state) (i : Z) :
  move_task_down i st = move_task_up (i + 1) st.
Proof.
  unfold move_task_down, move_task_up.
  set (n := Z.of_nat (length (items_at st (_tasks st)))).
  destruct (Z_lt_dec i 0) as [Hneg|Hpos].
  - replace (0 <=? i) with false by (symmetry; apply Z.leb_gt; lia).
    replace (0 <? i + 1) with false by (symmetry; apply Z.ltb_ge; lia).
    reflexivity.
  - replace (0 <=? i) with true by (symmetry; apply Z.leb_le; lia).
    replace (0 <? i + 1) with true by (symmetry; apply Z.ltb_lt; lia).
    replace (i + 1 <? n) with (i <? n - 1).
    2:{ destruct (Z.ltb_spec i (n - 1)), (Z.ltb_spec (i + 1) n); lia || reflexivity. }
    cbn [andb]. destruct (i <? n - 1); [|reflexivity].
    replace (i + 1 - 1) with i by lia.
    rewrite (swap_comm _ (Z.to_nat i) (Z.to_nat (i + 1))) by lia.
    reflexivity.
Qed.

(** X4: [move_task_up] exchanges the task at the index and the one before
    it, and keeps all the others where they are. *)
Theorem move_task_up_swaps (st : state) (i : Z) (a b : Task) :
  well_formed st ->
  0 < i ->
  tasks_of st !! Z.to_nat (i - 1) = Some a ->
  tasks_of st !! Z.to_nat i = Some b ->
  fst (move_task_up i st) = true
  /\ well_formed (snd (move_task_up i st))
  /\ tasks_of (snd (move_task_up i st))
     = <[Z.to_nat (i - 1) := b]> (<[Z.to_nat i := a]> (tasks_of st)).
Proof.
  intros Hwf Hi Ha Hb.
  pose proof (items_length st Hwf) as Hlen.
  pose proof (well_formed_cells st Hwf) as Hcells.
  assert (Hin : (Z.to_nat i < length (tasks_of st))%nat)
    by (eapply lookup_lt_Some; eassumption).
  destruct (Forall2_lookup_r _ _ _ _ _ Hcells Ha) as (da & Hda & Ea).
  destruct (Forall2_lookup_r _ _ _ _ _ Hcells Hb) as (db & Hdb & Eb).
  unfold move_task_up. rewrite Hlen.
  replace (0 <? i) with true by (symmetry; apply Z.ltb_lt; lia).
  replace (i <? Z.of_nat (length (tasks_of st))) with true
    by (symmetry; apply Z.ltb_lt; lia).
  cbn [andb fst snd]. split; [reflexivity |].
  unfold swap. rewrite Hda, Hdb.
  apply store_cells; [exact Hwf | |].
  - intros d Hd. apply list_elem_of_lookup_1 in Hd as [k Hk].
    apply list_lookup_insert_Some in Hk as [(_ & <- & _)|[_ Hk]].
    + eapply list_elem_of_lookup_2; eassumption.
    + apply list_lookup_insert_Some in Hk as [(_ & <- & _)|[_ Hk]];
        eapply list_elem_of_lookup_2; eassumption.
  - apply Forall2_insert; [|exact Eb].
    apply Forall2_insert; [exact Hcells | exact Ea].
Qed.

Lemma move_task_up_swaps_witness :
  let st := add_task "delay" "3" EmptyString
              (add_task "open_url" "example.com" EmptyString init) in
  fst (move_task_up 1 st) = true
  /\ well_formed (snd (move_task_up 1 st))
  /\ tasks_of (snd (move_task_up 1 st))
     = <[Z.to_nat (1 - 1) := mkTask "delay" "3" EmptyString]>
         (<[Z.to_nat 1 := mkTask "open_url" "example.com" EmptyString]> (tasks_of st)).
Proof.
  intros st.
  apply (move_task_up_swaps st 1 _ _ example_store_well_formed).
  - reflexivity.
  - vm_compute. reflexivity.
  - vm_compute. reflexivity.
Defined.

(** X5: [clear_tasks] leaves an empty store, and does not touch the list
    object the store had: a caller that holds it keeps its cells. *)
Theorem clear_tasks_empties (st : state) :
  well_formed st ->
  well_formed (clear_tasks st)
  /\ tasks_of (clear_tasks st) = []
  /\ has_tasks (clear_tasks st) = false
  /\ _tasks (clear_tasks st) <> _tasks st
  /\ tasks_at (clear_tasks st) (_tasks st) = tasks_of st.
Proof.
  intros Hwf. destruct (alloc_new (PyList []) st) as (Hnew & Hold & Ht).
  pose proof Hwf as [[xs Hxs] Hdict].
  assert (Hitems : items_at (clear_tasks st) (_tasks (clear_tasks st)) = []).
  { unfold clear_tasks, items_at, alloc. cbn [heap _tasks].
    now rewrite lookup_insert_eq. }
  assert (Hne : _tasks (clear_tasks st) <> _tasks st).
  { unfold clear_tasks, alloc. cbn [_tasks]. intros E.
    pose proof (fresh_unused st) as Hf. rewrite E in Hf. congruence. }
  split; [|split; [|split; [|split]]].
  - apply clear_tasks_well_formed.
  - unfold tasks_of. now rewrite Hitems.
  - unfold has_tasks. now rewrite Hitems.
  - exact Hne.
  - unfold tasks_at, tasks_of.
    assert (Hkeep : forall d, is_Some (heap st !! d) ->
                              heap (clear_tasks st) !! d = heap st !! d).
    { intros d Hd. unfold clear_tasks. exact (alloc_keeps (PyList []) st d Hd). }
    assert (E : items_at (clear_tasks st) (_tasks st) = items_at st (_tasks st)).
    { unfold items_at. now rewrite Hkeep by (rewrite Hxs; eauto). }
    rewrite E. apply omap_task_at_ext. intros d Hd.
    unfold task_at. rewrite Hkeep; [reflexivity |].
    destruct (Hdict d Hd) as [t Ht']. rewrite Ht'. eauto.
Qed.

Lemma clear_tasks_empties_witness :
  let st := add_task "delay" "3" EmptyString
              (add_task "open_url" "example.com" EmptyString init) in
  tasks_of (clear_tasks st) = [] /\ tasks_at (clear_tasks st) (_tasks st) = tasks_of st.
Proof.
  intros st.
  pose proof (clear_tasks_empties st example_store_well_formed) as H.
  split; [apply H | apply H].
Defined.

(** X6: [has_tasks] says whether the store holds a task. *)
Theorem has_tasks_iff (st : state) :
  well_formed st -> (has_tasks st = true <-> tasks_of st <> []).
Proof.
  intros Hwf. unfold has_tasks. pose proof (items_length st Hwf) as Hlen.
  rewrite Hlen. destruct (tasks_of st); cbn; split; intros H;
    congruence || reflexivity || discriminate.
Qed.

Lemma has_tasks_iff_witness :
  has_tasks (add_task "sleep" EmptyString EmptyString init) = true
  <-> tasks_of (add_task "sleep" EmptyString EmptyString init) <> [].
Proof.
  apply (has_tasks_iff (add_task "sleep" EmptyString EmptyString init)).
  apply well_formed_add_task, well_formed_init.
Defined.

(** X7: [set_tasks] takes the tasks of the list it is given into a list of
    its own: what the caller does to the given list afterwards does not
    reach the store. *)
Theorem set_tasks_copies (st : state) (l : loc) :
  task_list_at st l ->
  let st' := set_tasks l st in
  well_formed st'
  /\ tasks_of st' = tasks_at st l
  /\ _tasks st' <> l
  /\ forall ys, tasks_of (caller_mutates_list l ys st') = tasks_of st'.
Proof.
  intros [[xs Hxs] Hdict] st'.
  assert (Hitems : items_at st l = xs) by (unfold items_at; now rewrite Hxs).
  rewrite Hitems in Hdict.
  set (n := fresh (dom (heap st))).
  assert (Hn : heap st !! n = None) by apply fresh_unused.
  assert (Hnl : n <> l) by congruence.
  assert (Est : st' = mkState (<[n := PyList xs]> (heap st)) n).
  { unfold st', set_tasks, alloc. now rewrite Hitems. }
  assert (Hcell : forall d, d ∈ xs -> d <> n /\ d <> l).
  { intros d Hd. destruct (Hdict d Hd) as [t Ht]. split; congruence. }
  assert (Hitems' : items_at st' (_tasks st') = xs).
  { rewrite Est. unfold items_at. cbn [heap _tasks]. now rewrite lookup_insert_eq. }
  assert (Htasks : tasks_of st' = tasks_at st l).
  { unfold tasks_of, tasks_at. rewrite Hitems', Hitems.
    apply omap_task_at_ext. intros d Hd. rewrite Est. unfold task_at. cbn [heap].
    rewrite lookup_insert_ne; [reflexivity |].
    apply not_eq_sym, Hcell, Hd. }
  split; [|split; [|split]].
  - apply set_tasks_well_formed. split; [eauto | now rewrite Hitems].
  - exact Htasks.
  - rewrite Est. cbn [_tasks]. exact Hnl.
  - intros ys. unfold caller_mutates_list.
    assert (Hl' : heap st' !! l = Some (PyList xs)).
    { rewrite Est. cbn [heap]. now rewrite lookup_insert_ne. }
    rewrite Hl'. unfold tasks_of.
    change (_tasks (store l (PyList ys) st')) with (_tasks st').
    assert (E : items_at (store l (PyList ys) st') (_tasks st') = xs).
    { unfold items_at, store. cbn [heap]. rewrite Est. cbn [heap _tasks].
      rewrite lookup_insert_ne by congruence. now rewrite lookup_insert_eq. }
    rewrite E, Hitems'. apply omap_task_at_ext. intros d Hd.
    apply task_at_store_other. apply not_eq_sym, Hcell, Hd.
Qed.

Lemma set_tasks_copies_witness :
  let st0 := add_task "delay" "3" EmptyString init in
  let l := fst (get_tasks st0) in
  let st := snd (get_tasks st0) in
  tasks_of (set_tasks l st) = tasks_at st l
  /\ tasks_of (caller_mutates_list l [] (set_tasks l st)) = tasks_of (set_tasks l st).
Proof.
  intros st0 l st.
  assert (H : task_list_at st l).
  { split.
    - eexists. vm_compute. reflexivity.
    - intros d Hd. vm_compute in Hd.
      repeat (apply elem_of_cons in Hd as [->|Hd];
              [eexists; vm_compute; reflexivity |]).
      now apply elem_of_nil in Hd. }
  pose proof (set_tasks_copies st l H) as (_ & H1 & _ & H2).
  split; [exact H1 | exact (H2 [])].
Defined.

(** X8: [get_task_by_index] at an index of the list returns a new dictionary
    with the entries of the task: what the caller does to it does not
    reach the store.  At any other index it returns [None] and allocates
    nothing. *)
Theorem get_task_by_index_copies (st : state) (i : Z) :
  well_formed st ->
  let n := Z.of_nat (length (tasks_of st)) in
  (0 <= i < n ->
   exists r t,
     fst (get_task_by_index i st) = Some r
     /\ tasks_of st !! Z.to_nat i = Some t
     /\ heap st !! r = None
     /\ task_at (snd (get_task_by_index i st)) r = Some t
     /\ well_formed (snd (get_task_by_index i st))
     /\ tasks_of (snd (get_task_by_index i st)) = tasks_of st
     /\ forall t',
          tasks_of (caller_mutates_dict r t' (snd (get_task_by_index i st)))
          = tasks_of st)
  /\ (i < 0 \/ n <= i -> get_task_by_index i st = (None, st)).
Proof.
  intros Hwf n. pose proof (items_length st Hwf) as Hlen.
  pose proof (well_formed_cells st Hwf) as Hcells.
  unfold get_task_by_index. rewrite Hlen. fold n. split.
  - intros Hi.
    replace (0 <=? i) with true by (symmetry; apply Z.leb_le; lia).
    replace (i <? n) with true by (symmetry; apply Z.ltb_lt; lia).
    cbn [andb].
    destruct (lookup_lt_is_Some_2 (tasks_of st) (Z.to_nat i)) as [t Ht]; [lia |].
    destruct (Forall2_lookup_r _ _ _ _ _ Hcells Ht) as (d & Hd & Ed).
    rewrite Hd. unfold task_at in Ed.
    destruct (heap st !! d) as [[xs|t0]|] eqn:Hheap; try discriminate.
    injection Ed as ->.
    change (let '(l, st0) := alloc (PyDict t) st in (Some l, st0))
      with (Some (fst (alloc (PyDict t) st)), snd (alloc (PyDict t) st)).
    cbn [fst snd].
    destruct (alloc_new (PyDict t) st) as (Hnew & Hold & Htasks).
    destruct (alloc_well_formed (PyDict t) st Hwf) as [Hwf' Hsame].
    set (r := fst (alloc (PyDict t) st)) in *.
    set (st' := snd (alloc (PyDict t) st)) in *.
    exists r, t.
    split; [reflexivity |]. split; [exact Ht |]. split; [exact Hold |].
    split; [unfold task_at; now rewrite Hnew |].
    split; [exact Hwf' |]. split; [exact Hsame |].
    intros t'. rewrite <- Hsame. unfold caller_mutates_dict. rewrite Hnew.
    unfold tasks_of. change (_tasks (store r (PyDict t') st')) with (_tasks st').
    assert (Hr : r <> _tasks st').
    { intros E. destruct Hwf' as [[xs Hxs] _]. rewrite <- E in Hxs. congruence. }
    assert (E : items_at (store r (PyDict t') st') (_tasks st')
                = items_at st' (_tasks st')).
    { unfold items_at, store. cbn [heap]. now rewrite lookup_insert_ne. }
    rewrite E. apply omap_task_at_ext. intros x Hx.
    apply task_at_store_other. intros <-.
    assert (Hx' : r ∈ items_at st (_tasks st)).
    { replace (items_at st (_tasks st)) with (items_at st' (_tasks st')); [exact Hx |].
      unfold items_at. rewrite Htasks. destruct Hwf as [[xs Hxs] _].
      unfold st'. now rewrite alloc_keeps by (rewrite Hxs; eauto). }
    destruct Hwf as [_ Hdict]. destruct (Hdict r Hx') as [t0 Ht0]. congruence.
  - intros Hi.
    replace ((0 <=? i) && (i <? n)) with false; [reflexivity |].
    symmetry. apply andb_false_iff.
    destruct Hi; [left; apply Z.leb_gt | right; apply Z.ltb_ge]; lia.
Qed.

Lemma get_task_by_index_copies_witness :
  let st := add_task "delay" "3" EmptyString
              (add_task "open_url" "example.com" EmptyString init) in
  (exists r t,
     fst (get_task_by_index 1 st) = Some r
     /\ tasks_of st !! Z.to_nat 1 = Some t
     /\ heap st !! r = None
     /\ task_at (snd (get_task_by_index 1 st)) r = Some t
     /\ well_formed (snd (get_task_by_index 1 st))
     /\ tasks_of (snd (get_task_by_index 1 st)) = tasks_of st
     /\ forall t',
          tasks_of (caller_mutates_dict r t' (snd (get_task_by_index 1 st)))
          = tasks_of st)
  /\ get_task_by_index 2 st = (None, st).
Proof.
  intros st. split.
  - apply (proj1 (get_task_by_index_copies st 1 example_store_well_formed)).
    vm_compute. split; [discriminate | reflexivity].
  - apply (proj2 (get_task_by_index_copies st 2 example_store_well_formed)).
    right. vm_compute. discriminate.
Defined.

(** X9: Every operation of the store keeps it well formed. *)
Theorem well_formed_kept :
  well_formed init
  /\ forall st,
       well_formed st ->
       (forall ty d a, well_formed (add_task ty d a st))
       /\ well_formed (snd (get_tasks st))
       /\ (forall l, task_list_at st l -> well_formed (set_tasks l st))
       /\ (forall i, well_formed (snd (delete_task i st)))
       /\ (forall i, well_formed (snd (move_task_up i st)))
       /\ (forall i, well_formed (snd (move_task_down i st)))
       /\ well_formed (clear_tasks st)
       /\ (forall i, well_formed (snd (get_task_by_index i st))).
Proof.
  split; [apply well_formed_init |]. intros st Hwf.
  split; [intros; now apply well_formed_add_task |].
  split; [apply alloc_well_formed, Hwf |].
  split; [intros l Hl; now apply set_tasks_well_formed |].
  split.
  { intros i. unfold delete_task.
    destruct ((0 <=? i) && (i <? Z.of_nat (length (items_at st (_tasks st)))));
      [|exact Hwf].
    cbn [snd]. apply store_cells_wf; [exact Hwf |].
    intros d. apply list_elem_of_delete_inv. }
  split; [intros i; now apply move_task_up_well_formed |].
  split; [intros i; now apply move_task_down_well_formed |].
  split; [apply clear_tasks_well_formed |].
  intros i. unfold get_task_by_index.
  destruct ((0 <=? i) && (i <? Z.of_nat (length (items_at st (_tasks st)))));
    [|exact Hwf].
  destruct (items_at st (_tasks st) !! Z.to_nat i) as [d|]; [|exact Hwf].
  destruct (heap st !! d) as [[xs|t]|]; try exact Hwf.
  apply (alloc_well_formed (PyDict t) st Hwf).
Qed.

Lemma well_formed_kept_witness :
  well_formed (snd (move_task_down 0
                 (add_task "delay" "3" EmptyString
                    (add_task "open_url" "example.com" EmptyString init)))).
Proof.
  apply (proj2 well_formed_kept
           (add_task "delay" "3" EmptyString
              (add_task "open_url" "example.com" EmptyString init))).
  apply well_formed_add_task, well_formed_add_task, well_formed_init.
Defined.

End StoreFacts.

(** ** The parser, line by line *)

Module LineFacts.
Import FileHandler TextFormat ParserFacts.

Lemma rstrip_blank_app (s w : string) :
  rstrip w = EmptyString -> rstrip (s +:+ w) = rstrip s.
Proof.
  intros Hw. induction s as [|a s IH].
  - now rewrite app_empty_l.
  - rewrite app_cons. cbn [rstrip]. now rewrite IH.
Qed.

Lemma strip_blank_app (s w : string) :
  rstrip w = EmptyString -> strip (s +:+ w) = strip s.
Proof.
  intros Hw. unfold strip. rewrite <- !lstrip_rstrip. now rewrite rstrip_blank_app.
Qed.

(** What [rstrip] removes is white space. *)
Lemma rstrip_decompose (s : string) :
  exists w, s = rstrip s +:+ w /\ rstrip w = EmptyString.
Proof.
  induction s as [|a s (w & Es & Hw)].
  - exists EmptyString. now split.
  - cbn [rstrip]. destruct (rstrip s) as [|b r] eqn:Er.
    + rewrite app_empty_l in Es. subst w.
      destruct (py_isspace a) eqn:Ea.
      * exists (String a s). split; [now rewrite app_empty_l |].
        cbn [rstrip]. now rewrite Er, Ea.
      * exists s. split; [reflexivity | exact Er].
    + exists w. split; [|exact Hw]. rewrite app_cons. now rewrite <- Es.
Qed.

Lemma rstrip_blank_cons (a : ascii) (s : string) :
  rstrip (String a s) = EmptyString -> py_isspace a = true /\ rstrip s = EmptyString.
Proof.
  cbn [rstrip]. destruct (rstrip s); [|discriminate].
  destruct (py_isspace a); [now split | discriminate].
Qed.

(** The lines of white space are white space. *)
Lemma split_blank (w : string) :
  rstrip w = EmptyString -> Forall (fun l => rstrip l = EmptyString) (split LF w).
Proof.
  induction w as [|a w IH]; intros Hw.
  - repeat constructor.
  - apply rstrip_blank_cons in Hw as [Ha Hw]. specialize (IH Hw).
    cbn [split]. destruct (Ascii.eqb a LF).
    + constructor; [reflexivity | exact IH].
    + destruct (split LF w) as [|x xs]; [repeat constructor; cbn; now rewrite Ha |].
      inversion IH as [|? ? Hx Hxs]; subst. constructor; [|exact Hxs].
      cbn [rstrip]. now rewrite Hx, Ha.
Qed.

Lemma parse_blank_line (l : string) :
  rstrip l = EmptyString -> parse_line (strip l) = None.
Proof.
  intros Hl. unfold strip. rewrite <- lstrip_rstrip, Hl. reflexivity.
Qed.

Lemma parse_blank_lines (ls : list string) :
  Forall (fun l => rstrip l = EmptyString) ls ->
  omap (fun l => parse_line (strip l)) ls = [].
Proof.
  induction 1 as [|l ls Hl _ IH]; [reflexivity |].
  csimpl. now rewrite (parse_blank_line l Hl), IH.
Qed.

(** White space after the text adds no task and changes none: [h] reads
    the first line, which may have text before it on the same line. *)
Lemma lines_blank_app (w : string) :
  rstrip w = EmptyString ->
  forall (s : string) (h : string -> option Task),
    (forall x b, rstrip b = EmptyString -> h (x +:+ b) = h x) ->
    match split LF (s +:+ w) with
    | x :: xs => option_list (h x) ++ omap (fun l => parse_line (strip l)) xs
    | [] => []
    end
    = match split LF s with
      | x :: xs => option_list (h x) ++ omap (fun l => parse_line (strip l)) xs
      | [] => []
      end.
Proof.
  intros Hw. induction s as [|a s IH]; intros h Hh.
  - rewrite app_empty_l. pose proof (split_blank w Hw) as Hall.
    destruct (split_cons LF w) as (x & xs & E). rewrite E in Hall |- *.
    inversion Hall as [|? ? Hx Hxs]; subst.
    rewrite (parse_blank_lines xs Hxs).
    specialize (Hh EmptyString x Hx). rewrite app_empty_l in Hh.
    now rewrite Hh.
  - rewrite app_cons. cbn [split]. destruct (Ascii.eqb a LF).
    + f_equal.
      specialize (IH (fun l => parse_line (strip l))
                     (fun x b Hb => f_equal parse_line (strip_blank_app x b Hb))).
      destruct (split_cons LF (s +:+ w)) as (x & xs & E).
      destruct (split_cons LF s) as (y & ys & E').
      rewrite E, E' in IH |- *. csimpl.
      destruct (parse_line (strip x)), (parse_line (strip y)); exact IH.
    + specialize (IH (fun l => h (String a l))).
      destruct (split_cons LF (s +:+ w)) as (x & xs & E).
      destruct (split_cons LF s) as (y & ys & E').
      rewrite E, E' in IH |- *. apply IH.
      intros x0 b Hb. rewrite <- app_cons. now apply Hh.
Qed.

Lemma lines_rstrip (c : string) :
  omap (fun l => parse_line (strip l)) (split LF (rstrip c))
  = omap (fun l => parse_line (strip l)) (split LF c).
Proof.
  destruct (rstrip_decompose c) as (w & Ec & Hw).
  rewrite Ec at 2.
  pose proof (lines_blank_app w Hw (rstrip c) (fun l => parse_line (strip l))
                (fun x b Hb => f_equal parse_line (strip_blank_app x b Hb))) as H.
  destruct (split_cons LF (rstrip c +:+ w)) as (x & xs & E).
  destruct (split_cons LF (rstrip c)) as (y & ys & E').
  rewrite E, E' in H |- *. csimpl.
  destruct (parse_line (strip x)), (parse_line (strip y)); symmetry; exact H.
Qed.

Lemma lines_lstrip (c : string) :
  omap (fun l => parse_line (strip l)) (split LF (lstrip c))
  = omap (fun l => parse_line (strip l)) (split LF c).
Proof.
  induction c as [|a c IH]; [reflexivity |].
  cbn [lstrip]. destruct (py_isspace a) eqn:Ea; [|reflexivity].
  rewrite IH. cbn [split]. destruct (Ascii.eqb a LF); [reflexivity |].
  destruct (split_cons LF c) as (x & xs & E). rewrite E. csimpl.
  replace (strip (String a x)) with (strip x); [reflexivity |].
  unfold strip. cbn [lstrip]. now rewrite Ea.
Qed.

(** The text is read line by line: trimming the whole text first, as
    [parse_text_to_tasks] does, changes nothing. *)
Lemma parse_text_lines (content : string) :
  parse_text_to_tasks content
  = omap (fun l => parse_line (strip l)) (split LF content).
Proof.
  unfold parse_text_to_tasks. rewrite TextFormatTheorems.parse_loop.
  unfold strip at 2. now rewrite lines_rstrip, lines_lstrip.
Qed.

(** X10: Text put together from two texts with a line break between them
    holds the tasks of the first followed by the tasks of the second. *)
Theorem parse_text_concat (a b : string) :
  parse_text_to_tasks (a +:+ NL +:+ b)
  = parse_text_to_tasks a ++ parse_text_to_tasks b.
Proof.
  rewrite !parse_text_lines. change (NL +:+ b) with (String LF b).
  now rewrite split_app, omap_app.
Qed.

Lemma startswith_char (c a : ascii) (x : string) :
  startswith (String c EmptyString) (String a x) = Ascii.eqb c a.
Proof.
  unfold startswith. cbn [String.prefix].
  destruct (ascii_dec c a) as [->|Hne].
  - rewrite Ascii.eqb_refl. now destruct x.
  - symmetry. now apply Ascii.eqb_neq.
Qed.

Lemma cut_none_inv (c : ascii) (s : string) :
  cut c s = None -> contains c s = false.
Proof.
  intros H. destruct (contains c s) eqn:E; [|reflexivity].
  apply contains_cut in E as (? & ? & E). congruence.
Qed.

Lemma fields_rstrip (r : string) :
  fields_after_bracket (rstrip r) = fields_after_bracket r.
Proof.
  unfold fields_after_bracket.
  destruct (cut "|" r) as [[p x]|] eqn:Hr.
  - apply cut_some in Hr as [-> Hp].
    rewrite (rstrip_app_nonspace "|" p x bar_not_space), (cut_app _ _ _ Hp).
    f_equal.
    destruct (cut "|" x) as [[q tl]|] eqn:Hx.
    + apply cut_some in Hx as [-> Hq].
      rewrite (rstrip_app_nonspace "|" q tl bar_not_space).
      now rewrite (cut_app _ _ _ Hq).
    + apply cut_none_inv in Hx.
      rewrite cut_none by (now rewrite (contains_rstrip "|" x bar_not_space)).
      apply strip_rstrip.
  - apply cut_none_inv in Hr.
    rewrite cut_none by (now rewrite (contains_rstrip "|" r bar_not_space)).
    f_equal. apply strip_rstrip.
Qed.

Lemma lstrip_head (s : string) (a : ascii) (x : string) :
  lstrip s = String a x -> py_isspace a = false.
Proof.
  induction s as [|b s IH]; [discriminate |]. cbn [lstrip].
  destruct (py_isspace b) eqn:Eb; [exact IH |]. intros E. now injection E as <- _.
Qed.

(** White space at the end of a line that opens with a character other
    than white space is not read. *)
Lemma parse_line_rstrip (a : ascii) (x : string) :
  py_isspace a = false ->
  parse_line (rstrip (String a x)) = parse_line (String a x).
Proof.
  intros Ha. rewrite (rstrip_cons_nonspace a x Ha).
  destruct (Ascii.eqb "[" a) eqn:Eb.
  - apply Ascii.eqb_eq in Eb. subst a.
    destruct (contains "]" x) eqn:Ec.
    + apply contains_cut in Ec as (k & r & Ec). apply cut_some in Ec as [-> Hk].
      rewrite (rstrip_app_nonspace "]" k r eq_refl).
      rewrite !(parse_line_brackets k _ Hk).
      now rewrite (contains_rstrip "|" r bar_not_space), fields_rstrip.
    + unfold parse_line. cbn [is_empty orb contains].
      rewrite (contains_rstrip "]" x eq_refl), Ec.
      change (Ascii.eqb "[" "]") with false. cbn [orb].
      now rewrite !andb_false_r.
  - unfold parse_line. cbn [is_empty orb]. rewrite !startswith_char, Eb.
    cbn [andb]. reflexivity.
Qed.

(** White space around a line is not read. *)
Lemma parse_line_strip (l : string) :
  parse_line (strip l) = parse_line (lstrip l).
Proof.
  unfold strip. destruct (lstrip l) as [|a x] eqn:E; [reflexivity |].
  apply parse_line_rstrip. exact (lstrip_head l a x E).
Qed.

Lemma parse_comment (s : string) : parse_line (strip (String "#" s)) = None.
Proof.
  rewrite parse_line_strip. change (lstrip (String "#" s)) with (String "#" s).
  unfold parse_line. cbn [is_empty orb]. now rewrite startswith_char.
Qed.

Lemma split_no_sep (c : ascii) (s : string) :
  Forall (fun x => contains c x = false) (split c s).
Proof.
  induction s as [|a s IH]; [repeat constructor |].
  cbn [split]. destruct (Ascii.eqb a c) eqn:E.
  - constructor; [reflexivity | exact IH].
  - destruct (split c s) as [|x xs]; [repeat constructor; cbn; now rewrite E |].
    inversion IH as [|? ? Hx Hxs]; subst. constructor; [|exact Hxs].
    cbn [contains]. now rewrite E, Hx.
Qed.

Lemma lstrip_keeps_absent (c : ascii) (s : string) :
  contains c s = false -> contains c (lstrip s) = false.
Proof.
  induction s as [|a s IH]; [reflexivity |]. intros H. cbn [lstrip].
  destruct (py_isspace a); [|exact H].
  cbn [contains] in H. apply orb_false_iff in H as [_ H]. now apply IH.
Qed.

Lemma rstrip_keeps_absent (c : ascii) (s : string) :
  contains c s = false -> contains c (rstrip s) = false.
Proof.
  induction s as [|a s IH]; [reflexivity |]. intros H.
  cbn [contains] in H. apply orb_false_iff in H as [Ha H]. specialize (IH H).
  cbn [rstrip]. destruct (rstrip s) as [|b r].
  - destruct (py_isspace a); [reflexivity |]. cbn [contains]. now rewrite Ha.
  - cbn [contains] in *. now rewrite Ha, IH.
Qed.

Lemma strip_keeps_absent (c : ascii) (s : string) :
  contains c s = false -> contains c (strip s) = false.
Proof. intros H. now apply rstrip_keeps_absent, lstrip_keeps_absent. Qed.

(** What the parser makes of a line has fields of the shape
    [parsed_shape] asks for, line breaks apart. *)
Lemma accepted_shape (line : string) (t : Task) :
  accepted line t ->
  (Extra.trimmed (task_type t) /\ Extra.trimmed (details t)
   /\ Extra.trimmed (additional t))
  /\ contains "]" (task_type t) = false
  /\ contains "|" (details t) = false
  /\ contains "|" (additional t) = false.
Proof.
  unfold Extra.trimmed.
  intros [k r Hk Hkb Hr | k p q Hk Hp Hq | k p q tl Hk Hp Hq];
    cbn [task_type details additional];
    rewrite ?strip_idem, ?(contains_strip "]" k eq_refl),
      ?(contains_strip "|" _ bar_not_space);
    repeat split; assumption || reflexivity.
Qed.

Lemma accepted_single_line (line : string) (t : Task) :
  accepted line t -> no_line_break line -> single_line_task t.
Proof.
  unfold single_line_task, no_line_break.
  intros [k r Hk Hkb Hr | k p q Hk Hp Hq | k p q tl Hk Hp Hq] Hline;
    cbn [task_type details additional];
    rewrite !contains_app in Hline;
    repeat (apply orb_false_iff in Hline as [?H Hline]);
    repeat split; try apply strip_keeps_absent; assumption || reflexivity.
Qed.

Lemma three_field_line_accepted (t : Task) :
  Extra.parsed_shape t -> parse_line (Extra.three_field_line t) = Some t.
Proof.
  destruct t as [k d a]. unfold Extra.parsed_shape, Extra.trimmed.
  cbn [task_type details additional].
  intros ((Tk & Td & Ta) & _ & Hk & Hd & Ha).
  apply parse_line_accepted. unfold Extra.three_field_line.
  cbn [task_type details additional].
  replace (mkTask k d a)
    with (mkTask (strip k) (strip (" " +:+ d +:+ " ")) (strip (" " +:+ a))).
  - replace ("[" +:+ k +:+ "] " +:+ d +:+ " | " +:+ a)
      with ("[" +:+ k +:+ "]" +:+ (" " +:+ d +:+ " ") +:+ "|" +:+ (" " +:+ a))
      by (now rewrite !app_assoc_str).
    apply accepted_one_delimiter; [exact Hk | |].
    + rewrite !contains_app, Hd. reflexivity.
    + rewrite contains_app, Ha. reflexivity.
  - f_equal; [exact Tk | |].
    + change (strip (" " +:+ d +:+ " ")) with (strip (d +:+ " ")).
      now rewrite strip_blank_app.
    + exact Ta.
Qed.

(** X11: The tasks that some text holds are the tasks whose fields are
    trimmed and on one line, with no closing bracket in the kind and no
    delimiter in the two other fields. *)
Theorem loadable_tasks (t : Task) :
  (exists content, t ∈ parse_text_to_tasks content) <-> Extra.parsed_shape t.
Proof.
  split.
  - intros (content & Hin). rewrite parse_text_lines in Hin.
    apply list_elem_of_omap in Hin as (l & Hl & Hparse).
    apply parse_line_accepted in Hparse.
    destruct (accepted_shape _ _ Hparse) as (Htrim & Hrest).
    split; [exact Htrim |]. split; [|exact Hrest].
    apply (accepted_single_line _ _ Hparse).
    apply strip_keeps_absent.
    pose proof (split_no_sep LF content) as Hall.
    rewrite Forall_forall in Hall. exact (Hall l Hl).
  - intros Hshape. exists (Extra.three_field_line t).
    rewrite parse_text_lines.
    assert (Hline : no_line_break (Extra.three_field_line t)).
    { destruct Hshape as (_ & (Lk & Ld & La) & _).
      unfold no_line_break, Extra.three_field_line in *.
      rewrite !contains_app, Lk, Ld, La. reflexivity. }
    rewrite (split_single _ _ Hline). csimpl.
    rewrite parse_line_strip.
    change (lstrip (Extra.three_field_line t)) with (Extra.three_field_line t).
    rewrite (three_field_line_accepted t Hshape). apply list_elem_of_singleton.
    reflexivity.
Qed.

Lemma loadable_tasks_witness :
  exists content, mkTask "backup_folder" "C:/data" "D:/backup" ∈ parse_text_to_tasks content.
Proof.
  apply (proj2 (loadable_tasks (mkTask "backup_folder" "C:/data" "D:/backup"))).
  unfold Extra.parsed_shape, Extra.trimmed, single_line_task, no_line_break.
  cbn [task_type details additional]. repeat split; reflexivity.
Defined.

End LineFacts.

(** ** Writing a task list and reading it again *)

Module RoundTripFacts.
Import FileHandler TextFormat ParserFacts SerializerFacts LineFacts.

(** The lines of the text written for tasks whose fields hold no line
    break. *)
Lemma serialize_lines (now : string) (tasks : list Task) :
  no_line_break now -> Forall single_line_task tasks ->
  split LF (serialize now tasks)
  = header_lines now ++ map task_line tasks ++ [EmptyString].
Proof.
  intros Hnow Htasks. rewrite serialize_text. unfold header, header_lines.
  rewrite !app_assoc_str.
  rewrite TextFormatTheorems.split_line by reflexivity.
  rewrite <- (app_assoc_str "# Generated on: " now).
  rewrite TextFormatTheorems.split_line.
  2:{ unfold no_line_break. rewrite contains_app, Hnow. reflexivity. }
  rewrite TextFormatTheorems.split_line by reflexivity.
  change (NL +:+ ?x) with (EmptyString +:+ NL +:+ x).
  rewrite TextFormatTheorems.split_line by reflexivity.
  replace (map (fun t => task_line t +:+ NL) tasks)
    with (map (fun l => l +:+ NL) (map task_line tasks))
    by (now rewrite map_map).
  rewrite TextFormatTheorems.split_lines; [reflexivity |].
  apply Forall_map. eapply Forall_impl; [exact Htasks |].
  intros t Ht. now apply TextFormatTheorems.task_line_single.
Qed.

Lemma written_lines_read_back (tasks : list Task) :
  Forall (fun t => contains "]" (task_type t) = false
                   /\ contains "|" (details t) = false) tasks ->
  omap (fun l => parse_line (strip l)) (map task_line tasks)
  = map Extra.read_back tasks.
Proof.
  induction 1 as [|t tasks [Hk Hd] _ IH]; [reflexivity |].
  cbn [map]. csimpl. rewrite parse_line_strip.
  change (lstrip (task_line t)) with (task_line t).
  rewrite (TextFormatTheorems.written_line_read_back t Hk Hd), IH.
  reflexivity.
Qed.

Lemma header_no_task (now : string) :
  omap (fun l => parse_line (strip l)) (header_lines now) = [].
Proof.
  unfold header_lines.
  change ("# Generated on: " +:+ now) with (String "#" (" Generated on: " +:+ now)).
  cbn [omap list_omap].
  rewrite !parse_comment. reflexivity.
Qed.

(** The text written for a task list is read back as the list with each
    task changed the same way: the kind trimmed, the primary field empty,
    the trimmed primary field in the place of the secondary one, and the
    secondary field gone. *)
Lemma parse_serialize (now : string) (tasks : list Task) :
  no_line_break now ->
  Forall (fun t => single_line_task t
                   /\ contains "]" (task_type t) = false
                   /\ contains "|" (details t) = false) tasks ->
  parse_text_to_tasks (serialize now tasks) = map Extra.read_back tasks.
Proof.
  intros Hnow Htasks. rewrite parse_text_lines.
  rewrite serialize_lines.
  2: exact Hnow.
  2:{ eapply Forall_impl; [exact Htasks |]. now intros t [H _]. }
  rewrite !omap_app, header_no_task. csimpl.
  change (parse_line (strip EmptyString)) with (@None Task).
  rewrite app_nil_r. apply written_lines_read_back.
  eapply Forall_impl; [exact Htasks |]. now intros t [_ H].
Qed.

Lemma app_inv_head_str (p s u : string) : p +:+ s = p +:+ u -> s = u.
Proof.
  induction p as [|a p IH]; [now rewrite !app_empty_l |].
  rewrite !app_cons. intros H. injection H as H. now apply IH.
Qed.

Lemma app_inv_last_char (c : ascii) (s u : string) :
  s +:+ String c EmptyString = u +:+ String c EmptyString -> s = u.
Proof.
  revert u. induction s as [|a s IH]; intros [|b u]; rewrite ?app_empty_l, ?app_cons.
  - reflexivity.
  - intros H. injection H as _ H. destruct u; discriminate H.
  - intros H. injection H as _ H. destruct s; discriminate H.
  - intros H. injection H as -> H. f_equal. now apply IH.
Qed.

Lemma is_empty_true (s : string) : is_empty s = true -> s = EmptyString.
Proof. now destruct s. Qed.

(** Where the first delimiter of the text after [[kind] | ] stands. *)
Lemma cut_fields (d a : string) :
  contains "|" d = false ->
  cut "|" (d +:+ (if is_empty a then EmptyString else " | " +:+ a))
  = if is_empty a then None else Some (d +:+ " ", " " +:+ a).
Proof.
  intros Hd. destruct (is_empty a).
  - rewrite app_empty_r. now apply cut_none.
  - replace (d +:+ " | " +:+ a) with ((d +:+ " ") +:+ String "|" (" " +:+ a))
      by (now rewrite !app_assoc_str).
    apply cut_app. rewrite contains_app, Hd. reflexivity.
Qed.

(** Two tasks with the same line are the same task. *)
Lemma task_line_inj (t1 t2 : Task) :
  contains "]" (task_type t1) = false -> contains "|" (details t1) = false ->
  contains "]" (task_type t2) = false -> contains "|" (details t2) = false ->
  task_line t1 = task_line t2 -> t1 = t2.
Proof.
  destruct t1 as [k1 d1 a1], t2 as [k2 d2 a2]. unfold task_line.
  cbn [task_type details additional]. intros Hk1 Hd1 Hk2 Hd2 E.
  assert (C1 : forall k d a, contains "]" k = false ->
             cut "]" ("[" +:+ k +:+ "] | " +:+ d
                      +:+ (if is_empty a then EmptyString else " | " +:+ a))
             = Some (String "[" k,
                     " | " +:+ d +:+ (if is_empty a then EmptyString else " | " +:+ a))).
  { intros k d a Hk.
    change ("[" +:+ k +:+ "] | " +:+ d +:+ ?x)
      with (String "[" k +:+ String "]" (" | " +:+ d +:+ x)).
    apply cut_app. cbn [contains]. exact Hk. }
  pose proof (f_equal (cut "]") E) as Ec.
  rewrite (C1 k1 d1 a1 Hk1), (C1 k2 d2 a2 Hk2) in Ec.
  injection Ec as -> Er. apply app_inv_head_str in Er.
  pose proof (f_equal (cut "|") Er) as Ef.
  rewrite (cut_fields d1 a1 Hd1), (cut_fields d2 a2 Hd2) in Ef.
  destruct (is_empty a1) eqn:E1, (is_empty a2) eqn:E2; try discriminate Ef.
  - apply is_empty_true in E1, E2. subst a1 a2.
    rewrite !app_empty_r in Er. now subst d2.
  - injection Ef as Ed Ea. apply app_inv_last_char in Ed.
    apply app_inv_head_str in Ea. now subst.
Qed.

(** X12: The text written for a task list determines the list: two lists
    have the same text only when they are the same list. *)
Theorem serialize_injective (now : string) (tasks1 tasks2 : list Task) :
  no_line_break now ->
  Forall (fun t => single_line_task t
                   /\ contains "]" (task_type t) = false
                   /\ contains "|" (details t) = false) tasks1 ->
  Forall (fun t => single_line_task t
                   /\ contains "]" (task_type t) = false
                   /\ contains "|" (details t) = false) tasks2 ->
  serialize now tasks1 = serialize now tasks2 -> tasks1 = tasks2.
Proof.
  intros Hn H1 H2 E.
  pose proof (f_equal (split LF) E) as El.
  rewrite !serialize_lines in El; try assumption.
  2,3: eapply Forall_impl; [eassumption | now intros t [H _]].
  apply app_inv_head, app_inv_tail in El.
  clear E Hn. revert tasks2 H2 El.
  induction H1 as [|t1 tasks1 (_ & Hk1 & Hd1) _ IH]; intros tasks2 H2 El.
  - destruct tasks2; [reflexivity | cbn [map] in El; discriminate El].
  - destruct H2 as [|t2 tasks2 (_ & Hk2 & Hd2) H2];
      [cbn [map] in El; discriminate El |].
    cbn [map] in El.
    assert (Et : task_line t1 = task_line t2) by congruence.
    assert (El' : map task_line tasks1 = map task_line tasks2) by congruence.
    f_equal; [now apply task_line_inj | now apply IH].
Qed.

Lemma serialize_injective_witness :
  [ mkTask "delay" "3" EmptyString ] = [ mkTask "delay" "3" EmptyString ].
Proof.
  apply (serialize_injective "2024-05-01 10:30:00"
           [ mkTask "delay" "3" EmptyString ] [ mkTask "delay" "3" EmptyString ]).
  - reflexivity.
  - repeat constructor.
  - repeat constructor.
  - reflexivity.
Defined.

End RoundTripFacts.

(** ** The compiler: delays, and the fields each kind reads *)

Module ScriptFacts.
Import FileHandler Script CompilerFacts.

Lemma digit_char (x : N) :
  (x < 10)%N ->
  is_digit (pretty_N_char x) = true
  /\ digit_value (pretty_N_char x) = Z.of_N x
  /\ int_isspace (pretty_N_char x) = false
  /\ pretty_N_char x <> "+"%char /\ pretty_N_char x <> "-"%char.
Proof.
  intros Hx.
  assert (x = 0 \/ x = 1 \/ x = 2 \/ x = 3 \/ x = 4 \/ x = 5 \/ x = 6
          \/ x = 7 \/ x = 8 \/ x = 9)%N as H by lia.
  repeat (destruct H as [->|H]; [repeat split; discriminate |]).
  subst x. repeat split; discriminate.
Qed.

(** [int] reads the digits [str] wrote for a positive number. *)
Lemma int_digits_pretty (x : N) :
  (0 < x)%N ->
  forall s, exists m,
    forall acc b,
      int_digits acc b (pretty_N_go x s) = int_digits (acc * m + Z.of_N x) true s.
Proof.
  induction (N.lt_wf_0 x) as [x _ IH]. intros Hx s.
  rewrite pretty_N_go_step by exact Hx.
  destruct (digit_char (x `mod` 10)%N) as (Hd & Hv & _); [now apply N.mod_lt |].
  destruct (decide (x `div` 10 = 0)%N) as [E|E].
  - rewrite E, pretty_N_go_0. exists 10. intros acc b.
    cbn [int_digits]. rewrite Hd, Hv. f_equal.
    pose proof (N.div_mod x 10 ltac:(discriminate)) as H.
    rewrite E, N.mul_0_r, N.add_0_l in H. rewrite <- H. lia.
  - destruct (IH (x `div` 10)%N) with (s := String (pretty_N_char (x `mod` 10)) s)
      as (m & Hm); [apply N.div_lt; lia | now apply N.neq_0_lt_0 |].
    exists (10 * m). intros acc b. rewrite Hm.
    cbn [int_digits]. rewrite Hd, Hv. f_equal.
    pose proof (N.div_mod x 10 ltac:(discriminate)) as H.
    set (q := (x `div` 10)%N) in *. set (r := (x `mod` 10)%N) in *.
    clearbody q r. subst x. lia.
Qed.

Lemma pretty_N_go_head (x : N) (s : string) :
  (0 < x)%N ->
  exists c r, pretty_N_go x s = String c r
              /\ int_isspace c = false /\ c <> "+"%char /\ c <> "-"%char.
Proof.
  revert s. induction (N.lt_wf_0 x) as [x _ IH]. intros s Hx.
  rewrite pretty_N_go_step by exact Hx.
  destruct (digit_char (x `mod` 10)%N) as (_ & _ & Hs & Hp & Hm);
    [now apply N.mod_lt |].
  destruct (decide (x `div` 10 = 0)%N) as [E|E].
  - rewrite E, pretty_N_go_0. eauto 10.
  - apply IH; [apply N.div_lt; lia | now apply N.neq_0_lt_0].
Qed.

(** The three forms of a literal. *)
Lemma int_value_cases (s : string) :
  int_value s
  = match int_lstrip s with
    | EmptyString => None
    | String c r =>
        if Ascii.eqb c "+" then int_digits 0 false r
        else if Ascii.eqb c "-" then Z.opp <$> int_digits 0 false r
        else int_digits 0 false (String c r)
    end.
Proof.
  unfold int_value. destruct (int_lstrip s) as [|c r]; [reflexivity |].
  destruct c as [[] [] [] [] [] [] [] []]; reflexivity.
Qed.

Lemma int_digits_pretty_pos (p : positive) :
  int_digits 0 false (pretty (N.pos p)) = Some (Z.pos p).
Proof.
  unfold pretty, pretty_N. case_decide; [discriminate |].
  destruct (int_digits_pretty (N.pos p) eq_refl EmptyString) as (m & Hm).
  rewrite Hm. reflexivity.
Qed.

(** The literal [str] writes for an integer denotes it. *)
Lemma int_value_pretty (z : Z) : int_value (pretty z) = Some z.
Proof.
  destruct z as [|p|p].
  - reflexivity.
  - unfold pretty at 1, pretty_Z. unfold pretty at 1, pretty_positive.
    rewrite <- int_digits_pretty_pos. rewrite int_value_cases.
    unfold pretty, pretty_N. case_decide; [discriminate |].
    destruct (pretty_N_go_head (N.pos p) EmptyString) as (c & r & E & Hs & Hp & Hm);
      [reflexivity |].
    rewrite E. cbn [int_lstrip]. rewrite Hs.
    apply Ascii.eqb_neq in Hp, Hm. now rewrite Hp, Hm.
  - unfold pretty at 1, pretty_Z.
    change (int_value ("-" +:+ pretty p))
      with (Z.opp <$> int_digits 0 false (pretty (N.pos p))).
    now rewrite int_digits_pretty_pos.
Qed.

Lemma count_digits_nonneg (s : string) : 0 <= count_digits s.
Proof.
  induction s as [|c s IH]; [reflexivity |].
  cbn [count_digits]. destruct (is_digit c); lia.
Qed.

(** A number below [10 ^ k] is written with at most [k] digits. *)
Lemma count_digits_pretty_go (x : N) :
  forall (s : string) (k : Z),
    0 <= k -> Z.of_N x < 10 ^ k ->
    count_digits (pretty_N_go x s) <= k + count_digits s.
Proof.
  induction (N.lt_wf_0 x) as [x _ IH]. intros s k Hk Hx.
  destruct (decide (x = 0)%N) as [->|Hpos].
  - rewrite pretty_N_go_0. lia.
  - rewrite pretty_N_go_step by lia.
    destruct (digit_char (x `mod` 10)%N) as (Hd & _); [now apply N.mod_lt |].
    assert (Hk1 : 1 <= k).
    { destruct (Z.eq_dec k 0) as [->|]; [|lia]. change (10 ^ 0) with 1 in Hx. lia. }
    specialize (IH (x `div` 10)%N ltac:(apply N.div_lt; lia)
                   (String (pretty_N_char (x `mod` 10)) s) (k - 1) ltac:(lia)).
    cbn [count_digits] in IH. rewrite Hd in IH.
    assert (Hq : Z.of_N (x `div` 10) < 10 ^ (k - 1)).
    { rewrite N2Z.inj_div. change (Z.of_N 10) with 10.
      apply Z.div_lt_upper_bound; [lia |].
      replace (10 * 10 ^ (k - 1)) with (10 ^ k); [exact Hx |].
      replace k with (Z.succ (k - 1)) at 1 by lia.
      apply Z.pow_succ_r. lia. }
    specialize (IH Hq). lia.
Qed.

Lemma count_digits_pretty (z : Z) :
  Z.abs z < 10 ^ int_max_str_digits -> count_digits (pretty z) <= int_max_str_digits.
Proof.
  intros Hz.
  assert (Hgo : forall p : positive,
            Z.pos p < 10 ^ int_max_str_digits ->
            count_digits (pretty (N.pos p)) <= int_max_str_digits).
  { intros p Hp. unfold pretty, pretty_N. case_decide; [discriminate |].
    pose proof (count_digits_pretty_go (N.pos p) EmptyString int_max_str_digits
                  ltac:(discriminate) Hp) as Hc.
    cbn [count_digits] in Hc. lia. }
  destruct z as [|p|p].
  - discriminate.
  - apply (Hgo p Hz).
  - unfold pretty, pretty_Z. fold (pretty (N.pos p)).
    change (count_digits ("-" +:+ pretty (N.pos p)))
      with (0 + count_digits (pretty (N.pos p))).
    apply (Hgo p Hz).
Qed.

(** [int(str(z)) == z], for the integers [str] writes. *)
Lemma int_literal_pretty (z : Z) :
  Z.abs z < 10 ^ int_max_str_digits -> int_literal (pretty z) = Some z.
Proof.
  intros Hz. unfold int_literal.
  replace (int_max_str_digits <? count_digits (pretty z)) with false.
  - apply int_value_pretty.
  - symmetry. apply Z.ltb_ge. now apply count_digits_pretty.
Qed.

Lemma digit_value_range (c : ascii) :
  is_digit c = true -> 0 <= digit_value c <= 9.
Proof.
  unfold is_digit, digit_value. intros H.
  apply andb_true_iff in H as [H1 H2].
  apply Nat.leb_le in H1, H2. lia.
Qed.

Lemma space_no_digit (c : ascii) : int_isspace c = true -> is_digit c = false.
Proof. destruct c as [[] [] [] [] [] [] [] []]; intros H; reflexivity || discriminate H. Qed.

Lemma count_digits_blank (s : string) :
  is_empty (int_lstrip s) = true -> count_digits s = 0.
Proof.
  induction s as [|c s IH]; [reflexivity |].
  cbn [int_lstrip count_digits]. destruct (int_isspace c) eqn:Ec; [|discriminate].
  intros H. rewrite (space_no_digit c Ec), (IH H). reflexivity.
Qed.

Lemma count_digits_lstrip (s : string) :
  count_digits (int_lstrip s) = count_digits s.
Proof.
  induction s as [|c s IH]; [reflexivity |].
  cbn [int_lstrip]. destruct (int_isspace c) eqn:Ec; [|reflexivity].
  cbn [count_digits]. now rewrite (space_no_digit c Ec), IH.
Qed.

(** The value of a run of digits, by their number. *)
Lemma int_digits_bound (s : string) :
  forall acc b n,
    0 <= acc -> int_digits acc b s = Some n ->
    acc * 10 ^ count_digits s <= n < (acc + 1) * 10 ^ count_digits s.
Proof.
  induction s as [|c s IH]; intros acc b n Hacc H.
  - cbn [int_digits] in H. destruct b; [|discriminate]. injection H as <-.
    cbn [count_digits]. change (10 ^ 0) with 1. lia.
  - pose proof (count_digits_nonneg s) as Hc.
    assert (Hp : 0 < 10 ^ count_digits s) by (apply Z.pow_pos_nonneg; lia).
    cbn [int_digits] in H. cbn [count_digits].
    destruct (is_digit c) eqn:Ed.
    + pose proof (digit_value_range c Ed) as Hv.
      apply IH in H; [|lia].
      replace (10 ^ (1 + count_digits s)) with (10 * 10 ^ count_digits s)
        by (rewrite Z.add_comm, Z.pow_add_r by lia; lia).
      nia.
    + destruct (Ascii.eqb c "_").
      * destruct b; [|discriminate]. apply IH in H; [|lia].
        now rewrite Z.add_0_l.
      * destruct b; cbn [andb] in H; [|discriminate].
        destruct (is_empty (int_lstrip (String c s))) eqn:Eb; [|discriminate].
        injection H as <-. apply count_digits_blank in Eb.
        cbn [count_digits] in Eb. rewrite Ed in Eb. rewrite Eb.
        change (10 ^ 0) with 1. lia.
Qed.

(** What [int] accepts is an integer [str] can write. *)
Lemma int_literal_range (s : string) (n : Z) :
  int_literal s = Some n -> Z.abs n < 10 ^ int_max_str_digits.
Proof.
  unfold int_literal. destruct (int_max_str_digits <? count_digits s) eqn:El;
    [discriminate |].
  apply Z.ltb_ge in El. rewrite <- count_digits_lstrip in El.
  rewrite int_value_cases.
  destruct (int_lstrip s) as [|c r]; [discriminate |].
  assert (Hr : count_digits r <= int_max_str_digits).
  { cbn [count_digits] in El. destruct (is_digit c); lia. }
  assert (Hbound : forall u m,
            count_digits u <= int_max_str_digits ->
            int_digits 0 false u = Some m -> 0 <= m < 10 ^ int_max_str_digits).
  { intros u m Hu Hm. apply int_digits_bound in Hm; [|lia].
    pose proof (count_digits_nonneg u).
    assert (10 ^ count_digits u <= 10 ^ int_max_str_digits)
      by (apply Z.pow_le_mono_r; lia).
    lia. }
  destruct (Ascii.eqb c "+"); [|destruct (Ascii.eqb c "-")]; intros H.
  - apply (Hbound r n Hr) in H. lia.
  - destruct (int_digits 0 false r) as [m|] eqn:Em; [|discriminate].
    injection H as <-. apply (Hbound r m Hr) in Em. lia.
  - apply (Hbound _ n El) in H. lia.
Qed.

(** X13: the block of a delay waits for the number its primary field
    denotes, written in the digits of [str], whatever sign, leading
    zeros, underscores or white space the field has; and [int] reads back
    what [str] wrote for an integer of at most [int_max_str_digits]
    digits, so a delay made from [str(seconds)] compiles. *)
Theorem delay_block :
  (forall z : Z,
     Z.abs z < 10 ^ int_max_str_digits -> int_literal (pretty z) = Some z)
  /\ forall (i : nat) (t : Task) (n : Z),
       task_type t = "delay" -> int_literal (details t) = Some n ->
       block_of i t
       = unlines (announcement i t
                  ++ [ "echo Waiting for " +:+ pretty n +:+ " seconds...";
                       "timeout /t " +:+ pretty n +:+ " /nobreak >nul" ]
                  ++ block_end).
Proof.
  split; [exact int_literal_pretty |]. intros i t n Hk Hn.
  assert (Hok : delay_ok t = true).
  { unfold delay_ok. rewrite Hn. apply orb_true_r. }
  rewrite (block_text i t Hok).
  replace (text_of (kind_code t))
    with (unlines [ "echo Waiting for " +:+ pretty n +:+ " seconds...";
                    "timeout /t " +:+ pretty n +:+ " /nobreak >nul" ]).
  - unfold unlines. now rewrite !map_app, !BackupTheorems.concat_str_app.
  - at_kind t Hk. unfold int. rewrite Hn. run_writes. same_text.
Qed.

Lemma delay_block_witness :
  int_literal (pretty 3600) = Some 3600
  /\ block_of 2 (mkTask "delay" " +0_7 " EmptyString)
     = unlines [ "REM Task 2: delay"; "echo Executing Task 2: delay";
                 "echo Waiting for 7 seconds..."; "timeout /t 7 /nobreak >nul";
                 "echo."; EmptyString ].
Proof.
  split.
  - apply (proj1 delay_block 3600). vm_compute. reflexivity.
  - apply (proj2 delay_block 2%nat (mkTask "delay" " +0_7 " EmptyString) 7);
      reflexivity.
Defined.

(** The block of a delay that stops the compiler: its announcement. *)
Lemma bad_delay_block (i : nat) (t : Task) :
  delay_ok t = false -> block_of i t = unlines (announcement i t).
Proof.
  intros Hbad. destruct (delay_not_ok t Hbad) as [Hk Hd].
  unfold block_of, write_task. cbv zeta.
  rewrite text_of_bind by solve_appends_task.
  cbn [outcome write snd].
  rewrite text_of_bind by solve_appends_task.
  cbn [outcome write snd].
  rewrite text_of_bind by solve_appends_task.
  rewrite outcome_kind_code, Hbad.
  replace (text_of (kind_code t)) with EmptyString.
  - unfold text_of at 1 2, write. cbn [fst]. same_text.
  - at_kind t Hk. unfold int. now rewrite Hd.
Qed.

Lemma tasks_loop_stops (pre : list Task) (t : Task) (post : list Task) :
  forallb delay_ok pre = true -> delay_ok t = false ->
  forall k f,
    for_each (enumerate k (pre ++ t :: post)) (fun '(i, t) => write_task i t) f
    = (f +:+ concat_str (blocks_from k pre) +:+ block_of (k + length pre) t,
       Raise (ValueError (details t))).
Proof.
  intros Hpre Hbad. induction pre as [|u pre IH]; intros k f.
  - cbn [app enumerate for_each length]. unfold w_bind at 1.
    rewrite write_task_run, Hbad. unfold blocks_from. cbn [enumerate map concat_str].
    now rewrite app_empty_l, Nat.add_0_r.
  - cbn [forallb] in Hpre. apply andb_true_iff in Hpre as [Hu Hpre].
    cbn [app enumerate for_each length]. unfold w_bind at 1.
    rewrite write_task_run, Hu, (IH Hpre).
    unfold blocks_from. cbn [enumerate map concat_str].
    replace (k + S (length pre))%nat with (S k + length pre)%nat by lia.
    now rewrite !app_assoc_str.
Qed.

(** X14: The compiler stops at the first delay whose primary field is no
    integer literal: the error names that field, and the script file
    holds the header, the blocks of the tasks before it and the
    announcement of that delay, and nothing after it. *)
Theorem convert_to_bat_stops (h : Host) (fs : files) (pre post : list Task)
    (t : Task) (path : string) :
  (forall u, u ∈ pre -> task_type u = "delay" -> int_literal (details u) <> None) ->
  task_type t = "delay" -> int_literal (details t) = None ->
  convert_to_bat h fs (pre ++ t :: post) path
  = (<[get_bat_path h path :=
         bat_header h path +:+ concat_str (blocks_from 1 pre)
         +:+ unlines (announcement (S (length pre)) t)]> fs,
     Raise (Exception "Error creating BAT file: " (ValueError (details t)))).
Proof.
  intros Hpre Hk Hd.
  assert (Hbad : delay_ok t = false).
  { unfold delay_ok. now rewrite Hk, Hd. }
  unfold convert_to_bat, with_open_w, write_bat.
  unfold w_bind at 1 2 3 4 5. unfold write at 1 2 3 4 5.
  unfold w_bind at 1.
  rewrite (tasks_loop_stops pre t post (all_delays_ok pre Hpre) Hbad).
  rewrite (bad_delay_block _ t Hbad).
  unfold bat_header. cbn [Nat.add]. now rewrite ?app_assoc_str, ?app_empty_l.
Qed.

Lemma convert_to_bat_stops_witness :
  convert_to_bat windows_host ∅
    [ mkTask "sleep" EmptyString EmptyString;
      mkTask "delay" "soon" EmptyString;
      mkTask "delay" "later" EmptyString ] "tasks.txt"
  = (<[get_bat_path windows_host "tasks.txt" :=
         bat_header windows_host "tasks.txt"
         +:+ concat_str (blocks_from 1 [ mkTask "sleep" EmptyString EmptyString ])
         +:+ unlines (announcement 2 (mkTask "delay" "soon" EmptyString))]> ∅,
     Raise (Exception "Error creating BAT file: " (ValueError "soon"))).
Proof.
  apply (convert_to_bat_stops windows_host ∅
           [ mkTask "sleep" EmptyString EmptyString ]
           [ mkTask "delay" "later" EmptyString ]
           (mkTask "delay" "soon" EmptyString) "tasks.txt").
  - intros u Hu Hk. apply elem_of_cons in Hu as [->|Hu]; [discriminate Hk |].
    now apply elem_of_nil in Hu.
  - reflexivity.
  - reflexivity.
Defined.

(** The code of a task reads the primary field as [primary_as_read]
    says, and the secondary field for a backup only. *)
Lemma kind_code_alike (t t' : Task) :
  Extra.compiled_alike t t' -> kind_code t = kind_code t'.
Proof.
  destruct t as [k d a], t' as [k' d' a']. unfold Extra.compiled_alike.
  cbn [task_type details additional]. intros (<- & Hd & Ha).
  unfold Extra.safe_path in Ha.
  unfold kind_code. cbv zeta. cbn [task_type details additional].
  repeat lazymatch goal with
    | |- (if String.eqb ?x ?l then _ else _) = _ =>
        let E := fresh "E" in
        destruct (String.eqb x l) eqn:E;
        [ apply String.eqb_eq in E; subst x;
          unfold Extra.primary_as_read, Extra.names_path, Extra.path_kinds,
            recognised, known_kinds in Hd;
          cbn [existsb String.eqb Ascii.eqb Bool.eqb orb andb negb] in Hd;
          unfold Extra.safe_path in Hd;
          try rewrite Hd; try rewrite (Ha eq_refl);
          first
            [ reflexivity
            | unfold int;
              destruct (int_literal d) as [n|] eqn:En,
                       (int_literal d') as [n'|] eqn:En';
              [ now rewrite Hd
              | rewrite <- Hd, (int_literal_pretty n (int_literal_range d n En)) in En';
                discriminate En'
              | rewrite Hd, (int_literal_pretty n' (int_literal_range d' n' En')) in En;
                discriminate En
              | now rewrite Hd ] ]
        | ]
    end.
  reflexivity.
Qed.

Lemma write_task_alike (i : nat) (t t' : Task) :
  Extra.compiled_alike t t' -> write_task i t = write_task i t'.
Proof.
  intros H. unfold write_task. cbv zeta.
  rewrite (kind_code_alike t t' H). destruct H as [-> _]. reflexivity.
Qed.

Lemma tasks_loop_alike (tasks tasks' : list Task) :
  Forall2 Extra.compiled_alike tasks tasks' ->
  forall k,
    for_each (enumerate k tasks) (fun '(i, t) => write_task i t)
    = for_each (enumerate k tasks') (fun '(i, t) => write_task i t).
Proof.
  induction 1 as [|t t' tasks tasks' Ht _ IH]; intros k; [reflexivity |].
  cbn [enumerate for_each]. now rewrite (write_task_alike k t t' Ht), IH.
Qed.

(** X15: The script depends on a task only through its kind, its primary
    field as the code of the kind reads it, and for a backup its
    secondary field up to the separators: paths that differ in their
    separators, scan types that differ in case, delays that [int]
    accepts and that denote the same integer, and secondary fields of
    tasks other than backups give the same script and the same result. *)
Theorem convert_to_bat_alike (h : Host) (fs : files) (tasks tasks' : list Task)
    (path : string) :
  Forall2 Extra.compiled_alike tasks tasks' ->
  convert_to_bat h fs tasks path = convert_to_bat h fs tasks' path.
Proof.
  intros H. unfold convert_to_bat, write_bat.
  now rewrite (tasks_loop_alike tasks tasks' H 1%nat).
Qed.

Lemma convert_to_bat_alike_witness :
  convert_to_bat windows_host ∅
    [ mkTask "delete_folder" "C:/old/logs" "with contents";
      mkTask "backup_folder" "C:/data" "D:\backup";
      mkTask "security_scan" "Quick" EmptyString;
      mkTask "delay" " +0_7 " EmptyString ] "tasks.txt"
  = convert_to_bat windows_host ∅
      [ mkTask "delete_folder" "C:\old\logs" EmptyString;
        mkTask "backup_folder" "C:\data" "D:/backup";
        mkTask "security_scan" "quick" "now";
        mkTask "delay" "7" EmptyString ] "tasks.txt".
Proof.
  apply (convert_to_bat_alike windows_host ∅
           [ mkTask "delete_folder" "C:/old/logs" "with contents";
             mkTask "backup_folder" "C:/data" "D:\backup";
             mkTask "security_scan" "Quick" EmptyString;
             mkTask "delay" " +0_7 " EmptyString ]
           [ mkTask "delete_folder" "C:\old\logs" EmptyString;
             mkTask "backup_folder" "C:\data" "D:/backup";
             mkTask "security_scan" "quick" "now";
             mkTask "delay" "7" EmptyString ]).
  repeat constructor; cbn; discriminate.
Defined.

End ScriptFacts.

(** ** The path of the script *)

Module PathFacts.
Import FileHandler Script.

Lemma rfind_from_app (c : ascii) (s u : string) (i last : Z) :
  rfind_from c (s +:+ u) i last
  = rfind_from c u (i + Z.of_nat (String.length s)) (rfind_from c s i last).
Proof.
  revert i last. induction s as [|a s IH]; intros i last.
  - rewrite app_empty_l. cbn [String.length rfind_from]. f_equal. lia.
  - rewrite app_cons. cbn [rfind_from String.length]. rewrite IH. f_equal. lia.
Qed.

Lemma rfind_from_absent (c : ascii) (u : string) (i last : Z) :
  contains c u = false -> rfind_from c u i last = last.
Proof.
  revert i last. induction u as [|a u IH]; intros i last H; [reflexivity |].
  cbn [contains] in H. apply orb_false_iff in H as [Ha Hu].
  cbn [rfind_from]. rewrite Ha. now apply IH.
Qed.

Lemma rfind_from_range (c : ascii) (s : string) (i last : Z) :
  last < i -> last <= rfind_from c s i last < i + Z.of_nat (String.length s).
Proof.
  revert i last. induction s as [|a s IH]; intros i last H.
  - cbn [rfind_from String.length]. lia.
  - cbn [rfind_from String.length].
    destruct (Ascii.eqb a c).
    + specialize (IH (i + 1) i ltac:(lia)). lia.
    + specialize (IH (i + 1) last ltac:(lia)). lia.
Qed.

(** The last occurrence of a character that the rest of the text has not. *)
Lemma rfind_last (c : ascii) (s u : string) :
  contains c u = false -> rfind c (s +:+ String c u) = Z.of_nat (String.length s).
Proof.
  intros Hu. unfold rfind. rewrite rfind_from_app. cbn [rfind_from].
  rewrite Ascii.eqb_refl. rewrite (rfind_from_absent c u _ _ Hu). lia.
Qed.

Lemma rfind_prefix (c : ascii) (s u : string) :
  contains c u = false ->
  -1 <= rfind c (s +:+ u) < Z.of_nat (String.length s).
Proof.
  intros Hu. unfold rfind. rewrite rfind_from_app.
  rewrite (rfind_from_absent c u _ _ Hu).
  pose proof (rfind_from_range c s 0 (-1) ltac:(lia)). lia.
Qed.

Lemma all_chars_app (f : ascii -> bool) (s u : string) :
  all_chars f (s +:+ u) = all_chars f s && all_chars f u.
Proof.
  induction s as [|a s IH]; [now rewrite app_empty_l |].
  rewrite app_cons. cbn [all_chars]. now rewrite IH, andb_assoc.
Qed.

Lemma substring_app_mid (u x : string) (j n : nat) :
  (j <= String.length u)%nat ->
  substring j (String.length u - j + n) (u +:+ x)
  = substring j (String.length u - j) u +:+ substring 0 n x.
Proof.
  revert j. induction u as [|a u IH]; intros j Hj.
  - cbn [String.length] in *. replace j with 0%nat by lia.
    rewrite !app_empty_l. cbn [Nat.sub Nat.add]. now destruct n.
  - destruct j as [|j].
    + cbn [String.length Nat.sub Nat.add]. rewrite app_cons.
      cbn [substring]. rewrite app_cons. f_equal.
      specialize (IH 0%nat ltac:(lia)). rewrite Nat.sub_0_r in IH. exact IH.
    + cbn [String.length] in *. rewrite app_cons. cbn [Nat.sub substring].
      apply IH. lia.
Qed.

Lemma no_sep_contains (h : Host) (s : string) :
  Extra.no_sep h s ->
  contains (os_sep h) s = false
  /\ forall a, os_altsep h = Some a -> contains a s = false.
Proof.
  unfold Extra.no_sep, Extra.is_sep. induction s as [|c s IH]; intros H.
  - split; [reflexivity | intros; reflexivity].
  - cbn [all_chars] in H. apply andb_true_iff in H as [Hc Hs].
    apply negb_true_iff, orb_false_iff in Hc as [Hc1 Hc2].
    destruct (IH Hs) as [IH1 IH2]. split.
    + cbn [contains]. now rewrite Hc1, IH1.
    + intros a Ha. rewrite Ha in Hc2. cbn [contains]. now rewrite Hc2, (IH2 a Ha).
Qed.

Lemma no_sep_app (h : Host) (s u : string) :
  Extra.no_sep h s -> Extra.no_sep h u -> Extra.no_sep h (s +:+ u).
Proof.
  unfold Extra.no_sep. intros Hs Hu. now rewrite all_chars_app, Hs, Hu.
Qed.

(** X16: The script of a task list [name.ext] stands beside it as
    [name.bat]: in the same folder, with the same name up to the last
    dot. *)
Theorem get_bat_path_beside (h : Host) (dir name ext : string) :
  Extra.is_sep h "." = false ->
  Extra.no_sep h name -> Extra.no_sep h ext ->
  contains "." ext = false ->
  all_chars (Ascii.eqb ".") name = false ->
  get_bat_path h (dir +:+ name +:+ "." +:+ ext) = dir +:+ name +:+ ".bat".
Proof.
  intros Hdot Hname Hext Hext_dot Hname_dots.
  set (p := dir +:+ name +:+ "." +:+ ext).
  set (D := Z.of_nat (String.length (dir +:+ name))).
  assert (Ep : p = (dir +:+ name) +:+ String "." ext).
  { unfold p. now rewrite app_assoc_str. }
  assert (Hrest : Extra.no_sep h (name +:+ "." +:+ ext)).
  { apply no_sep_app; [exact Hname |]. apply no_sep_app; [|exact Hext].
    unfold Extra.no_sep. cbn [all_chars]. now rewrite Hdot. }
  destruct (no_sep_contains h _ Hrest) as [Hsep Halt].
  assert (Hd : rfind "." p = D) by (rewrite Ep; now apply rfind_last).
  assert (Hs : -1 <= rfind (os_sep h) p < Z.of_nat (String.length dir))
    by (now apply rfind_prefix).
  assert (Hlen : D = Z.of_nat (String.length dir) + Z.of_nat (String.length name)).
  { unfold D. rewrite length_app_str. lia. }
  assert (Hplen : D < Z.of_nat (String.length p)).
  { rewrite Ep, length_app_str. cbn [String.length]. fold D. lia. }
  assert (Hmid : forall m, -1 <= m < Z.of_nat (String.length dir) ->
            (m <? D) && negb (all_chars (Ascii.eqb ".") (slice p (m + 1) D)) = true).
  { intros m Hm. apply andb_true_iff. split; [apply Z.ltb_lt; lia |].
    apply negb_true_iff. unfold slice, clamp.
    replace (m + 1 <? 0) with false by (symmetry; apply Z.ltb_ge; lia).
    replace (D <? 0) with false by (symmetry; apply Z.ltb_ge; lia).
    rewrite !Z.min_l by lia.
    replace (Z.to_nat (D - (m + 1)))
      with (String.length dir - Z.to_nat (m + 1) + String.length name)%nat by lia.
    unfold p. rewrite substring_app_mid by lia.
    rewrite substring_app_l, all_chars_app, Hname_dots. apply andb_false_r. }
  assert (Hspl : splitext h p = (slice p 0 D, slice_from p D)).
  { unfold splitext. rewrite Hd.
    destruct (os_altsep h) as [a|] eqn:Ea.
    - pose proof (rfind_prefix a dir _ (Halt a eq_refl)) as Ha. fold p in Ha.
      rewrite (Hmid (Z.max (rfind (os_sep h) p) (rfind a p))) by lia.
      reflexivity.
    - now rewrite (Hmid _ Hs). }
  unfold get_bat_path. rewrite Hspl. unfold D. rewrite Ep, slice_prefix.
  now rewrite app_assoc_str.
Qed.

Lemma get_bat_path_beside_witness :
  get_bat_path windows_host ("C:\jobs.d/" +:+ "Morning.v2" +:+ "." +:+ "TXT")
  = "C:\jobs.d/" +:+ "Morning.v2" +:+ ".bat".
Proof.
  apply (get_bat_path_beside windows_host "C:\jobs.d/" "Morning.v2" "TXT");
    reflexivity.
Defined.

End PathFacts.

(** ** Saving and loading *)

Module SaveFacts.
Import FileHandler Script TextFormat CompilerFacts SaveTheorems Loader.

(** The files after [save_tasks], whether the compiler stopped or not:
    what was written to the script file and how the call ends do not
    depend on the files there were. *)
Lemma save_tasks_files (h : Host) (tasks : list Task) (file_path : string) :
  exists r,
    forall fs,
      save_tasks h fs tasks file_path
      = (<[get_bat_path h (txt_path file_path) :=
             script_of h tasks (txt_path file_path)]>
           (<[txt_path file_path := serialize (now h) tasks]> fs), r).
Proof.
  unfold save_tasks, with_open_w. fold (txt_path file_path).
  rewrite write_task_list_run.
  unfold convert_to_bat, with_open_w, script_of, text_of.
  destruct (write_bat h tasks (txt_path file_path) EmptyString) as [text [[]|e]];
    cbn [fst]; eexists; intros fs; reflexivity.
Qed.

Lemma txt_path_idem (file_path : string) :
  txt_path (txt_path file_path) = txt_path file_path.
Proof. unfold txt_path at 1. now rewrite txt_path_ends. Qed.

(** X17: [save_tasks] writes the task-list file and the script file and
    leaves every other file as it was.  What an earlier save of the same
    tasks to the same path wrote is all written over by a later one: the
    files and the result after the second save, made at whatever time,
    are those of that save alone.  Saving under the path of the
    task-list file gives the same files and the same result as saving
    under the path given. *)
Theorem save_tasks_frame (h : Host) (fs : files) (tasks : list Task)
    (file_path : string) :
  let txt := txt_path file_path in
  let bat := get_bat_path h txt in
  let fs' := fst (save_tasks h fs tasks file_path) in
  fs' !! txt = Some (serialize (now h) tasks)
  /\ fs' !! bat = Some (script_of h tasks txt)
  /\ (forall p, p <> txt -> p <> bat -> fs' !! p = fs !! p)
  /\ (forall later,
        save_tasks (Extra.at_time h later) fs' tasks file_path
        = save_tasks (Extra.at_time h later) fs tasks file_path)
  /\ save_tasks h fs tasks txt = save_tasks h fs tasks file_path.
Proof.
  intros txt bat fs'.
  destruct (save_tasks_files h tasks file_path) as [r Hsave].
  assert (Hne : bat <> txt) by (apply bat_path_differs, txt_path_ends).
  assert (Efs : fs' = <[bat := script_of h tasks txt]>
                        (<[txt := serialize (now h) tasks]> fs)).
  { unfold fs'. now rewrite Hsave. }
  split; [|split; [|split; [|split]]].
  - rewrite Efs, lookup_insert_ne by exact Hne. apply lookup_insert_eq.
  - rewrite Efs. apply lookup_insert_eq.
  - intros p Ht Hb. rewrite Efs.
    rewrite lookup_insert_ne by congruence. apply lookup_insert_ne. congruence.
  - intros later.
    destruct (save_tasks_files (Extra.at_time h later) tasks file_path) as [r' Hlater].
    rewrite !Hlater, Efs. f_equal. fold txt.
    change (get_bat_path (Extra.at_time h later) txt) with bat.
    apply map_eq. intros p.
    destruct (decide (p = bat)) as [->|Hb].
    + now rewrite !lookup_insert_eq.
    + rewrite !(lookup_insert_ne _ bat) by congruence.
      destruct (decide (p = txt)) as [->|Ht].
      * now rewrite !lookup_insert_eq.
      * rewrite !(lookup_insert_ne _ txt) by congruence.
        rewrite lookup_insert_ne by congruence. apply lookup_insert_ne. congruence.
  - unfold save_tasks. fold (txt_path file_path). fold (txt_path txt).
    unfold txt. now rewrite txt_path_idem.
Qed.

Lemma save_tasks_frame_witness :
  let fs := <["notes.md" := "keep"]> ∅ in
  let tasks := [ mkTask "delay" "soon" EmptyString ] in
  let h' := Extra.at_time windows_host "2024-05-01 10:30:01" in
  fst (save_tasks windows_host fs tasks "plan") !! "notes.md" = Some "keep"
  /\ save_tasks h' (fst (save_tasks windows_host fs tasks "plan")) tasks "plan"
     = save_tasks h' fs tasks "plan".
Proof.
  intros fs tasks h'. split.
  - rewrite (proj1 (proj2 (proj2
               (save_tasks_frame windows_host fs tasks "plan"))) "notes.md").
    + reflexivity.
    + vm_compute. discriminate.
    + vm_compute. discriminate.
  - apply (proj1 (proj2 (proj2 (proj2
             (save_tasks_frame windows_host fs tasks "plan"))))
             "2024-05-01 10:30:01").
Defined.

(** Reading gives the characters written when no [\r] is among them. *)
Lemma universal_newlines_plain (s : string) :
  contains CR s = false -> universal_newlines s = s.
Proof.
  induction s as [|c s IH]; [reflexivity |]. cbn [contains universal_newlines].
  intros H. apply orb_false_iff in H as [Hc Hs]. rewrite Hc. f_equal. now apply IH.
Qed.

Lemma serialize_no_cr (now : string) (tasks : list Task) :
  contains CR now = false ->
  Forall Extra.plain_task tasks ->
  contains CR (serialize now tasks) = false.
Proof.
  intros Hnow Htasks. rewrite SerializerFacts.serialize_text. unfold header.
  rewrite !contains_app, Hnow. cbn [orb].
  change (contains CR "# AutoSpark Application - Task List") with false.
  change (contains CR NL) with false.
  change (contains CR "# Generated on: ") with false.
  change (contains CR "# Format: [Task Type] | [Details] | [Additional Info (optional)]")
    with false.
  cbn [orb].
  induction Htasks as [|t tasks ((_ & Hk) & (_ & Hd) & (_ & Ha)) _ IH]; [reflexivity |].
  cbn [map concat_str]. rewrite contains_app, IH, orb_false_r.
  unfold task_line. rewrite !contains_app, Hk, Hd.
  change (contains CR "[") with false. change (contains CR "] | ") with false.
  change (contains CR NL) with false. cbn [orb]. rewrite orb_false_r.
  destruct (is_empty (additional t)); [reflexivity |].
  rewrite contains_app, Ha. reflexivity.
Qed.

(** X18: loading what was saved gives the list with each task changed the
    same way: the kind trimmed, the primary field empty, the trimmed
    primary field in the place of the secondary one, and the secondary
    field gone.  This is so for fields and a time without line end
    ([\n] or [\r]), and also when the compiler stopped, the task-list
    file being written before the script. *)
Theorem load_after_save (h : Host) (fs : files) (tasks : list Task)
    (file_path : string) :
  Extra.plain (now h) ->
  Forall (fun t => Extra.plain_task t
                   /\ contains "]" (task_type t) = false
                   /\ contains "|" (details t) = false) tasks ->
  load_tasks (fst (save_tasks h fs tasks file_path)) (txt_path file_path)
  = Loaded (map Extra.read_back tasks).
Proof.
  intros [Hnow Hcr] Htasks.
  destruct (save_tasks_files h tasks file_path) as [r Hsave].
  rewrite Hsave. cbn [fst]. unfold load_tasks, read_text.
  rewrite lookup_insert_ne by (apply bat_path_differs, txt_path_ends).
  rewrite lookup_insert_eq. f_equal.
  rewrite universal_newlines_plain.
  - apply RoundTripFacts.parse_serialize; [exact Hnow |].
    eapply Forall_impl; [exact Htasks |].
    intros t (((Hk & _) & (Hd & _) & (Ha & _)) & H). split; [|exact H].
    repeat split; assumption.
  - apply serialize_no_cr; [exact Hcr |].
    eapply Forall_impl; [exact Htasks |]. now intros t [H _].
Qed.

Lemma load_after_save_witness :
  load_tasks
    (fst (save_tasks windows_host ∅
            [ mkTask "open_url" " example.com " EmptyString;
              mkTask "delay" "soon" EmptyString;
              mkTask "backup_folder" "C:/data" "D:/backup" ] "plan"))
    "plan.txt"
  = Loaded [ mkTask "open_url" EmptyString "example.com";
             mkTask "delay" EmptyString "soon";
             mkTask "backup_folder" EmptyString "C:/data" ].
Proof.
  apply (load_after_save windows_host ∅
           [ mkTask "open_url" " example.com " EmptyString;
             mkTask "delay" "soon" EmptyString;
             mkTask "backup_folder" "C:/data" "D:/backup" ] "plan").
  - split; reflexivity.
  - repeat constructor.
Defined.

End SaveFacts.
